(** * FargateTaskEnvironment: a shallow embedding

    The Python class [FargateTaskEnvironment]
    (src/prefect/environments/execution/fargate/fargate_task.py) embedded
    as functions over an explicit object store.

    Python lists and dicts are mutable objects with identity: [setup]
    mutates the container definitions it was handed, and the dicts of the
    standard environment variables are shared by every container entry.
    Values are therefore either immutable scalars or references into a
    store of objects, and every statement that mutates is a step of a
    state-and-exception monad over that store.

    The one loop that reads its list again at every step (a Python list
    iterator does) takes a bound on its number of steps; the theorems
    on [setup] say how much is enough. *)

From Stdlib Require Import ZArith Lia Bool.
From stdpp Require Import gmap strings list fin_maps.

Open Scope string_scope.
Open Scope list_scope.

(** ** Values and objects *)

(** Addresses of the store: an object allocated later has a larger one. *)
Abbreviation loc := nat.

(** A Python value: an immutable scalar, or a reference to a mutable
    object ([list] or [dict]). *)
Inductive pyval :=
| VNone
| VBool (b : bool)
| VInt (z : Z)
| VStr (s : string)
| VRef (l : loc).

(** The mutable objects: a [list] of values, a [dict] with string keys. *)
Inductive pyobj :=
| OList (items : list pyval)
| ODict (entries : gmap string pyval).

(** The store: the object at address [l] is [h !! l]; allocation appends.
    An address outside the store stands for an object of a type that is
    not modelled (it has no methods and is truthy, like [object()]). *)
Abbreviation heap := (list pyobj).

#[global] Instance pyval_eq_dec : EqDecision pyval.
Proof. solve_decision. Defined.

#[global] Instance pyobj_eq_dec : EqDecision pyobj.
Proof. solve_decision. Defined.

(** Python truthiness ([bool(v)], as tested by [or], [not] and [if]). *)
Definition truthy (h : heap) (v : pyval) : bool :=
  match v with
  | VNone => false
  | VBool b => b
  | VInt z => negb (z =? 0)%Z
  | VStr s => negb (String.eqb s "")
  | VRef l =>
      match h !! l with
      | Some (OList items) => negb (bool_decide (items = []))
      | Some (ODict entries) => negb (bool_decide (entries = ∅))
      | None => true
      end
  end.

(** [a or b] *)
Definition py_or (h : heap) (a b : pyval) : pyval :=
  if truthy h a then a else b.

(** ** Exceptions *)

(** The exceptions that can travel through this code.  [ClientError] is
    botocore's exception class for an error response of the service; it
    carries the error code of the response.  [OtherError] is any other
    exception class of the client library (named by [cls]). *)
Inductive exn :=
| TypeError (msg : string)
| AttributeError (msg : string)
| KeyError (key : string)
| IndexError (msg : string)
| ClientError (code : string)
| OtherError (cls : string).

(** [isinstance(e, ClientError)], the test of [except ClientError]. *)
Definition is_ClientError (e : exn) : bool :=
  match e with
  | ClientError _ => true
  | _ => false
  end.

(** ** Partitioning the passthrough options: [_parse_kwargs] *)

Definition definition_kwarg_list : list string :=
  [ "family";
    "taskRoleArn";
    "executionRoleArn";
    "networkMode";
    "containerDefinitions";
    "volumes";
    "placementConstraints";
    "requiresCompatibilities";
    "cpu";
    "memory";
    "tags";
    "pidMode";
    "ipcMode";
    "proxyConfiguration";
    "inferenceAccelerators" ].

Definition run_kwarg_list : list string :=
  [ "cluster";
    "taskDefinition";
    "count";
    "startedBy";
    "group";
    "placementConstraints";
    "placementStrategy";
    "platformVersion";
    "networkConfiguration";
    "tags";
    "enableECSManagedTags";
    "propagateTags" ].

(** One of the two loops of [_parse_kwargs]:
<<
    result = {}
    for key, item in user_kwargs.items():
        if key in allowed:
            result.update({key: item})
>>
*)
Definition collect_kwargs (allowed : list string)
    (user_kwargs : gmap string pyval) : gmap string pyval :=
  map_fold
    (λ key item result,
       if bool_decide (key ∈ allowed) then <[key := item]> result else result)
    ∅ user_kwargs.

Definition _parse_kwargs (user_kwargs : gmap string pyval)
    : gmap string pyval * gmap string pyval :=
  let task_definition_kwargs := collect_kwargs definition_kwarg_list user_kwargs in
  let task_run_kwargs := collect_kwargs run_kwarg_list user_kwargs in
  (task_definition_kwargs, task_run_kwargs).


(** ** The state-and-exception monad *)

(** How a call ends: it returns, it raises, or the model's loop budget
    is used up ([OutOfFuel], not a Python outcome). *)
Inductive result (A : Type) :=
| Returned (a : A)
| Raised (e : exn)
| OutOfFuel.
Arguments Returned {A} a.
Arguments Raised {A} e.
Arguments OutOfFuel {A}.

(** A request sent to the ECS client, with the store as it is when the
    request is sent (the client reads the arguments at that moment). *)
Inductive api_call :=
| DescribeTaskDefinition (taskDefinition : pyval)
| RegisterTaskDefinition (kwargs : gmap string pyval) (h : heap)
| RunTask (kwargs : gmap string pyval) (h : heap).

(** The boto3 ECS client: each operation answers a request by returning
    (the response is not used by this code) or by raising. *)
Record ecs_client := {
  describe_task_definition : pyval → heap → option exn;
  register_task_definition : gmap string pyval → heap → option exn;
  run_task : gmap string pyval → heap → option exn;
}.

(** [boto3.client(service, aws_access_key_id=..., aws_secret_access_key=...,
    aws_session_token=..., region_name=...)] *)
Definition client_factory : Type :=
  string → pyval → pyval → pyval → pyval → ecs_client.

(** [prefect.config], the fields this file reads. *)
Record Config := {
  cloud_graphql : pyval;
  cloud_agent_auth_token : pyval;
  cloud_auth_token : pyval;
  logging_extra_loggers : list string;
}.

(** The value passed as [executor]: a plain value ([None] included) or
    an instance of [prefect.engine.executors.Executor]. *)
Inductive executor_arg (Executor : Type) :=
| ArgValue (v : pyval)
| ArgExecutor (e : Executor).
Arguments ArgValue {Executor} v.
Arguments ArgExecutor {Executor} e.

Section FargateTask.

(** Collaborators that live outside this file. *)
Variable Flow : Type.
Variable Executor : Type.
Variable Callable : Type.
(** [prefect.utilities.storage.get_flow_image] *)
Variable get_flow_image : Flow → string.
(** The class returned by [prefect.engine.get_default_executor_class()],
    called with keyword arguments; its constructor may raise. *)
Variable get_default_executor_class : gmap string pyval → exn + Executor.
(** [str] on the list [config.logging.extra_loggers]. *)
Variable str : list string → string.
Variable config : Config.

(** The instance attributes. *)
Record FargateTaskEnvironment := {
  launch_type : pyval;
  aws_access_key_id : pyval;
  aws_secret_access_key : pyval;
  aws_session_token : pyval;
  region_name : pyval;
  task_definition_kwargs : gmap string pyval;
  task_run_kwargs : gmap string pyval;
  executor : Executor;
  labels : option (list string);
  on_start : option Callable;
  on_exit : option Callable;
  metadata : option (gmap string pyval);
}.

Definition set_task_definition_kwargs (m : gmap string pyval)
    (self : FargateTaskEnvironment) : FargateTaskEnvironment :=
  {| launch_type := launch_type self;
     aws_access_key_id := aws_access_key_id self;
     aws_secret_access_key := aws_secret_access_key self;
     aws_session_token := aws_session_token self;
     region_name := region_name self;
     task_definition_kwargs := m;
     task_run_kwargs := task_run_kwargs self;
     executor := executor self;
     labels := labels self;
     on_start := on_start self;
     on_exit := on_exit self;
     metadata := metadata self |}.

(** What a method runs on: the instance, the object store, and the
    requests sent so far. *)
Record state := {
  self : FargateTaskEnvironment;
  store : heap;
  calls : list api_call;
}.

Definition M (A : Type) : Type := state → result A * state.

#[local] Instance M_ret : MRet M := λ A a s, (Returned a, s).

#[local] Instance M_bind : MBind M := λ A B f m s,
  match m s with
  | (Returned a, s') => f a s'
  | (Raised e, s') => (Raised e, s')
  | (OutOfFuel, s') => (OutOfFuel, s')
  end.

Definition raise {A} (e : exn) : M A := λ s, (Raised e, s).

Definition out_of_fuel {A} : M A := λ s, (OutOfFuel, s).

(** [try: body  except ClientError: handler] *)
Definition try_except_ClientError {A} (body handler : M A) : M A := λ s,
  match body s with
  | (Raised e, s') => if is_ClientError e then handler s' else (Raised e, s')
  | r => r
  end.

(** ** Python primitives *)

(** A list or dict display ([[]], [{}], [{...}]): a new object. *)
Definition alloc (o : pyobj) : M pyval := λ s,
  (Returned (VRef (length (store s))),
   {| self := self s; store := store s ++ [o]; calls := calls s |}).

Definition write (l : loc) (o : pyobj) : M unit := λ s,
  (Returned (), {| self := self s; store := <[l := o]> (store s); calls := calls s |}).

(** [bool(v)] *)
Definition py_truthy (v : pyval) : M bool := λ s,
  (Returned (truthy (store s) v), s).

(** [a or b] *)
Definition py_or_ (a b : pyval) : M pyval := λ s,
  (Returned (py_or (store s) a b), s).

(** The object a value refers to, if it is a list or a dict. *)
Definition deref (v : pyval) : M (option pyobj) := λ s,
  (Returned match v with VRef l => store s !! l | _ => None end, s).

(** [v.get(key)] *)
Definition meth_get (v : pyval) (key : string) : M pyval :=
  o ← deref v;
  match o with
  | Some (ODict entries) => mret (default VNone (entries !! key))
  | _ => raise (AttributeError "get")
  end.

(** [v[key]] for a string [key] *)
Definition getitem (v : pyval) (key : string) : M pyval :=
  o ← deref v;
  match o with
  | Some (ODict entries) =>
      match entries !! key with
      | Some x => mret x
      | None => raise (KeyError key)
      end
  | Some (OList _) => raise (TypeError "list indices must be integers or slices, not str")
  | None =>
      match v with
      | VStr _ => raise (TypeError "string indices must be integers")
      | _ => raise (TypeError "object is not subscriptable")
      end
  end.

(** [v[0]] *)
Definition getitem0 (v : pyval) : M pyval :=
  o ← deref v;
  match o with
  | Some (OList items) =>
      match items !! 0 with
      | Some x => mret x
      | None => raise (IndexError "list index out of range")
      end
  | Some (ODict _) => raise (KeyError "0")
  | None =>
      match v with
      | VStr (String c _) => mret (VStr (String c ""))
      | VStr EmptyString => raise (IndexError "string index out of range")
      | _ => raise (TypeError "object is not subscriptable")
      end
  end.

(** [v[key] = x] for a string [key] *)
Definition setitem (v : pyval) (key : string) (x : pyval) : M unit :=
  o ← deref v;
  match o, v with
  | Some (ODict entries), VRef l => write l (ODict (<[key := x]> entries))
  | Some (OList _), _ => raise (TypeError "list indices must be integers or slices, not str")
  | _, _ => raise (TypeError "object does not support item assignment")
  end.

(** [v.append(x)] *)
Definition meth_append (v : pyval) (x : pyval) : M unit :=
  o ← deref v;
  match o, v with
  | Some (OList items), VRef l => write l (OList (items ++ [x]))
  | _, _ => raise (AttributeError "append")
  end.

(** [v.extend(xs)], where [xs] is the items of a list local to the caller *)
Definition meth_extend (v : pyval) (xs : list pyval) : M unit :=
  o ← deref v;
  match o, v with
  | Some (OList items), VRef l => write l (OList (items ++ xs))
  | _, _ => raise (AttributeError "extend")
  end.

(** [for x in <list at l>: body], from index [i] on.  The iterator reads
    the list again at every step, so items appended by the body are
    visited too; [fuel] bounds the number of steps. *)
Fixpoint for_in_list (fuel : nat) (l : loc) (i : nat) (body : pyval → M unit)
    : M unit :=
  match fuel with
  | 0 => out_of_fuel
  | S fuel' =>
      o ← deref (VRef l);
      match o with
      | Some (OList items) =>
          match items !! i with
          | Some x => body x ;; for_in_list fuel' l (S i) body
          | None => mret ()
          end
      | _ => mret ()
      end
  end.

(** [for x in <items fixed beforehand>: body] *)
Fixpoint for_each (items : list pyval) (body : pyval → M unit) : M unit :=
  match items with
  | [] => mret ()
  | x :: items' => body x ;; for_each items' body
  end.

Fixpoint chars (s : string) : list pyval :=
  match s with
  | EmptyString => []
  | String c s' => VStr (String c "") :: chars s'
  end.

(** [for x in v: body].  A list is iterated by index, a dict yields its
    keys (in the order of [map_to_list], where Python has the order of
    insertion), a string its characters; nothing else is iterable. *)
Definition for_in (fuel : nat) (v : pyval) (body : pyval → M unit) : M unit :=
  o ← deref v;
  match o, v with
  | Some (OList _), VRef l => for_in_list fuel l 0 body
  | Some (ODict entries), _ => for_each (VStr <$> (map_to_list entries).*1) body
  | _, VStr s => for_each (chars s) body
  | _, _ => raise (TypeError "object is not iterable")
  end.

(** A call with explicit keywords and an unpacked mapping [star]: a
    keyword given twice is a [TypeError]. *)
Definition keyword_arguments (explicit : list (string * pyval))
    (star : gmap string pyval) : M (gmap string pyval) :=
  if bool_decide (Forall (λ kv, star !! kv.1 = None) explicit)
  then mret (list_to_map explicit ∪ star)
  else raise (TypeError "got multiple values for keyword argument").

Definition record_call (c : api_call) (s : state) : state :=
  {| self := self s; store := store s; calls := calls s ++ [c] |}.

(** Send a request: it is recorded, then the client returns or raises. *)
Definition invoke (c : heap → api_call) (answer : heap → option exn) : M unit := λ s,
  let s' := record_call (c (store s)) s in
  match answer (store s) with
  | None => (Returned (), s')
  | Some e => (Raised e, s')
  end.

(** [self.<attribute>] *)
Definition self_attr {A} (attribute : FargateTaskEnvironment → A) : M A := λ s,
  (Returned (attribute (self s)), s).

(** [self.task_definition_kwargs.get(key)] *)
Definition definition_kwargs_get (key : string) : M pyval :=
  kwargs ← self_attr task_definition_kwargs;
  mret (default VNone (kwargs !! key)).

(** [self.task_definition_kwargs[key]] *)
Definition definition_kwargs_getitem (key : string) : M pyval :=
  kwargs ← self_attr task_definition_kwargs;
  match kwargs !! key with
  | Some x => mret x
  | None => raise (KeyError key)
  end.

(** [self.task_definition_kwargs[key] = x] *)
Definition definition_kwargs_setitem (key : string) (x : pyval) : M unit := λ s,
  (Returned (),
   {| self := set_task_definition_kwargs
                (<[key := x]> (task_definition_kwargs (self s))) (self s);
      store := store s; calls := calls s |}).

(** [os.getenv(name)] *)
Definition os_getenv (environ : gmap string string) (name : string) : pyval :=
  match environ !! name with
  | Some value => VStr value
  | None => VNone
  end.

(** ** Construction: [__init__] *)

(** The arguments of [__init__] ([kwargs] is the open set of passthrough
    options); [default_args] below gives the defaults of the signature. *)
Record init_args := {
  arg_launch_type : pyval;
  arg_aws_access_key_id : pyval;
  arg_aws_secret_access_key : pyval;
  arg_aws_session_token : pyval;
  arg_region_name : pyval;
  arg_executor : executor_arg Executor;
  arg_executor_kwargs : pyval;
  arg_labels : option (list string);
  arg_on_start : option Callable;
  arg_on_exit : option Callable;
  arg_metadata : option (gmap string pyval);
  arg_kwargs : gmap string pyval;
}.

Definition default_args : init_args :=
  {| arg_launch_type := VStr "FARGATE";
     arg_aws_access_key_id := VNone;
     arg_aws_secret_access_key := VNone;
     arg_aws_session_token := VNone;
     arg_region_name := VNone;
     arg_executor := ArgValue VNone;
     arg_executor_kwargs := VNone;
     arg_labels := None;
     arg_on_start := None;
     arg_on_exit := None;
     arg_metadata := None;
     arg_kwargs := ∅ |}.

(** The mapping unpacked by a double-star argument. *)
Definition unpack_mapping (h : heap) (v : pyval) : exn + gmap string pyval :=
  match v with
  | VRef l =>
      match h !! l with
      | Some (ODict entries) => inr entries
      | _ => inl (TypeError "argument after ** must be a mapping")
      end
  | _ => inl (TypeError "argument after ** must be a mapping")
  end.

Definition deprecation_warning : string :=
  "`executor_kwargs` is deprecated, use `executor` instead".

(** [__init__] reads the store (truthiness of its arguments) and the
    process environment; it returns the warnings it emitted and either
    the new instance or the exception it raised.

    Modelled from the spec: the base class [Environment] is not in this
    file; its [__init__] stores labels, callbacks and metadata as given. *)
Definition __init__ (environ : gmap string string) (h : heap) (a : init_args)
    : list string * result FargateTaskEnvironment :=
  let launch_type_ := arg_launch_type a in
  let aws_access_key_id_ :=
    py_or h (arg_aws_access_key_id a) (os_getenv environ "AWS_ACCESS_KEY_ID") in
  let aws_secret_access_key_ :=
    py_or h (arg_aws_secret_access_key a) (os_getenv environ "AWS_SECRET_ACCESS_KEY") in
  let aws_session_token_ :=
    py_or h (arg_aws_session_token a) (os_getenv environ "AWS_SESSION_TOKEN") in
  let region_name_ :=
    py_or h (arg_region_name a) (os_getenv environ "REGION_NAME") in
  let '(task_definition_kwargs_, task_run_kwargs_) := _parse_kwargs (arg_kwargs a) in
  let warnings :=
    if bool_decide (arg_executor_kwargs a ≠ VNone) then [deprecation_warning] else [] in
  let executor_ : exn + Executor :=
    match arg_executor a with
    | ArgValue VNone =>
        match (if truthy h (arg_executor_kwargs a)
               then unpack_mapping h (arg_executor_kwargs a)
               else inr ∅) with
        | inr kwargs => get_default_executor_class kwargs
        | inl e => inl e
        end
    | ArgValue _ => inl (TypeError "`executor` must be an `Executor` or `None`")
    | ArgExecutor e => inr e
    end in
  (warnings,
   match executor_ with
   | inl e => Raised e
   | inr executor_ =>
       Returned
         {| launch_type := launch_type_;
            aws_access_key_id := aws_access_key_id_;
            aws_secret_access_key := aws_secret_access_key_;
            aws_session_token := aws_session_token_;
            region_name := region_name_;
            task_definition_kwargs := task_definition_kwargs_;
            task_run_kwargs := task_run_kwargs_;
            executor := executor_;
            labels := arg_labels a;
            on_start := arg_on_start a;
            on_exit := arg_on_exit a;
            metadata := arg_metadata a |}
   end).

(** ** [dependencies] *)

(** The property [dependencies]: the same two packages for every
    instance. *)
Definition dependencies (self : FargateTaskEnvironment) : list string :=
  [ "boto3"; "botocore" ].

(** ** [setup] *)

(** The client built at the start of [setup] and of [execute]. *)
Definition client_of (boto3_client : client_factory) (me : FargateTaskEnvironment)
    : ecs_client :=
  boto3_client "ecs" (aws_access_key_id me) (aws_secret_access_key me)
    (aws_session_token me) (region_name me).

Definition make_client (boto3_client : client_factory) : M ecs_client :=
  me ← self_attr id;
  mret (client_of boto3_client me).

Definition name_value (name : string) (value : pyval) : gmap string pyval :=
  {[ "name" := VStr name; "value" := value ]}.

(** The dict displays of the list [env_values]. *)
Definition env_values_displays : list (gmap string pyval) :=
  [ name_value "PREFECT__CLOUD__GRAPHQL" (cloud_graphql config);
    name_value "PREFECT__CLOUD__USE_LOCAL_SECRETS" (VStr "false");
    name_value "PREFECT__ENGINE__FLOW_RUNNER__DEFAULT_CLASS"
      (VStr "prefect.engine.cloud.CloudFlowRunner");
    name_value "PREFECT__ENGINE__TASK_RUNNER__DEFAULT_CLASS"
      (VStr "prefect.engine.cloud.CloudTaskRunner");
    name_value "PREFECT__LOGGING__LOG_TO_CLOUD" (VStr "true");
    name_value "PREFECT__LOGGING__EXTRA_LOGGERS"
      (VStr (str (logging_extra_loggers config))) ].

(** Evaluating a list of dict displays: one new dict each, in order.  The
    list object is local to the caller and only read, so it is kept as
    the list of its items. *)
Fixpoint alloc_dicts (displays : list (gmap string pyval)) : M (list pyval) :=
  match displays with
  | [] => mret []
  | d :: displays' =>
      x ← alloc (ODict d);
      xs ← alloc_dicts displays';
      mret (x :: xs)
  end.

Definition flow_container : string := "flow-container".

Definition flow_command : list pyval :=
  [ VStr "/bin/sh";
    VStr "-c";
    VStr "python -c 'import prefect; prefect.environments.FargateTaskEnvironment().run_flow()'" ].

(** [self.task_definition_kwargs["containerDefinitions"][0]] *)
Definition first_container : M pyval :=
  cds ← definition_kwargs_getitem "containerDefinitions";
  getitem0 cds.

(** [self.task_definition_kwargs.get("containerDefinitions")[0]] *)
Definition first_container_via_get : M pyval :=
  cds ← definition_kwargs_get "containerDefinitions";
  getitem0 cds.

(** The body of the loop over the container definitions. *)
Definition add_environment (env_values : list pyval) (definition : pyval) : M unit :=
  env ← meth_get definition "environment";
  b ← py_truthy env;
  (if negb b then
     new ← alloc (OList []);
     setitem definition "environment" new
   else mret ());;
  env ← getitem definition "environment";
  meth_extend env env_values.

(** The blocks of the body of [if not definition_exists:], named after
    the comments that introduce them in the source. *)

(** [# create containerDefinitions if they do not exist] *)
Definition create_container_definitions : M unit :=
  cds ← definition_kwargs_get "containerDefinitions";
  b ← py_truthy cds;
  if negb b then
    new ← alloc (OList []);
    definition_kwargs_setitem "containerDefinitions" new;;
    cds ← definition_kwargs_getitem "containerDefinitions";
    empty ← alloc (ODict ∅);
    meth_append cds empty
  else mret ().

(** [# set environment variables for all containers] *)
Definition set_environment_variables (fuel : nat) (env_values : list pyval) : M unit :=
  cds ← definition_kwargs_getitem "containerDefinitions";
  for_in fuel cds (add_environment env_values).

(** [# set name on first container] *)
Definition set_name : M unit :=
  c ← first_container;
  name ← meth_get c "name";
  b ← py_truthy name;
  (if negb b then
     c ← first_container;
     setitem c "name" (VStr "")
   else mret ());;
  c ← first_container_via_get;
  setitem c "name" (VStr flow_container).

(** [# set image on first container] *)
Definition set_image (flow : Flow) : M unit :=
  c ← first_container;
  image ← meth_get c "image";
  b ← py_truthy image;
  (if negb b then
     c ← first_container;
     setitem c "image" (VStr "")
   else mret ());;
  c ← first_container_via_get;
  setitem c "image" (VStr (get_flow_image flow)).

(** [# set command on first container] *)
Definition set_command : M unit :=
  c ← first_container;
  command ← meth_get c "command";
  b ← py_truthy command;
  (if negb b then
     new ← alloc (OList []);
     c ← first_container;
     setitem c "command" new
   else mret ());;
  new ← alloc (OList flow_command);
  c ← first_container_via_get;
  setitem c "command" new.

(** Everything the branch does before it sends the registration. *)
Definition synthesize_containers (fuel : nat) (flow : Flow) : M unit :=
  env_values ← alloc_dicts env_values_displays;
  create_container_definitions;;
  set_environment_variables fuel env_values;;
  set_name;;
  set_image flow;;
  set_command.

(** The body of [if not definition_exists:]. *)
Definition register_definition (fuel : nat) (boto3_c : ecs_client) (flow : Flow)
    : M unit :=
  synthesize_containers fuel flow;;
  kwargs ← self_attr task_definition_kwargs;
  invoke (RegisterTaskDefinition kwargs) (register_task_definition boto3_c kwargs).

(** The existence check: [True] unless the describe request raises a
    [ClientError]. *)
Definition check_definition_exists (boto3_c : ecs_client) : M bool :=
  try_except_ClientError
    (family ← definition_kwargs_get "family";
     invoke (λ _, DescribeTaskDefinition family)
            (describe_task_definition boto3_c family);;
     mret true)
    (mret false).

Definition setup (fuel : nat) (boto3_client : client_factory) (flow : Flow) : M unit :=
  boto3_c ← make_client boto3_client;
  definition_exists ← check_definition_exists boto3_c;
  if negb definition_exists then register_definition fuel boto3_c flow
  else mret ().

(** ** [execute] *)

Definition execute (boto3_client : client_factory) (context : gmap string pyval)
    (flow : Flow) : M unit :=
  let flow_run_id := default (VStr "unknown") (context !! "flow_run_id") in
  auth_token ← py_or_ (cloud_agent_auth_token config) (cloud_auth_token config);
  v1 ← alloc (ODict (name_value "PREFECT__CLOUD__AUTH_TOKEN" auth_token));
  v2 ← alloc (ODict (name_value "PREFECT__CONTEXT__FLOW_RUN_ID" flow_run_id));
  v3 ← alloc (ODict (name_value "PREFECT__CONTEXT__IMAGE" (VStr (get_flow_image flow))));
  environment ← alloc (OList [v1; v2; v3]);
  override ← alloc (ODict {[ "name" := VStr flow_container;
                             "environment" := environment ]});
  container_overrides ← alloc (OList [override]);
  boto3_c ← make_client boto3_client;
  overrides ← alloc (ODict {[ "containerOverrides" := container_overrides ]});
  launch ← self_attr launch_type;
  run_kwargs ← self_attr task_run_kwargs;
  kwargs ← keyword_arguments [("overrides", overrides); ("launchType", launch)]
             run_kwargs;
  invoke (RunTask kwargs) (run_task boto3_c kwargs).

(** ** Shapes of the container definitions *)

(** The value under ["environment"] in a container entry is usable by
    [setup]: the key is absent, or the value is a falsy scalar, or it is
    a list other than the list of containers at [lc]. *)
Definition environment_ok (h : heap) (lc : loc) (o : option pyval) : bool :=
  match o with
  | None => true
  | Some (VRef e) =>
      match h !! e with
      | Some (OList _) => negb (bool_decide (e = lc))
      | _ => false
      end
  | Some v => negb (truthy h v)
  end.

(** A container entry is a dict with a usable environment. *)
Definition container_ok (h : heap) (lc : loc) (d : pyval) : bool :=
  match d with
  | VRef l =>
      match h !! l with
      | Some (ODict entries) => environment_ok h lc (entries !! "environment")
      | _ => false
      end
  | _ => false
  end.

(** The value of [containerDefinitions] is falsy (then [setup] replaces
    it), or it is a list of container entries. *)
Definition containers_ok (h : heap) (cds : pyval) : bool :=
  negb (truthy h cds) ||
  match cds with
  | VRef lc =>
      match h !! lc with
      | Some (OList items) => forallb (container_ok h lc) items
      | _ => false
      end
  | _ => false
  end.

(** The number of entries of a list value (zero for anything else). *)
Definition item_count (h : heap) (v : pyval) : nat :=
  match v with
  | VRef l =>
      match h !! l with
      | Some (OList items) => length items
      | _ => 0
      end
  | _ => 0
  end.

(** The items of the environment list of a container entry (none when
    the entry has no environment list). *)
Definition environment_of (h : heap) (d : pyval) : list pyval :=
  match d with
  | VRef l =>
      match h !! l with
      | Some (ODict entries) =>
          match entries !! "environment" with
          | Some (VRef e) =>
              match h !! e with
              | Some (OList items) => items
              | _ => []
              end
          | _ => []
          end
      | _ => []
      end
  | _ => []
  end.

(** The address of the environment list of a container entry, when that
    list is not empty (an empty one is replaced by [setup]). *)
Definition environment_list (h : heap) (d : pyval) : option loc :=
  match d with
  | VRef l =>
      match h !! l with
      | Some (ODict entries) =>
          match entries !! "environment" with
          | Some (VRef e) =>
              match h !! e with
              | Some (OList (_ :: _)) => Some e
              | _ => None
              end
          | _ => None
          end
      | _ => None
      end
  | _ => None
  end.

(** No container entry occurs twice in the list, and no two entries
    share one (non-empty) environment list. *)
Definition containers_separate (h : heap) (cds : pyval) : bool :=
  match cds with
  | VRef lc =>
      match h !! lc with
      | Some (OList items) =>
          bool_decide (NoDup items) &&
          bool_decide (NoDup (omap (environment_list h) items))
      | _ => true
      end
  | _ => true
  end.

(** The value refers to a dict with these entries. *)
Definition points_to_dict (h : heap) (v : pyval) (entries : gmap string pyval) : Prop :=
  ∃ l, v = VRef l ∧ h !! l = Some (ODict entries).

(** How many items of the environment list of a container entry are
    dicts whose ["name"] is [name]. *)
Definition variable_named (h : heap) (name : string) (v : pyval) : bool :=
  match v with
  | VRef l =>
      match h !! l with
      | Some (ODict entries) => bool_decide (entries !! "name" = Some (VStr name))
      | _ => false
      end
  | _ => false
  end.

Definition count_variable (h : heap) (d : pyval) (name : string) : nat :=
  length (filter (λ v, variable_named h name v = true) (environment_of h d)).

(** What one turn of the loop over the containers does to the store:
    a non-empty environment list is extended in place; otherwise the
    entry gets a new list, which holds the standard variables only. *)
Definition add_environment_effect (env_values : list pyval) (h : heap) (d : pyval)
    : heap :=
  match d with
  | VRef l =>
      match h !! l with
      | Some (ODict entries) =>
          let fresh :=
            <[l := ODict (<["environment" := VRef (length h)]> entries)]> h
              ++ [OList env_values] in
          match entries !! "environment" with
          | Some (VRef e) =>
              match h !! e with
              | Some (OList (x :: items)) =>
                  <[e := OList ((x :: items) ++ env_values)]> h
              | _ => fresh
              end
          | _ => fresh
          end
      | _ => h
      end
  | _ => h
  end.

(** The shape of a container list at [lc] with entries [ds]. *)
Definition typed (h : heap) (lc : loc) (ds : list pyval) : Prop :=
  h !! lc = Some (OList ds) ∧ Forall (λ d, container_ok h lc d = true) ds.

(** After the loop, seen from the store [h0] it started on: the entry is
    a dict whose environment is a list that holds the items it held in
    [h0], then possibly more, then the standard variables; a list that
    was not empty in [h0] is still the same object. *)
Definition environment_extended (h0 h : heap) (env_values : list pyval) (d : pyval)
    : Prop :=
  ∃ l entries e mid,
    d = VRef l ∧ h !! l = Some (ODict entries) ∧
    entries !! "environment" = Some (VRef e) ∧
    h !! e = Some (OList (environment_of h0 d ++ mid ++ env_values)) ∧
    (∀ e0, environment_list h0 d = Some e0 → e = e0).

(** What holds of the store [h] while the loop runs, seen from the store
    [h1] the loop started on: lists only grow, dicts change at most
    under ["environment"] and only when they are containers, and every
    container is either as it was or already extended. *)
Definition loop_invariant (h1 : heap) (env_values ds : list pyval) (h : heap) : Prop :=
  (∀ e items, h1 !! e = Some (OList items) →
     ∃ more, h !! e = Some (OList (items ++ more))) ∧
  (∀ l entries1, h1 !! l = Some (ODict entries1) →
     ∃ entries, h !! l = Some (ODict entries) ∧
       (entries = entries1 ∨
        (VRef l ∈ ds ∧ ∃ e, entries = <["environment" := VRef e]> entries1))) ∧
  (∀ d, d ∈ ds →
     (∃ l entries, d = VRef l ∧ h1 !! l = Some (ODict entries) ∧
                   h !! l = Some (ODict entries)) ∨
     environment_extended h1 h env_values d).

(** The lists that [set_command] creates: an empty one first when the
    entry has no command yet, then the command itself. *)
Definition command_lists (h : heap) (entries : gmap string pyval) : list pyobj :=
  if truthy h (default VNone (entries !! "command"))
  then [OList flow_command]
  else [OList []; OList flow_command].

Definition command_address (h : heap) (entries : gmap string pyval) : loc :=
  if truthy h (default VNone (entries !! "command"))
  then length h
  else S (length h).

(** The first container entry as [setup] leaves it. *)
Definition is_flow_container (h : heap) (flow : Flow) (d : pyval) : Prop :=
  ∃ l entries lcmd,
    d = VRef l ∧ h !! l = Some (ODict entries) ∧
    entries !! "name" = Some (VStr flow_container) ∧
    entries !! "image" = Some (VStr (get_flow_image flow)) ∧
    entries !! "command" = Some (VRef lcmd) ∧
    h !! lcmd = Some (OList flow_command).

(** The items of [env_values] when [setup] starts on the store [h]: the
    dicts of the standard variables are the first objects it creates. *)
Definition standard_variables (h : heap) : list pyval :=
  VRef <$> seq (length h) (length env_values_displays).

(** What the three blocks after the loop do to the store, [l0] being the
    address of the first container entry. *)
Definition first_container_effect (flow : Flow) (l0 : loc) (h : heap) : heap :=
  match h !! l0 with
  | Some (ODict entries) =>
      let entries' :=
        <["image" := VStr (get_flow_image flow)]>
          (<["name" := VStr flow_container]> entries) in
      let h' := <[l0 := ODict entries']> h in
      <[l0 := ODict (<["command" := VRef (command_address h' entries')]> entries')]> h
        ++ command_lists h' entries'
  | _ => h
  end.

(** The argument of the describe request. *)
Definition family_of (me : FargateTaskEnvironment) : pyval :=
  default VNone (task_definition_kwargs me !! "family").

(** What [setup] does when the definition is absent: it leaves the
    instance [me'] and the store [h'], having sent the describe request
    and then one registration with the definition mapping of [me'].  The
    mapping binds [containerDefinitions] to a list of entries, the given
    ones when there were any and one new entry otherwise; the first is
    the flow container, and the environment list of each ends with the
    standard variables. *)
Definition definition_registered (boto3_client : client_factory) (flow : Flow)
    (s : state) (outcome : result unit * state) : Prop :=
  let cds := default VNone (task_definition_kwargs (self s) !! "containerDefinitions") in
  let boto3_c := client_of boto3_client (self s) in
  ∃ lc l0 rest s',
    let kwargs := task_definition_kwargs (self s') in
    outcome =
      (match register_task_definition boto3_c kwargs (store s') with
       | None => Returned ()
       | Some e => Raised e
       end, s') ∧
    self s' =
      set_task_definition_kwargs
        (<["containerDefinitions" := VRef lc]> (task_definition_kwargs (self s)))
        (self s) ∧
    calls s' =
      calls s ++ [DescribeTaskDefinition (family_of (self s));
                  RegisterTaskDefinition kwargs (store s')] ∧
    store s' !! lc = Some (OList (VRef l0 :: rest)) ∧
    (truthy (store s) cds = true →
       cds = VRef lc ∧ store s !! lc = Some (OList (VRef l0 :: rest))) ∧
    (truthy (store s) cds = false → rest = []) ∧
    is_flow_container (store s') flow (VRef l0) ∧
    Forall (environment_extended (store s) (store s') (standard_variables (store s)))
      (VRef l0 :: rest) ∧
    Forall2 (points_to_dict (store s')) (standard_variables (store s))
      env_values_displays.

(** [setup] called once for each of [invocations], in order, each a call
    of its own (what a call returns or raises is left to its caller). *)
Fixpoint setups (fuel : nat) (invocations : list (client_factory * Flow)) (s : state)
    : state :=
  match invocations with
  | [] => s
  | (boto3_client, flow) :: invocations' =>
      setups fuel invocations' (setup fuel boto3_client flow s).2
  end.

(** Every one of these calls takes the branch of the absent definition:
    its describe request raises a [ClientError]. *)
Fixpoint all_absent (fuel : nat) (invocations : list (client_factory * Flow))
    (s : state) : bool :=
  match invocations with
  | [] => true
  | (boto3_client, flow) :: invocations' =>
      match describe_task_definition (client_of boto3_client (self s))
              (family_of (self s)) (store s) with
      | Some e =>
          is_ClientError e &&
          all_absent fuel invocations' (setup fuel boto3_client flow s).2
      | None => false
      end
  end.

(** From the store [h] to the store [h']: the environment list of the
    container entry [d] holds what it held, then [n] times the standard
    variables; a list that was not empty is the same object still. *)
Definition environment_grown (h h' : heap) (n : nat) (d : pyval) : Prop :=
  ∃ new,
    environment_of h' d = environment_of h d ++ new ∧
    Forall2 (points_to_dict h') new (concat (replicate n env_values_displays)) ∧
    (∀ e, environment_list h d = Some e → environment_list h' d = Some e).

(** What [n] calls of [setup] in a row, each finding the definition
    absent, make of the state [s]: the definition mapping binds
    [containerDefinitions] to a list (the given one, when it was not
    falsy) whose every entry has its environment grown [n] times. *)
Definition environments_extended (s s' : state) (n : nat) : Prop :=
  let cds := default VNone (task_definition_kwargs (self s) !! "containerDefinitions") in
  ∃ lc ds,
    task_definition_kwargs (self s') !! "containerDefinitions" = Some (VRef lc) ∧
    store s' !! lc = Some (OList ds) ∧ ds ≠ [] ∧
    (truthy (store s) cds = true → cds = VRef lc ∧ store s !! lc = Some (OList ds)) ∧
    Forall (environment_grown (store s) (store s') n) ds.

(** ** What [setup] keeps, whatever it is given *)

(** The keys under which [setup] writes in a dict. *)
Definition written_keys : list string :=
  [ "environment"; "name"; "image"; "command" ].

(** From the instance [me] to [me']: nothing but the definition mapping
    differs, and that one under [containerDefinitions] at most. *)
Definition instance_kept (me me' : FargateTaskEnvironment) : Prop :=
  ∃ kwargs,
    me' = set_task_definition_kwargs kwargs me ∧
    ∀ key, key ≠ "containerDefinitions" →
           kwargs !! key = task_definition_kwargs me !! key.

(** From the store [h] to [h']: every object is still there, a list
    with what it held in front, a dict with what it held under every key
    that is not one of [written_keys]. *)
Definition store_kept (h h' : heap) : Prop :=
  (length h ≤ length h')%nat ∧
  (∀ l items, h !! l = Some (OList items) →
     ∃ more, h' !! l = Some (OList (items ++ more))) ∧
  (∀ l entries, h !! l = Some (ODict entries) →
     ∃ entries', h' !! l = Some (ODict entries') ∧
       ∀ key, key ∉ written_keys → entries' !! key = entries !! key).

(** A step of the synthesis: it keeps instance and store in this sense
    and sends nothing. *)
Definition synthesis_step {A} (m : M A) : Prop :=
  ∀ s, instance_kept (self s) (self (m s).2) ∧
       store_kept (store s) (store (m s).2) ∧
       calls (m s).2 = calls s.

(** The list at [l] is not empty and some dict of the store has it
    under ["environment"]. *)
Definition environment_somewhere (h : heap) (l : loc) : Prop :=
  ∃ d entries x items,
    h !! d = Some (ODict entries) ∧
    entries !! "environment" = Some (VRef l) ∧
    h !! l = Some (OList (x :: items)).

(** From the store [h0] to [h]: a list of [h0] is as it was, unless it
    is the environment of some dict. *)
Definition other_lists_kept (h0 h : heap) : Prop :=
  (length h0 ≤ length h)%nat ∧
  ∀ l items, h0 !! l = Some (OList items) →
             h !! l = Some (OList items) ∨ environment_somewhere h l.

(** A step that keeps the lists of [h0] in this sense. *)
Definition keeps_other_lists {A} (h0 : heap) (m : M A) : Prop :=
  ∀ s, other_lists_kept h0 (store s) → other_lists_kept h0 (store (m s).2).

(** The dict at [l] is an entry of the list that the definition mapping
    has under [containerDefinitions]. *)
Definition container_entry (s : state) (l : loc) : Prop :=
  ∃ lc items,
    task_definition_kwargs (self s) !! "containerDefinitions" = Some (VRef lc) ∧
    store s !! lc = Some (OList items) ∧
    VRef l ∈ items.

(** From the store [h0] to the state [s]: a dict of [h0] is as it was,
    unless it is a container entry. *)
Definition other_dicts_kept (h0 : heap) (s : state) : Prop :=
  (length h0 ≤ length (store s))%nat ∧
  ∀ l entries, h0 !! l = Some (ODict entries) →
               store s !! l = Some (ODict entries) ∨ container_entry s l.

(** A step that keeps the dicts of [h0] in this sense. *)
Definition keeps_other_dicts {A} (h0 : heap) (m : M A) : Prop :=
  ∀ s, other_dicts_kept h0 s → other_dicts_kept h0 (m s).2.

(** ** Configurations on which [setup] raises *)

(** A truthy value that is no list: a truthy scalar, or a dict that is
    not empty. *)
Definition truthy_not_a_list (h : heap) (v : pyval) : bool :=
  match v with
  | VRef e =>
      match h !! e with
      | Some (ODict entries) => negb (bool_decide (entries = ∅))
      | _ => false
      end
  | _ => truthy h v
  end.

(** What the body of the loop over the containers raises on a malformed
    entry [d]: an entry that is no dict has no [get]; the environment of
    an entry, when it is truthy and no list, has no [extend]. *)
Definition entry_error (h : heap) (d : pyval) : option exn :=
  match d with
  | VRef l =>
      match h !! l with
      | Some (ODict entries) =>
          if truthy_not_a_list h (default VNone (entries !! "environment"))
          then Some (AttributeError "extend")
          else None
      | Some (OList _) => Some (AttributeError "get")
      | None => None
      end
  | _ => Some (AttributeError "get")
  end.

(** What the loop raises at once on a truthy value of
    [containerDefinitions] that is no list: a number or [True] cannot be
    iterated, and what a string or a dict yields (characters, keys) has no
    [get]. *)
Definition container_definitions_error (h : heap) (cds : pyval) : option exn :=
  match cds with
  | VNone => None
  | VBool b => if b then Some (TypeError "object is not iterable") else None
  | VInt z => if (z =? 0)%Z then None else Some (TypeError "object is not iterable")
  | VStr s => if String.eqb s "" then None else Some (AttributeError "get")
  | VRef lc =>
      match h !! lc with
      | Some (ODict entries) =>
          if bool_decide (entries = ∅) then None else Some (AttributeError "get")
      | _ => None
      end
  end.

(** ** The container [setup] builds when none is given *)

(** The objects [setup] creates on the store [h] when the definition is
    absent and [containerDefinitions] is falsy: the dicts of the standard
    variables, the container list, its one entry, the environment list of
    the entry, and the two lists bound to [command] one after the
    other. *)
Definition default_container_objects (flow : Flow) (h : heap) : list pyobj :=
  let n := length h in
  (ODict <$> env_values_displays) ++
  [ OList [VRef (n + 7)];
    ODict (<["command" := VRef (n + 10)]>
             (<["image" := VStr (get_flow_image flow)]>
                (<["name" := VStr flow_container]>
                   (<["environment" := VRef (n + 8)]> ∅))));
    OList (standard_variables h);
    OList [];
    OList flow_command ].

(** * Theorems *)

(** ** Partitioning *)

Lemma collect_kwargs_lookup allowed (user_kwargs : gmap string pyval) key :
  collect_kwargs allowed user_kwargs !! key =
  if bool_decide (key ∈ allowed) then user_kwargs !! key else None.
Proof.
  unfold collect_kwargs.
  apply (map_fold_weak_ind (λ (r m : gmap string pyval),
    r !! key = if bool_decide (key ∈ allowed) then m !! key else None)).
  - rewrite lookup_empty. by case_bool_decide.
  - intros i x m r Hfresh IH.
    destruct (decide (i = key)) as [->|Hne].
    + case_bool_decide; rewrite ?lookup_insert_eq; done.
    + rewrite (lookup_insert_ne m) by done.
      destruct (bool_decide (i ∈ allowed)); [by rewrite lookup_insert_ne|done].
Qed.

(** C1.  [_parse_kwargs] routes every option by its name alone: the
    definition mapping holds exactly the given options whose key is in
    [definition_kwarg_list], the run mapping exactly those whose key is
    in [run_kwarg_list], each with its given value; [tags] and
    [placementConstraints] go to both mappings; an option in neither
    list is in neither mapping, and the function is total (nothing is
    raised for such a key). *)
Theorem parse_kwargs_partition (user_kwargs : gmap string pyval) :
  let (task_definition_kwargs, task_run_kwargs) := _parse_kwargs user_kwargs in
  (∀ key, task_definition_kwargs !! key =
          if bool_decide (key ∈ definition_kwarg_list)
          then user_kwargs !! key else None) ∧
  (∀ key, task_run_kwargs !! key =
          if bool_decide (key ∈ run_kwarg_list)
          then user_kwargs !! key else None) ∧
  (∀ key, key = "tags" ∨ key = "placementConstraints" →
          task_definition_kwargs !! key = user_kwargs !! key ∧
          task_run_kwargs !! key = user_kwargs !! key) ∧
  (∀ key, key ∉ definition_kwarg_list → key ∉ run_kwarg_list →
          task_definition_kwargs !! key = None ∧
          task_run_kwargs !! key = None).
Proof.
  cbn. repeat split.
  - intros key. apply collect_kwargs_lookup.
  - intros key. apply collect_kwargs_lookup.
  - rewrite collect_kwargs_lookup. by destruct H as [-> | ->].
  - rewrite collect_kwargs_lookup. by destruct H as [-> | ->].
  - rewrite collect_kwargs_lookup. by rewrite bool_decide_eq_false_2.
  - rewrite collect_kwargs_lookup. by rewrite bool_decide_eq_false_2.
Qed.

(** ** Construction *)


(** The keyword arguments handed to the default executor class. *)
Lemma init_default_executor environ h a :
  arg_executor a = ArgValue VNone →
  ∀ kwargs,
    (if truthy h (arg_executor_kwargs a)
     then unpack_mapping h (arg_executor_kwargs a) else inr ∅) = inr kwargs →
    (__init__ environ h a).2 =
      match get_default_executor_class kwargs with
      | inl e => Raised e
      | inr e =>
          Returned
            {| launch_type := arg_launch_type a;
               aws_access_key_id :=
                 py_or h (arg_aws_access_key_id a) (os_getenv environ "AWS_ACCESS_KEY_ID");
               aws_secret_access_key :=
                 py_or h (arg_aws_secret_access_key a)
                   (os_getenv environ "AWS_SECRET_ACCESS_KEY");
               aws_session_token :=
                 py_or h (arg_aws_session_token a) (os_getenv environ "AWS_SESSION_TOKEN");
               region_name := py_or h (arg_region_name a) (os_getenv environ "REGION_NAME");
               task_definition_kwargs := (_parse_kwargs (arg_kwargs a)).1;
               task_run_kwargs := (_parse_kwargs (arg_kwargs a)).2;
               executor := e;
               labels := arg_labels a;
               on_start := arg_on_start a;
               on_exit := arg_on_exit a;
               metadata := arg_metadata a |}
      end.
Proof.
  intros Hex kwargs Hkw. unfold __init__. rewrite Hex. cbn. rewrite Hkw.
  by destruct (get_default_executor_class kwargs).
Qed.

(** C10.  With [executor] absent, the entries of the [executor_kwargs]
    dict are the keyword arguments given to the default executor class
    (no arguments when [executor_kwargs] is [None]): the instance holds
    the executor built from them, and construction raises what that
    constructor raises. *)
Theorem init_forwards_executor_kwargs environ h a :
  arg_executor a = ArgValue VNone →
  (∀ l entries,
     arg_executor_kwargs a = VRef l → h !! l = Some (ODict entries) →
     match get_default_executor_class entries with
     | inl e => (__init__ environ h a).2 = Raised e
     | inr e => ∃ me, (__init__ environ h a).2 = Returned me ∧ executor me = e
     end) ∧
  (arg_executor_kwargs a = VNone →
     match get_default_executor_class ∅ with
     | inl e => (__init__ environ h a).2 = Raised e
     | inr e => ∃ me, (__init__ environ h a).2 = Returned me ∧ executor me = e
     end).
Proof.
  intros Hex. split.
  - intros l entries Hkw Hl.
    assert ((if truthy h (arg_executor_kwargs a)
             then unpack_mapping h (arg_executor_kwargs a) else inr ∅) = inr entries)
      as Hargs.
    { rewrite Hkw. cbn. rewrite Hl. case_bool_decide; cbn; congruence. }
    rewrite (init_default_executor environ h a Hex entries Hargs).
    destruct (get_default_executor_class entries); eauto.
  - intros Hkw.
    assert ((if truthy h (arg_executor_kwargs a)
             then unpack_mapping h (arg_executor_kwargs a) else inr ∅) = inr ∅)
      as Hargs by (by rewrite Hkw).
    rewrite (init_default_executor environ h a Hex ∅ Hargs).
    destruct (get_default_executor_class ∅); eauto.
Qed.


(** C8.  Each credential and the region fall back on truthiness: when
    the argument is falsy (the empty string as much as [None]), the
    stored attribute is what [os.getenv] returns for its variable. *)
Theorem init_credentials_fallback environ h a me :
  (__init__ environ h a).2 = Returned me →
  (truthy h (arg_aws_access_key_id a) = false →
     aws_access_key_id me = os_getenv environ "AWS_ACCESS_KEY_ID") ∧
  (truthy h (arg_aws_secret_access_key a) = false →
     aws_secret_access_key me = os_getenv environ "AWS_SECRET_ACCESS_KEY") ∧
  (truthy h (arg_aws_session_token a) = false →
     aws_session_token me = os_getenv environ "AWS_SESSION_TOKEN") ∧
  (truthy h (arg_region_name a) = false →
     region_name me = os_getenv environ "REGION_NAME").
Proof.
  intros Hinit. unfold __init__ in Hinit. cbn in Hinit.
  repeat case_match; simplify_eq/=;
    repeat split; intros Hfalsy; unfold py_or; by rewrite Hfalsy.
Qed.

(** ** The existence check of [setup] *)

Lemma run_setup fuel boto3_client flow s :
  setup fuel boto3_client flow s =
    let boto3_c := client_of boto3_client (self s) in
    let s' := record_call (DescribeTaskDefinition (family_of (self s))) s in
    match describe_task_definition boto3_c (family_of (self s)) (store s) with
    | None => (Returned (), s')
    | Some e =>
        if is_ClientError e then register_definition fuel boto3_c flow s'
        else (Raised e, s')
    end.
Proof.
  unfold setup, make_client, check_definition_exists, try_except_ClientError,
    definition_kwargs_get, invoke, self_attr, mbind, M_bind, mret, M_ret, family_of.
  cbn. destruct (describe_task_definition _ _ _) as [e|]; [|done].
  by destruct (is_ClientError e).
Qed.

(** C2 (amended).  When the describe request raises [e], [setup] goes on
    with the registration branch exactly when [e] is a [ClientError],
    the class the handler names: every error response of the service,
    whatever its error code.  An exception of any other class is raised
    by [setup] as it is, with the instance and the store untouched and
    the describe request the only one sent. *)
Theorem setup_existence_check_raises fuel boto3_client flow s e :
  describe_task_definition (client_of boto3_client (self s)) (family_of (self s))
    (store s) = Some e →
  setup fuel boto3_client flow s =
    let s' := record_call (DescribeTaskDefinition (family_of (self s))) s in
    if is_ClientError e
    then register_definition fuel (client_of boto3_client (self s)) flow s'
    else (Raised e, s').
Proof. intros Hdescribe. rewrite run_setup. cbn zeta. by rewrite Hdescribe. Qed.

(** C4.  When the describe request returns, [setup] returns without
    sending anything else: the instance (both derived mappings) and the
    store are unchanged, and the describe request is the only one
    recorded. *)
Theorem setup_definition_exists fuel boto3_client flow s :
  describe_task_definition (client_of boto3_client (self s)) (family_of (self s))
    (store s) = None →
  setup fuel boto3_client flow s =
    (Returned (), record_call (DescribeTaskDefinition (family_of (self s))) s).
Proof. intros Hdescribe. rewrite run_setup. cbn zeta. by rewrite Hdescribe. Qed.

(** ** [execute] *)

(** The objects [execute] creates, for a store that holds [n] objects. *)
Definition override_objects (h : heap) (context : gmap string pyval) (flow : Flow)
    : list pyobj :=
  let n := length h in
  [ ODict (name_value "PREFECT__CLOUD__AUTH_TOKEN"
             (py_or h (cloud_agent_auth_token config) (cloud_auth_token config)));
    ODict (name_value "PREFECT__CONTEXT__FLOW_RUN_ID"
             (default (VStr "unknown") (context !! "flow_run_id")));
    ODict (name_value "PREFECT__CONTEXT__IMAGE" (VStr (get_flow_image flow)));
    OList [VRef n; VRef (n + 1); VRef (n + 2)];
    ODict {[ "name" := VStr flow_container; "environment" := VRef (n + 3) ]};
    OList [VRef (n + 4)];
    ODict {[ "containerOverrides" := VRef (n + 5) ]} ].


(** ** The synthesis of the container definitions *)

(** *** The store *)

Lemma lookup_alloc_old (h t : heap) l o :
  h !! l = Some o → (h ++ t) !! l = Some o.
Proof. intros H. rewrite lookup_app_l; [done|]. by eapply lookup_lt_Some. Qed.

Lemma lookup_alloc_new (h t : heap) o :
  (h ++ o :: t) !! length h = Some o.
Proof. by apply list_lookup_middle. Qed.

Lemma lookup_write_other (h : heap) l l' o :
  l ≠ l' → <[l := o]> h !! l' = h !! l'.
Proof. apply list_lookup_insert_ne. Qed.

Lemma lookup_write_same (h : heap) l o o' :
  h !! l = Some o' → <[l := o]> h !! l = Some o.
Proof. intros H. apply list_lookup_insert_eq. by eapply lookup_lt_Some. Qed.

(** *** Running the primitives *)

Abbreviation St me h c := {| self := me; store := h; calls := c |}.

Lemma run_bind {A B} (m : M A) (f : A → M B) s :
  (m ≫= f) s =
    match m s with
    | (Returned a, s') => f a s'
    | (Raised e, s') => (Raised e, s')
    | (OutOfFuel, s') => (OutOfFuel, s')
    end.
Proof. reflexivity. Qed.

Lemma run_meth_get me h c l entries key :
  h !! l = Some (ODict entries) →
  meth_get (VRef l) key (St me h c) = (Returned (default VNone (entries !! key)), St me h c).
Proof. intros H. unfold meth_get, deref, mbind, M_bind. cbn. by rewrite H. Qed.

Lemma run_getitem me h c l entries key x :
  h !! l = Some (ODict entries) → entries !! key = Some x →
  getitem (VRef l) key (St me h c) = (Returned x, St me h c).
Proof. intros H Hx. unfold getitem, deref, mbind, M_bind. cbn. by rewrite H, Hx. Qed.

Lemma run_setitem me h c l entries key x :
  h !! l = Some (ODict entries) →
  setitem (VRef l) key x (St me h c) =
    (Returned (), St me (<[l := ODict (<[key := x]> entries)]> h) c).
Proof. intros H. unfold setitem, deref, mbind, M_bind. cbn. by rewrite H. Qed.

Lemma run_meth_extend me h c l items xs :
  h !! l = Some (OList items) →
  meth_extend (VRef l) xs (St me h c) =
    (Returned (), St me (<[l := OList (items ++ xs)]> h) c).
Proof. intros H. unfold meth_extend, deref, mbind, M_bind. cbn. by rewrite H. Qed.

Lemma run_getitem0 me h c l x items :
  h !! l = Some (OList (x :: items)) →
  getitem0 (VRef l) (St me h c) = (Returned x, St me h c).
Proof. intros H. unfold getitem0, deref, mbind, M_bind. cbn. by rewrite H. Qed.

Lemma run_alloc_dicts displays me h c :
  alloc_dicts displays (St me h c) =
    (Returned (VRef <$> seq (length h) (length displays)),
     St me (h ++ (ODict <$> displays)) c).
Proof.
  revert h. induction displays as [|d displays IH]; intros h.
  - cbn. by rewrite app_nil_r.
  - cbn [alloc_dicts]. rewrite run_bind. cbn [alloc self store calls].
    rewrite run_bind, IH. cbn. rewrite length_app, <- app_assoc. cbn.
    by replace (length h + 1) with (S (length h)) by lia.
Qed.

(** *** One turn of the loop *)

Lemma environment_ok_truthy h lc o :
  environment_ok h lc o = true →
  truthy h (default VNone o) = true →
  ∃ e x items, o = Some (VRef e) ∧ h !! e = Some (OList (x :: items)) ∧ e ≠ lc.
Proof.
  intros Hok Ht. destruct o as [v|]; [|done]. cbn in *.
  destruct v as [|b|z|s|e]; cbn in Hok, Ht;
    try (rewrite ?Ht in Hok; done).
  destruct (h !! e) as [[[|x items]|]|] eqn:He; try done.
  exists e, x, items. repeat split; [done|].
  by apply negb_true_iff, bool_decide_eq_false in Hok.
Qed.

Lemma run_add_environment env_values me h c lc d :
  container_ok h lc d = true →
  add_environment env_values d (St me h c) =
    (Returned (), St me (add_environment_effect env_values h d) c).
Proof.
  intros Hok. destruct d as [|?|?|?|l]; try done. cbn in Hok.
  destruct (h !! l) as [[|entries]|] eqn:Hl; try done.
  unfold add_environment. rewrite run_bind, (run_meth_get _ _ _ _ _ _ Hl).
  rewrite run_bind. cbn [py_truthy store].
  unfold add_environment_effect. rewrite Hl.
  destruct (truthy h (default VNone (entries !! "environment"))) eqn:Ht.
  - destruct (environment_ok_truthy _ _ _ Hok Ht) as (e & x & items & Ho & He & Hne).
    rewrite Ho, He. cbn [negb]. rewrite run_bind. cbn [mret M_ret].
    rewrite run_bind, (run_getitem _ _ _ _ _ _ _ Hl Ho).
    by rewrite (run_meth_extend _ _ _ _ _ _ He).
  - cbn [negb]. rewrite run_bind, run_bind. cbn [alloc self store calls].
    assert ((h ++ [OList []]) !! l = Some (ODict entries)) as Hl'
      by by apply lookup_alloc_old.
    rewrite (run_setitem _ _ _ _ _ _ _ Hl').
    set (entries' := <["environment" := VRef (length h)]> entries).
    assert ((<[l := ODict entries']> (h ++ [OList []])) !! l = Some (ODict entries'))
      as Hl'' by by eapply lookup_write_same.
    rewrite run_bind, (run_getitem _ _ _ _ _ _ (VRef (length h)) Hl'').
    2:{ unfold entries'. by rewrite lookup_insert_eq. }
    assert (l < length h) as Hlt by by eapply lookup_lt_Some.
    assert ((<[l := ODict entries']> (h ++ [OList []])) !! length h = Some (OList []))
      as He.
    { rewrite lookup_write_other by lia. apply lookup_alloc_new. }
    rewrite (run_meth_extend _ _ _ _ _ _ He). cbn [app].
    assert (<[length h := OList env_values]> (<[l := ODict entries']> (h ++ [OList []]))
            = <[l := ODict entries']> h ++ [OList env_values]) as Heq.
    { rewrite insert_app_l by done.
      rewrite <- (length_insert h l (ODict entries')) at 1.
      rewrite <- (Nat.add_0_r (length (<[l := _]> h))).
      by rewrite insert_app_r. }
    rewrite Heq.
    destruct (entries !! "environment") as [[|?|?|?|e]|] eqn:Ho; try done.
    destruct (h !! e) as [[[|x items]|]|] eqn:He'; try done.
    cbn in Ht. by rewrite He' in Ht.
Qed.

(** *** The loop keeps the containers well-shaped *)

Lemma lookup_fresh_same (h : heap) l o o' o0 :
  h !! l = Some o0 → (<[l := o]> h ++ [o']) !! l = Some o.
Proof.
  intros H. apply lookup_alloc_old. by eapply lookup_write_same.
Qed.

Lemma lookup_fresh_other (h : heap) l l' o o' o0 :
  h !! l' = Some o0 → l ≠ l' → (<[l := o]> h ++ [o']) !! l' = Some o0.
Proof.
  intros H Hne. apply lookup_alloc_old. by rewrite lookup_write_other.
Qed.

Lemma lookup_fresh_new (h : heap) l o o' :
  (<[l := o]> h ++ [o']) !! length h = Some o'.
Proof.
  rewrite <- (length_insert h l o). apply lookup_alloc_new.
Qed.

Lemma effect_lookup_list env_values h lc d ds :
  container_ok h lc d = true →
  h !! lc = Some (OList ds) →
  add_environment_effect env_values h d !! lc = Some (OList ds).
Proof.
  intros Hok Hlc. destruct d as [|?|?|?|l]; try done. cbn in Hok |- *.
  destruct (h !! l) as [[|entries]|] eqn:Hl; try done.
  assert (l ≠ lc) as Hne by congruence.
  assert (∀ o, (<[l := o]> h ++ [OList env_values]) !! lc = Some (OList ds)) as Hfresh.
  { intros o. by eapply lookup_fresh_other. }
  destruct (entries !! "environment") as [[|?|?|?|e]|] eqn:Ho; try apply Hfresh.
  cbn in Hok. destruct (h !! e) as [[[|x items]|]|] eqn:He; try apply Hfresh.
  apply negb_true_iff, bool_decide_eq_false in Hok.
  by rewrite lookup_write_other.
Qed.

Lemma effect_container_ok env_values h lc d d' :
  lc < length h →
  container_ok h lc d = true →
  container_ok h lc d' = true →
  container_ok (add_environment_effect env_values h d) lc d' = true.
Proof.
  intros Hlc Hok Hok'.
  destruct d as [|?|?|?|l]; try done. cbn in Hok.
  destruct (h !! l) as [[|entries]|] eqn:Hl; try done.
  destruct d' as [|?|?|?|l']; try done. cbn in Hok'.
  destruct (h !! l') as [[|entries']|] eqn:Hl'; try done.
  unfold add_environment_effect. rewrite Hl.
  set (fresh := <[l := ODict (<["environment" := VRef (length h)]> entries)]> h
                ++ [OList env_values]).
  assert (container_ok fresh lc (VRef l') = true) as Hfresh.
  { unfold container_ok, fresh. destruct (decide (l = l')) as [->|Hne].
    - rewrite (lookup_fresh_same _ _ _ _ _ Hl'), lookup_insert_eq.
      cbn. rewrite lookup_fresh_new.
      apply negb_true_iff, bool_decide_eq_false. lia.
    - rewrite (lookup_fresh_other _ _ _ _ _ _ Hl' Hne).
      destruct (entries' !! "environment") as [[|?|?|?|e']|] eqn:Ho'; try done.
      cbn in Hok' |- *.
      destruct (h !! e') as [[items'|]|] eqn:He'; try done.
      assert (l ≠ e') as Hne' by congruence.
      by rewrite (lookup_fresh_other _ _ _ _ _ _ He' Hne'). }
  destruct (entries !! "environment") as [[|?|?|?|e]|] eqn:Ho; try apply Hfresh.
  destruct (h !! e) as [[[|x items]|]|] eqn:He; try apply Hfresh.
  unfold container_ok.
  assert (e ≠ l') as Hne by congruence.
  rewrite lookup_write_other, Hl' by done.
  destruct (entries' !! "environment") as [[|?|?|?|e']|] eqn:Ho'; try done.
  cbn in Hok' |- *.
  destruct (decide (e = e')) as [<-|Hne'].
  - rewrite (lookup_write_same _ _ _ _ He). by rewrite He in Hok'.
  - by rewrite lookup_write_other.
Qed.

Lemma effect_length env_values (h : heap) d :
  (length h ≤ length (add_environment_effect env_values h d))%nat.
Proof.
  unfold add_environment_effect.
  repeat case_match; rewrite ?length_app, ?length_insert; lia.
Qed.

Lemma effect_typed env_values h lc ds d :
  typed h lc ds →
  container_ok h lc d = true →
  typed (add_environment_effect env_values h d) lc ds.
Proof.
  intros [Hlc Hds] Hok. split.
  - by apply effect_lookup_list.
  - eapply Forall_impl; [exact Hds|]. intros d' Hok'. cbn beta in *.
    apply effect_container_ok; [by eapply lookup_lt_Some|done..].
Qed.

Lemma foldl_effect_typed env_values lc ds rest :
  ∀ h, typed h lc ds → rest ⊆ ds →
       typed (foldl (add_environment_effect env_values) h rest) lc ds.
Proof.
  induction rest as [|d rest IH]; intros h Ht Hsub; [done|].
  cbn. apply IH; [|set_solver].
  apply effect_typed; [done|].
  destruct Ht as [_ Hds]. rewrite Forall_forall in Hds. apply Hds. set_solver.
Qed.

(** *** The loop as a fold *)

Lemma run_for_in_list env_values lc ds rest :
  ∀ pre fuel me h c,
    ds = pre ++ rest → typed h lc ds → length rest < fuel →
    for_in_list fuel lc (length pre) (add_environment env_values) (St me h c) =
      (Returned (), St me (foldl (add_environment_effect env_values) h rest) c).
Proof.
  induction rest as [|d rest IH]; intros pre fuel me h c Hds Ht Hfuel.
  - destruct fuel as [|fuel]; [cbn in Hfuel; lia|].
    cbn [for_in_list]. rewrite run_bind. cbn [deref store].
    destruct Ht as [-> _]. rewrite Hds, app_nil_r.
    by rewrite lookup_ge_None_2.
  - destruct fuel as [|fuel]; [cbn in Hfuel; lia|].
    cbn [for_in_list]. rewrite run_bind. cbn [deref store].
    pose proof Ht as [Hlc Hok]. rewrite Hlc, Hds.
    rewrite list_lookup_middle by done.
    assert (container_ok h lc d = true) as Hd.
    { rewrite Forall_forall in Hok. apply Hok. rewrite Hds. set_solver. }
    rewrite run_bind, (run_add_environment _ _ _ _ lc _ Hd).
    replace (S (length pre)) with (length (pre ++ [d]))
      by (rewrite length_app; cbn; lia).
    rewrite (IH (pre ++ [d])); [done| |by apply effect_typed|cbn in Hfuel; lia].
    by rewrite <- app_assoc.
Qed.

(** *** What the loop does to each container *)

Lemma effect_cases env_values h lc d :
  container_ok h lc d = true →
  (∃ l entries e x items,
     d = VRef l ∧ h !! l = Some (ODict entries) ∧
     entries !! "environment" = Some (VRef e) ∧
     h !! e = Some (OList (x :: items)) ∧ e ≠ lc ∧
     add_environment_effect env_values h d =
       <[e := OList ((x :: items) ++ env_values)]> h) ∨
  (∃ l entries,
     d = VRef l ∧ h !! l = Some (ODict entries) ∧
     environment_of h d = [] ∧ environment_list h d = None ∧
     add_environment_effect env_values h d =
       <[l := ODict (<["environment" := VRef (length h)]> entries)]> h
         ++ [OList env_values]).
Proof.
  intros Hok. destruct d as [|?|?|?|l]; try done. cbn in Hok.
  unfold add_environment_effect, environment_of, environment_list.
  destruct (h !! l) as [[|entries]|] eqn:Hl; try done.
  destruct (entries !! "environment") as [[|?|?|?|e]|] eqn:Ho;
    try (right; by exists l, entries).
  cbn in Hok.
  destruct (h !! e) as [[[|x items]|]|] eqn:He; try done.
  - right. by exists l, entries.
  - left. exists l, entries, e, x, items. repeat split; try done.
    by apply negb_true_iff, bool_decide_eq_false in Hok.
Qed.

Lemma effect_extended_preserved h1 env_values h lc d d' :
  container_ok h lc d = true →
  env_values ≠ [] →
  environment_extended h1 h env_values d' →
  environment_extended h1 (add_environment_effect env_values h d) env_values d'.
Proof.
  intros Hok Hne (l' & entries' & e' & mid & -> & Hl' & Ho' & He' & Hplace).
  destruct (effect_cases env_values h lc _ Hok)
    as [(l & entries & e & x & items & -> & Hl & Ho & He & _ & ->)
       |(l & entries & -> & Hl & Hnil & Hnone & ->)].
  - assert (e ≠ l') as Hne' by congruence.
    destruct (decide (e = e')) as [<-|Hne''].
    + exists l', entries', e, (mid ++ env_values).
      repeat split; try done.
      * by rewrite lookup_write_other.
      * rewrite (lookup_write_same _ _ _ _ He). rewrite He in He'.
        injection He' as ->. by rewrite <- !app_assoc.
    + exists l', entries', e', mid. repeat split; try done.
      * by rewrite lookup_write_other.
      * by rewrite lookup_write_other.
  - assert (l ≠ l') as Hne'.
    { intros <-. unfold environment_of in Hnil.
      rewrite Hl in Hl'. injection Hl' as <-. rewrite Hl, Ho', He' in Hnil.
      apply app_eq_nil in Hnil as [_ Hnil]. by apply app_eq_nil in Hnil as [_ ?]. }
    exists l', entries', e', mid. repeat split; try done.
    + by eapply lookup_fresh_other.
    + eapply lookup_fresh_other; [done|congruence].
Qed.

Lemma loop_invariant_start h1 env_values lc ds :
  typed h1 lc ds → loop_invariant h1 env_values ds h1.
Proof.
  intros [_ Hds]. repeat split.
  - intros e items He. exists []. by rewrite app_nil_r.
  - intros l entries Hl. exists entries. by split; [|left].
  - intros d Hd. left. rewrite Forall_forall in Hds. specialize (Hds d Hd).
    destruct d as [|?|?|?|l]; try done. cbn in Hds.
    destruct (h1 !! l) as [[|entries]|] eqn:Hl; try done.
    by exists l, entries.
Qed.

Lemma effect_extends_container h1 env_values h lc ds d :
  typed h1 lc ds → typed h lc ds → env_values ≠ [] →
  loop_invariant h1 env_values ds h →
  d ∈ ds →
  environment_extended h1 (add_environment_effect env_values h d) env_values d.
Proof.
  intros [_ Hds1] [_ Hds] Hne (Hgrow & _ & Hcont) Hd.
  rewrite Forall_forall in Hds, Hds1.
  pose proof (Hds d Hd) as Hok. pose proof (Hds1 d Hd) as Hok1.
  destruct (Hcont d Hd) as [(l0 & entries0 & -> & Hl1 & Hl0)|Hext];
    [|by eapply effect_extended_preserved].
  destruct (effect_cases env_values h lc _ Hok)
    as [(l & entries & e & x & items & [= <-] & Hl & Ho & He & _ & ->)
       |(l & entries & [= <-] & Hl & Hnil & Hnone & ->)];
    rewrite Hl in Hl0; injection Hl0 as <-.
  - cbn in Hok1. rewrite Hl1, Ho in Hok1. cbn in Hok1.
    destruct (h1 !! e) as [[items1|]|] eqn:He1; try done.
    destruct (Hgrow _ _ He1) as [more Hmore].
    rewrite He in Hmore. injection Hmore as Hmore.
    exists l0, entries, e, more. repeat split; try done.
    + rewrite lookup_write_other; [done|congruence].
    + rewrite (lookup_write_same _ _ _ _ He). unfold environment_of.
      rewrite Hl1, Ho, He1, Hmore. by rewrite <- app_assoc.
    + intros e0. unfold environment_list. rewrite Hl1, Ho, He1.
      destruct items1; congruence.
  - exists l0, (<["environment" := VRef (length h)]> entries), (length h), [].
    repeat split.
    + by eapply lookup_fresh_same.
    + by rewrite lookup_insert_eq.
    + rewrite lookup_fresh_new. cbn. do 2 f_equal.
      unfold environment_of in Hnil |- *. rewrite Hl1. rewrite Hl in Hnil.
      destruct (entries !! "environment") as [[|?|?|?|e]|] eqn:Ho; try done.
      destruct (h1 !! e) as [[items1|]|] eqn:He1; try done.
      destruct (Hgrow _ _ He1) as [more Hmore]. rewrite Hmore in Hnil.
      by apply app_eq_nil in Hnil as [-> _].
    + intros e0. unfold environment_list in Hnone |- *.
      rewrite Hl1. rewrite Hl in Hnone.
      destruct (entries !! "environment") as [[|?|?|?|e]|] eqn:Ho; try done.
      destruct (h1 !! e) as [[[|x1 items1]|]|] eqn:He1; try done.
      destruct (Hgrow _ _ He1) as [more Hmore]. by rewrite Hmore in Hnone.
Qed.

Lemma effect_invariant h1 env_values h lc ds d :
  typed h1 lc ds → typed h lc ds → env_values ≠ [] →
  loop_invariant h1 env_values ds h →
  d ∈ ds →
  loop_invariant h1 env_values ds (add_environment_effect env_values h d).
Proof.
  intros Ht1 Ht Hne Hinv Hd.
  pose proof (effect_extends_container _ _ _ _ _ _ Ht1 Ht Hne Hinv Hd) as Hext.
  destruct Hinv as (Hgrow & Hdict & Hcont).
  pose proof Ht as [_ Hds]. rewrite Forall_forall in Hds.
  pose proof (Hds d Hd) as Hok.
  destruct (effect_cases env_values h lc _ Hok)
    as [(l & entries & e & x & items & Heq & Hl & Ho & He & _ & Heff)
       |(l & entries & Heq & Hl & Hnil & Hnone & Heff)].
  - repeat split.
    + intros e1 items1 He1. destruct (Hgrow _ _ He1) as [more Hmore].
      rewrite Heff. destruct (decide (e = e1)) as [<-|Hne1].
      * rewrite (lookup_write_same _ _ _ _ He). rewrite He in Hmore.
        injection Hmore as ->. exists (more ++ env_values).
        by rewrite app_assoc.
      * exists more. by rewrite lookup_write_other.
    + intros l1 entries1 Hl1. destruct (Hdict _ _ Hl1) as (entries' & Hl' & Hrel).
      exists entries'. split; [|done].
      rewrite Heff, lookup_write_other; [done|congruence].
    + intros d' Hd'. destruct (decide (d' = d)) as [->|Hne'];
        [by right|].
      destruct (Hcont d' Hd') as [(l' & entries' & -> & Hl1' & Hl')|Hext'].
      * left. exists l', entries'. repeat split; [done|].
        rewrite Heff, lookup_write_other; [done|congruence].
      * right. by eapply effect_extended_preserved.
  - repeat split.
    + intros e1 items1 He1. destruct (Hgrow _ _ He1) as [more Hmore].
      exists more. rewrite Heff.
      eapply lookup_fresh_other; [done|congruence].
    + intros l1 entries1 Hl1. destruct (Hdict _ _ Hl1) as (entries' & Hl' & Hrel).
      rewrite Heff. destruct (decide (l = l1)) as [<-|Hne1].
      * eexists. split; [by eapply lookup_fresh_same|].
        right. split; [by rewrite <- Heq|].
        rewrite Hl in Hl'. injection Hl' as <-.
        destruct Hrel as [->|(_ & e' & ->)]; eexists; [done|].
        by rewrite insert_insert_eq.
      * exists entries'. split; [|done]. by eapply lookup_fresh_other.
    + intros d' Hd'. destruct (decide (d' = d)) as [->|Hne'];
        [by right|].
      destruct (Hcont d' Hd') as [(l' & entries' & -> & Hl1' & Hl')|Hext'].
      * left. exists l', entries'. repeat split; [done|].
        rewrite Heff. eapply lookup_fresh_other; [done|congruence].
      * right. by eapply effect_extended_preserved.
Qed.

Lemma foldl_effect_invariant h1 env_values lc ds rest :
  typed h1 lc ds → env_values ≠ [] →
  ∀ h, typed h lc ds → loop_invariant h1 env_values ds h → rest ⊆ ds →
       let h' := foldl (add_environment_effect env_values) h rest in
       loop_invariant h1 env_values ds h' ∧
       (∀ d, environment_extended h1 h env_values d →
             environment_extended h1 h' env_values d) ∧
       (∀ d, d ∈ rest → environment_extended h1 h' env_values d).
Proof.
  intros Ht1 Hne. induction rest as [|d rest IH]; intros h Ht Hinv Hsub.
  - cbn. repeat split; [apply Hinv..|done|].
    intros d Hd. by apply elem_of_nil in Hd.
  - assert (d ∈ ds) as Hd by (apply Hsub; left).
    assert (container_ok h lc d = true) as Hok.
    { destruct Ht as [_ Hds]. rewrite Forall_forall in Hds. by apply Hds. }
    destruct (IH (add_environment_effect env_values h d))
      as (Hinv' & Hpres & Hrest).
    { by apply effect_typed. }
    { by eapply effect_invariant. }
    { intros d' Hd'. apply Hsub. by right. }
    cbn. split; [done|]. split.
    + intros d' Hext. apply Hpres. by eapply effect_extended_preserved.
    + intros d' [->|Hd']%elem_of_cons; [|by apply Hrest].
      apply Hpres. by eapply effect_extends_container.
Qed.

(** *** The blocks around the loop *)

Lemma run_definition_kwargs_get me h c key :
  definition_kwargs_get key (St me h c) =
    (Returned (default VNone (task_definition_kwargs me !! key)), St me h c).
Proof. reflexivity. Qed.

Lemma run_definition_kwargs_getitem me h c key x :
  task_definition_kwargs me !! key = Some x →
  definition_kwargs_getitem key (St me h c) = (Returned x, St me h c).
Proof.
  intros H. unfold definition_kwargs_getitem, self_attr, mbind, M_bind. cbn.
  by rewrite H.
Qed.

Lemma run_meth_append me h c l items x :
  h !! l = Some (OList items) →
  meth_append (VRef l) x (St me h c) =
    (Returned (), St me (<[l := OList (items ++ [x])]> h) c).
Proof. intros H. unfold meth_append, deref, mbind, M_bind. cbn. by rewrite H. Qed.

Lemma run_create_container_definitions me h c :
  create_container_definitions (St me h c) =
    (Returned (),
     if truthy h (default VNone (task_definition_kwargs me !! "containerDefinitions"))
     then St me h c
     else St (set_task_definition_kwargs
                (<["containerDefinitions" := VRef (length h)]>
                   (task_definition_kwargs me)) me)
             (h ++ [OList [VRef (S (length h))]; ODict ∅]) c).
Proof.
  unfold create_container_definitions.
  rewrite run_bind, run_definition_kwargs_get, run_bind. cbn [py_truthy store].
  destruct (truthy h _); [done|]. cbn [negb].
  rewrite run_bind. cbn [alloc self store calls].
  rewrite run_bind. cbn [definition_kwargs_setitem self store calls].
  rewrite run_bind.
  rewrite (run_definition_kwargs_getitem _ _ _ _ (VRef (length h)))
    by apply lookup_insert_eq.
  rewrite run_bind. cbn [alloc self store calls].
  rewrite length_app. cbn [length].
  rewrite <- app_assoc. cbn [app].
  rewrite (run_meth_append _ _ _ _ []) by apply lookup_alloc_new.
  cbn [app].
  replace (length h + 1) with (S (length h)) by lia.
  do 2 f_equal.
  rewrite <- (Nat.add_0_r (length h)) at 1. by rewrite insert_app_r.
Qed.

Lemma run_set_environment_variables fuel env_values me h c lc ds :
  task_definition_kwargs me !! "containerDefinitions" = Some (VRef lc) →
  typed h lc ds → length ds < fuel →
  set_environment_variables fuel env_values (St me h c) =
    (Returned (), St me (foldl (add_environment_effect env_values) h ds) c).
Proof.
  intros Hcds Ht Hfuel. unfold set_environment_variables.
  rewrite run_bind, (run_definition_kwargs_getitem _ _ _ _ _ Hcds).
  unfold for_in. rewrite run_bind. cbn [deref store].
  pose proof Ht as [-> _].
  by apply (run_for_in_list env_values lc ds ds []).
Qed.

Section FirstContainer.

Variables (me : FargateTaskEnvironment) (c : list api_call).
Variables (lc l0 : loc) (rest : list pyval).
Hypothesis Hcds : task_definition_kwargs me !! "containerDefinitions" = Some (VRef lc).

Lemma run_first_container h :
  h !! lc = Some (OList (VRef l0 :: rest)) →
  first_container (St me h c) = (Returned (VRef l0), St me h c).
Proof.
  intros Hlc. unfold first_container.
  rewrite run_bind, (run_definition_kwargs_getitem _ _ _ _ _ Hcds).
  by rewrite (run_getitem0 _ _ _ _ _ _ Hlc).
Qed.

Lemma run_first_container_via_get h :
  h !! lc = Some (OList (VRef l0 :: rest)) →
  first_container_via_get (St me h c) = (Returned (VRef l0), St me h c).
Proof.
  intros Hlc. unfold first_container_via_get.
  rewrite run_bind, run_definition_kwargs_get, Hcds. cbn [default].
  by rewrite (run_getitem0 _ _ _ _ _ _ Hlc).
Qed.

Lemma lookup_list_after_write (h : heap) o entries :
  h !! lc = Some (OList (VRef l0 :: rest)) →
  h !! l0 = Some (ODict entries) →
  <[l0 := o]> h !! lc = Some (OList (VRef l0 :: rest)).
Proof. intros Hlc Hl0. rewrite lookup_write_other; [done|congruence]. Qed.

Lemma run_set_name h entries :
  h !! lc = Some (OList (VRef l0 :: rest)) →
  h !! l0 = Some (ODict entries) →
  set_name (St me h c) =
    (Returned (),
     St me (<[l0 := ODict (<["name" := VStr flow_container]> entries)]> h) c).
Proof.
  intros Hlc Hl0. unfold set_name.
  rewrite run_bind, (run_first_container _ Hlc).
  rewrite run_bind, (run_meth_get _ _ _ _ _ _ Hl0).
  rewrite run_bind. cbn [py_truthy store].
  destruct (truthy h _); cbn [negb].
  - rewrite run_bind. cbn [mret M_ret].
    rewrite run_bind, (run_first_container_via_get _ Hlc).
    by rewrite (run_setitem _ _ _ _ _ _ _ Hl0).
  - rewrite run_bind, run_bind, (run_first_container _ Hlc).
    rewrite (run_setitem _ _ _ _ _ _ _ Hl0).
    rewrite run_bind, run_first_container_via_get
      by by eapply lookup_list_after_write.
    erewrite run_setitem by by eapply lookup_write_same.
    by rewrite list_insert_insert_eq, insert_insert_eq.
Qed.

Lemma run_set_image flow h entries :
  h !! lc = Some (OList (VRef l0 :: rest)) →
  h !! l0 = Some (ODict entries) →
  set_image flow (St me h c) =
    (Returned (),
     St me (<[l0 := ODict (<["image" := VStr (get_flow_image flow)]> entries)]> h) c).
Proof.
  intros Hlc Hl0. unfold set_image.
  rewrite run_bind, (run_first_container _ Hlc).
  rewrite run_bind, (run_meth_get _ _ _ _ _ _ Hl0).
  rewrite run_bind. cbn [py_truthy store].
  destruct (truthy h _); cbn [negb].
  - rewrite run_bind. cbn [mret M_ret].
    rewrite run_bind, (run_first_container_via_get _ Hlc).
    by rewrite (run_setitem _ _ _ _ _ _ _ Hl0).
  - rewrite run_bind, run_bind, (run_first_container _ Hlc).
    rewrite (run_setitem _ _ _ _ _ _ _ Hl0).
    rewrite run_bind, run_first_container_via_get
      by by eapply lookup_list_after_write.
    erewrite run_setitem by by eapply lookup_write_same.
    by rewrite list_insert_insert_eq, insert_insert_eq.
Qed.

Lemma run_set_command h entries :
  h !! lc = Some (OList (VRef l0 :: rest)) →
  h !! l0 = Some (ODict entries) →
  set_command (St me h c) =
    (Returned (),
     St me (<[l0 := ODict (<["command" := VRef (command_address h entries)]> entries)]> h
            ++ command_lists h entries) c).
Proof.
  intros Hlc Hl0. unfold set_command, command_lists, command_address.
  assert (l0 < length h) as Hlt by by eapply lookup_lt_Some.
  rewrite run_bind, (run_first_container _ Hlc).
  rewrite run_bind, (run_meth_get _ _ _ _ _ _ Hl0).
  rewrite run_bind. cbn [py_truthy store].
  destruct (truthy h _); cbn [negb].
  - rewrite run_bind. cbn [mret M_ret].
    rewrite run_bind. cbn [alloc self store calls].
    rewrite run_bind, run_first_container_via_get by by apply lookup_alloc_old.
    erewrite run_setitem by by apply lookup_alloc_old.
    by rewrite insert_app_l.
  - rewrite run_bind, run_bind. cbn [alloc self store calls].
    rewrite run_bind, run_first_container by by apply lookup_alloc_old.
    erewrite run_setitem by by apply lookup_alloc_old.
    rewrite run_bind. cbn [alloc self store calls].
    rewrite insert_app_l by done.
    rewrite run_bind, run_first_container_via_get.
    2:{ apply lookup_alloc_old, lookup_alloc_old.
        by eapply lookup_list_after_write. }
    erewrite run_setitem.
    2:{ apply lookup_alloc_old, lookup_alloc_old. by eapply lookup_write_same. }
    rewrite length_app, length_insert. cbn [length].
    rewrite <- app_assoc. cbn [app].
    rewrite insert_app_l by (by rewrite length_insert).
    rewrite list_insert_insert_eq, insert_insert_eq.
    by replace (length h + 1) with (S (length h)) by lia.
Qed.

End FirstContainer.

Lemma run_first_container_blocks flow me h c lc l0 rest entries :
  task_definition_kwargs me !! "containerDefinitions" = Some (VRef lc) →
  h !! lc = Some (OList (VRef l0 :: rest)) →
  h !! l0 = Some (ODict entries) →
  (set_name;; set_image flow;; set_command) (St me h c) =
    (Returned (), St me (first_container_effect flow l0 h) c).
Proof.
  intros Hcds Hlc Hl0. unfold first_container_effect. rewrite Hl0.
  rewrite run_bind, (run_set_name _ _ _ _ _ Hcds _ _ Hlc Hl0).
  rewrite run_bind.
  erewrite (run_set_image _ _ _ _ _ Hcds);
    [|by eapply lookup_list_after_write|by eapply lookup_write_same].
  rewrite list_insert_insert_eq.
  erewrite (run_set_command _ _ _ _ _ Hcds);
    [|by eapply lookup_list_after_write|by eapply lookup_write_same].
  by rewrite list_insert_insert_eq.
Qed.

Lemma first_container_effect_other flow l0 h l o :
  h !! l = Some o → l ≠ l0 → first_container_effect flow l0 h !! l = Some o.
Proof.
  intros Hl Hne. unfold first_container_effect.
  destruct (h !! l0) as [[|entries]|]; try done.
  apply lookup_alloc_old. by rewrite lookup_write_other.
Qed.

Lemma first_container_effect_first flow l0 h entries :
  h !! l0 = Some (ODict entries) →
  ∃ entries',
    first_container_effect flow l0 h !! l0 = Some (ODict entries') ∧
    entries' !! "environment" = entries !! "environment" ∧
    is_flow_container (first_container_effect flow l0 h) flow (VRef l0).
Proof.
  intros Hl0. unfold first_container_effect. rewrite Hl0.
  set (entries2 := <["image" := _]> (<["name" := _]> entries)).
  set (h' := <[l0 := ODict entries2]> h).
  set (entries3 := <["command" := _]> entries2).
  assert ((<[l0 := ODict entries3]> h ++ command_lists h' entries2) !! l0
          = Some (ODict entries3)) as Hfirst.
  { apply lookup_alloc_old. by eapply lookup_write_same. }
  exists entries3. split; [done|]. split.
  { unfold entries3, entries2. by rewrite !lookup_insert_ne by done. }
  exists l0, entries3, (command_address h' entries2).
  repeat split; try done.
  - unfold entries3, entries2.
    rewrite !lookup_insert_ne by done. by rewrite lookup_insert_eq.
  - unfold entries3, entries2.
    rewrite lookup_insert_ne by done. by rewrite lookup_insert_eq.
  - unfold entries3. by rewrite lookup_insert_eq.
  - unfold command_address, command_lists.
    assert (length (<[l0 := ODict entries3]> h) = length h') as Hlen
      by (unfold h'; by rewrite !length_insert).
    destruct (truthy h' _).
    + rewrite <- Hlen. apply lookup_alloc_new.
    + rewrite <- Hlen.
      rewrite (lookup_app_r _ _ (S _)) by lia.
      by replace (S (length (<[l0 := ODict entries3]> h))
                  - length (<[l0 := ODict entries3]> h)) with 1 by lia.
Qed.

Lemma first_container_effect_extended h1 env_values flow l0 h entries d :
  h !! l0 = Some (ODict entries) →
  environment_extended h1 h env_values d →
  environment_extended h1 (first_container_effect flow l0 h) env_values d.
Proof.
  intros Hl0 (l & entries' & e & mid & -> & Hl & Ho & He & Hplace).
  assert (e ≠ l0) as Hne by congruence.
  destruct (decide (l = l0)) as [->|Hne'].
  - destruct (first_container_effect_first flow _ _ _ Hl0)
      as (entries3 & Hfirst & Henv & _).
    exists l0, entries3, e, mid. repeat split; try done.
    + rewrite Henv. congruence.
    + by apply first_container_effect_other.
  - exists l, entries', e, mid. repeat split; try done.
    + by apply first_container_effect_other.
    + by apply first_container_effect_other.
Qed.

(** *** Allocation leaves the shapes as they are *)

Lemma truthy_alloc (h t : heap) v :
  (∀ l, v = VRef l → l < length h) → truthy (h ++ t) v = truthy h v.
Proof.
  intros Hv. destruct v as [|?|?|?|l]; try done. cbn.
  by rewrite lookup_app_l by by apply Hv.
Qed.

Lemma container_ok_alloc (h t : heap) lc d :
  container_ok h lc d = true → container_ok (h ++ t) lc d = true.
Proof.
  destruct d as [|?|?|?|l]; try done. cbn.
  destruct (h !! l) as [[|entries]|] eqn:Hl; try done.
  rewrite (lookup_alloc_old _ _ _ _ Hl).
  destruct (entries !! "environment") as [[|?|?|?|e]|]; try done. cbn.
  destruct (h !! e) as [[items|]|] eqn:He; try done.
  by rewrite (lookup_alloc_old _ _ _ _ He).
Qed.

Lemma environment_of_alloc (h t : heap) lc d :
  container_ok h lc d = true →
  environment_of (h ++ t) d = environment_of h d ∧
  environment_list (h ++ t) d = environment_list h d.
Proof.
  destruct d as [|?|?|?|l]; try done. cbn.
  destruct (h !! l) as [[|entries]|] eqn:Hl; try done.
  rewrite (lookup_alloc_old _ _ _ _ Hl).
  destruct (entries !! "environment") as [[|?|?|?|e]|]; try done. cbn.
  destruct (h !! e) as [[items|]|] eqn:He; try done.
  by rewrite (lookup_alloc_old _ _ _ _ He).
Qed.

Lemma container_ok_valid h lc d :
  container_ok h lc d = true → ∃ l entries, d = VRef l ∧ h !! l = Some (ODict entries).
Proof.
  destruct d as [|?|?|?|l]; try done. cbn.
  destruct (h !! l) as [[|entries]|] eqn:Hl; try done. eauto.
Qed.

Lemma environment_extended_from h0 h1 h env_values d :
  environment_of h0 d = environment_of h1 d →
  environment_list h0 d = environment_list h1 d →
  environment_extended h1 h env_values d →
  environment_extended h0 h env_values d.
Proof.
  intros Hof Hlist (l & entries & e & mid & -> & Hl & Ho & He & Hplace).
  exists l, entries, e, mid. rewrite Hof, Hlist. by repeat split.
Qed.

(** *** The loop on containers that share nothing *)

Lemma environment_list_valid h d e :
  environment_list h d = Some e → ∃ x items, h !! e = Some (OList (x :: items)).
Proof.
  unfold environment_list. intros H.
  repeat case_match; simplify_eq. eauto.
Qed.

Lemma environment_same h h' lc l entries entries' :
  container_ok h lc (VRef l) = true →
  h !! l = Some (ODict entries) →
  h' !! l = Some (ODict entries') →
  entries' !! "environment" = entries !! "environment" →
  (∀ e items, entries !! "environment" = Some (VRef e) →
              h !! e = Some (OList items) → h' !! e = Some (OList items)) →
  environment_of h' (VRef l) = environment_of h (VRef l) ∧
  environment_list h' (VRef l) = environment_list h (VRef l).
Proof.
  intros Hok Hl Hl' Henv Hlists.
  unfold environment_of, environment_list. cbn in Hok.
  rewrite Hl in Hok |- *. rewrite Hl', Henv.
  destruct (entries !! "environment") as [[|?|?|?|e]|] eqn:Ho; try done.
  cbn in Hok. destruct (h !! e) as [[items|]|] eqn:He; try done.
  by rewrite (Hlists e items eq_refl He).
Qed.

Lemma effect_frame_dict env_values h lc d l entries :
  container_ok h lc d = true →
  h !! l = Some (ODict entries) → d ≠ VRef l →
  add_environment_effect env_values h d !! l = Some (ODict entries).
Proof.
  intros Hok Hl Hne.
  destruct (effect_cases env_values h lc _ Hok)
    as [(l0 & entries0 & e & x & items & -> & Hl0 & Ho & He & _ & ->)
       |(l0 & entries0 & -> & Hl0 & _ & _ & ->)].
  - rewrite lookup_write_other; [done|congruence].
  - eapply lookup_fresh_other; [done|congruence].
Qed.

Lemma effect_frame_list env_values h lc d e items :
  container_ok h lc d = true →
  h !! e = Some (OList items) → environment_list h d ≠ Some e →
  add_environment_effect env_values h d !! e = Some (OList items).
Proof.
  intros Hok He Hne.
  destruct (effect_cases env_values h lc _ Hok)
    as [(l0 & entries0 & e0 & x & items0 & -> & Hl0 & Ho & He0 & _ & ->)
       |(l0 & entries0 & -> & Hl0 & _ & _ & ->)].
  - rewrite lookup_write_other; [done|]. intros ->. apply Hne.
    unfold environment_list. by rewrite Hl0, Ho, He0.
  - eapply lookup_fresh_other; [done|congruence].
Qed.

Lemma effect_exact_self env_values h lc d :
  container_ok h lc d = true → env_values ≠ [] →
  environment_of (add_environment_effect env_values h d) d
    = environment_of h d ++ env_values ∧
  ∃ e, environment_list (add_environment_effect env_values h d) d = Some e ∧
       (∀ e0, environment_list h d = Some e0 → e = e0) ∧
       (environment_list h d = None → (length h ≤ e)%nat).
Proof.
  intros Hok Hne.
  destruct (effect_cases env_values h lc _ Hok)
    as [(l & entries & e & x & items & -> & Hl & Ho & He & _ & ->)
       |(l & entries & -> & Hl & Hnil & Hnone & ->)].
  - assert (e ≠ l) as Hne' by congruence.
    unfold environment_of, environment_list.
    rewrite lookup_write_other, Hl, Ho by done.
    rewrite (lookup_write_same _ _ _ _ He), He. cbn.
    split; [done|]. exists e. split; [done|]. split; [congruence|done].
  - rewrite Hnil, Hnone. unfold environment_of, environment_list.
    rewrite (lookup_fresh_same _ _ _ _ _ Hl), lookup_insert_eq, lookup_fresh_new.
    split; [done|]. exists (length h).
    destruct env_values; [done|]. by repeat split.
Qed.

Lemma effect_exact_other env_values h lc d d' :
  container_ok h lc d = true → container_ok h lc d' = true → d' ≠ d →
  (∀ e, environment_list h d = Some e → environment_list h d' ≠ Some e) →
  environment_of (add_environment_effect env_values h d) d' = environment_of h d' ∧
  environment_list (add_environment_effect env_values h d) d' = environment_list h d'.
Proof.
  intros Hok Hok' Hne Hsep.
  destruct (container_ok_valid _ _ _ Hok') as (l' & entries' & -> & Hl').
  eapply environment_same; [done..| |done|].
  - eapply effect_frame_dict; [done..|congruence].
  - intros e items Ho He. eapply effect_frame_list; [done..|].
    intros Hd. apply (Hsep _ Hd).
    destruct (environment_list_valid _ _ _ Hd) as (x & items' & He').
    unfold environment_list. rewrite Hl', Ho, He'. done.
Qed.

Lemma omap_environment_list_ext h h' (ds : list pyval) :
  (∀ d, d ∈ ds → environment_list h' d = environment_list h d) →
  omap (environment_list h') ds = omap (environment_list h) ds.
Proof.
  induction ds as [|d ds IH]; intros Heq; [done|].
  cbn. rewrite (Heq d) by by left.
  rewrite IH; [done|]. intros d' Hd'. apply Heq. by right.
Qed.

Lemma omap_environment_list_cons h d (rest : list pyval) e :
  e ∈ omap (environment_list h) rest → e ∈ omap (environment_list h) (d :: rest).
Proof. cbn. destruct (environment_list h d); [by right|done]. Qed.

Lemma foldl_effect_exact env_values lc ds :
  env_values ≠ [] →
  ∀ rest h,
    typed h lc ds → rest ⊆ ds →
    NoDup rest → NoDup (omap (environment_list h) rest) →
    let h' := foldl (add_environment_effect env_values) h rest in
    (∀ d, d ∈ rest →
       environment_of h' d = environment_of h d ++ env_values ∧
       ∃ e, environment_list h' d = Some e ∧
            (∀ e0, environment_list h d = Some e0 → e = e0) ∧
            (environment_list h d = None → (length h ≤ e)%nat)) ∧
    (∀ l entries, h !! l = Some (ODict entries) → VRef l ∉ rest →
                  h' !! l = Some (ODict entries)) ∧
    (∀ e items, h !! e = Some (OList items) →
                e ∉ omap (environment_list h) rest →
                h' !! e = Some (OList items)) ∧
    NoDup (omap (environment_list h') rest).
Proof.
  intros Hne. induction rest as [|d rest IH]; intros h Ht Hsub Hnd Hsep.
  { cbn. split; [|split; [|split]]; [|done|done|apply NoDup_nil_2].
    intros d Hd. by apply elem_of_nil in Hd. }
  assert (d ∈ ds) as Hd by (apply Hsub; by left).
  assert (rest ⊆ ds) as Hsub' by (intros d' Hd'; apply Hsub; by right).
  pose proof Ht as [_ Hds]. rewrite Forall_forall in Hds.
  pose proof (Hds d Hd) as Hok.
  apply NoDup_cons in Hnd as [Hnotin Hnd].
  set (hd := add_environment_effect env_values h d).
  assert (typed hd lc ds) as Htd by by apply effect_typed.
  assert (length h ≤ length hd)%nat as Hlen by apply effect_length.
  assert (∀ d', d' ∈ rest →
            environment_of hd d' = environment_of h d' ∧
            environment_list hd d' = environment_list h d') as Hother.
  { intros d' Hd'. apply (effect_exact_other env_values h lc d d');
      [done|apply Hds; by apply Hsub'| |].
    - by intros ->.
    - intros e He He'. cbn in Hsep. rewrite He in Hsep.
      apply NoDup_cons in Hsep as [Hsep _]. apply Hsep.
      apply list_elem_of_omap. eauto. }
  assert (omap (environment_list hd) rest = omap (environment_list h) rest) as Homap.
  { apply omap_environment_list_ext. intros d' Hd'. by apply Hother. }
  assert (NoDup (omap (environment_list h) rest)) as Hsep'.
  { cbn in Hsep. destruct (environment_list h d); [|done].
    by apply NoDup_cons in Hsep as [_ ?]. }
  destruct (IH hd Htd Hsub' Hnd) as (Hcont & Hdict & Hlist & Hnodup);
    [by rewrite Homap|].
  destruct (effect_exact_self env_values h lc d Hok Hne)
    as (Hof & e1 & Hl1 & Hsame & Hfresh).
  fold hd in Hof, Hl1.
  set (h' := foldl (add_environment_effect env_values) hd rest) in *.
  destruct (environment_list_valid _ _ _ Hl1) as (x1 & items1 & He1).
  (* the list of the head container belongs to no other container *)
  assert (e1 ∉ omap (environment_list hd) rest) as Hnot1.
  { rewrite Homap. intros Hin.
    destruct (environment_list h d) as [e0|] eqn:Hl0.
    - cbn in Hsep. rewrite Hl0 in Hsep.
      apply NoDup_cons in Hsep as [Hsep _].
      by rewrite (Hsame e0 eq_refl) in Hin.
    - apply list_elem_of_omap in Hin as (d' & _ & Hd').
      destruct (environment_list_valid _ _ _ Hd') as (x & items & He').
      apply lookup_lt_Some in He'. specialize (Hfresh eq_refl). lia. }
  (* so the rest of the loop leaves the head container alone *)
  assert (environment_of h' d = environment_of hd d ∧
          environment_list h' d = environment_list hd d) as [Hof' Hl1'].
  { assert (container_ok hd lc d = true) as Hokd.
    { destruct Htd as [_ Hdsd]. rewrite Forall_forall in Hdsd. by apply Hdsd. }
    destruct (container_ok_valid _ _ _ Hokd) as (l & entries & -> & Hl).
    eapply environment_same; [done..|by apply Hdict|done|].
    intros e items Ho He. apply Hlist; [done|].
    unfold environment_list in Hl1. rewrite Hl, Ho, He in Hl1.
    destruct items; by simplify_eq. }
  cbn zeta. cbn [foldl]. fold hd. fold h'.
  split; [|split; [|split]].
  - intros d' [->|Hd']%elem_of_cons.
    + rewrite Hof', Hof, Hl1'. split; [done|]. by exists e1.
    + destruct (Hcont d' Hd') as (Hofd & e' & Hl' & Hsame' & Hfresh').
      destruct (Hother d' Hd') as [Ho1 Ho2].
      rewrite Hofd, Ho1. split; [done|]. exists e'. rewrite <- Ho2.
      split; [done|]. split; [done|]. intros Hn. specialize (Hfresh' Hn). lia.
  - intros l entries Hl Hnotl. apply Hdict.
    + eapply effect_frame_dict; [done..|]. intros ->. apply Hnotl. by left.
    + intros Hin. apply Hnotl. by right.
  - intros e items He Hnote. apply Hlist.
    + eapply effect_frame_list; [done..|]. intros Hl. apply Hnote.
      cbn. rewrite Hl. by left.
    + rewrite Homap. intros Hin. by apply Hnote, omap_environment_list_cons.
  - cbn. rewrite Hl1', Hl1. apply NoDup_cons. split; [|done].
    intros (d' & Hd' & Hl')%list_elem_of_omap.
    destruct (Hcont d' Hd') as (_ & e' & Hl'' & Hsame' & Hfresh').
    rewrite Hl' in Hl''. injection Hl'' as <-.
    destruct (environment_list hd d') as [e0|] eqn:Hl0.
    + apply Hnot1. apply list_elem_of_omap. exists d'.
      by rewrite (Hsame' e0 eq_refl).
    + specialize (Hfresh' eq_refl). apply lookup_lt_Some in He1. lia.
Qed.

(** *** The blocks after the container list exists *)

Lemma typed_first h lc l0 rest :
  typed h lc (VRef l0 :: rest) → ∃ entries, h !! l0 = Some (ODict entries).
Proof.
  intros [_ Hds]. apply Forall_inv in Hds.
  apply container_ok_valid in Hds as (l & entries & [= <-] & Hl). eauto.
Qed.

Lemma run_container_blocks fuel flow env_values me h1 c lc l0 rest :
  task_definition_kwargs me !! "containerDefinitions" = Some (VRef lc) →
  typed h1 lc (VRef l0 :: rest) →
  length (VRef l0 :: rest) < fuel →
  (set_environment_variables fuel env_values;;
   set_name;; set_image flow;; set_command) (St me h1 c) =
    (Returned (),
     St me (first_container_effect flow l0
              (foldl (add_environment_effect env_values) h1 (VRef l0 :: rest))) c).
Proof.
  intros Hcds Ht1 Hfuel.
  assert (typed (foldl (add_environment_effect env_values) h1 (VRef l0 :: rest))
            lc (VRef l0 :: rest)) as Ht2 by by apply foldl_effect_typed.
  destruct (typed_first _ _ _ _ Ht2) as [entries0 Hl0]. destruct Ht2 as [Hlc2 _].
  rewrite run_bind, (run_set_environment_variables _ _ _ _ _ _ _ Hcds Ht1 Hfuel).
  by eapply run_first_container_blocks.
Qed.

Lemma container_blocks_extended flow env_values h1 lc l0 rest :
  typed h1 lc (VRef l0 :: rest) →
  env_values ≠ [] →
  let hf := first_container_effect flow l0
              (foldl (add_environment_effect env_values) h1 (VRef l0 :: rest)) in
  hf !! lc = Some (OList (VRef l0 :: rest)) ∧
  is_flow_container hf flow (VRef l0) ∧
  Forall (environment_extended h1 hf env_values) (VRef l0 :: rest) ∧
  (∀ l entries, h1 !! l = Some (ODict entries) → VRef l ∉ VRef l0 :: rest →
                hf !! l = Some (ODict entries)).
Proof.
  intros Ht1 Hne.
  set (ds := VRef l0 :: rest) in *.
  set (h2 := foldl (add_environment_effect env_values) h1 ds).
  assert (typed h2 lc ds) as Ht2 by by apply foldl_effect_typed.
  destruct (foldl_effect_invariant h1 env_values lc ds ds Ht1 Hne h1 Ht1
              (loop_invariant_start _ _ _ _ Ht1) (reflexivity _))
    as ((_ & Hdict & _) & _ & Hext).
  fold h2 in Hdict, Hext.
  destruct (typed_first _ _ _ _ Ht2) as [entries0 Hl0].
  destruct Ht2 as [Hlc2 _].
  cbn zeta. split; [|split; [|split]].
  - apply first_container_effect_other; [done|congruence].
  - by destruct (first_container_effect_first flow _ _ _ Hl0) as (? & _ & _ & ?).
  - apply Forall_forall. intros d Hd.
    eapply first_container_effect_extended; [done|]. by apply Hext.
  - intros l entries Hl Hnot.
    destruct (Hdict _ _ Hl) as (entries' & Hl' & [->|[Hin _]]); [|done].
    apply first_container_effect_other; [done|].
    intros ->. apply Hnot. by left.
Qed.

Lemma containers_ok_valid h cds :
  containers_ok h cds = true → ∀ l, cds = VRef l → l < length h.
Proof.
  intros Hok l ->. unfold containers_ok in Hok. cbn in Hok.
  destruct (h !! l) as [o|] eqn:Hl; [by eapply lookup_lt_Some|done].
Qed.

Lemma containers_ok_truthy h cds :
  containers_ok h cds = true → truthy h cds = true →
  ∃ lc l0 rest,
    cds = VRef lc ∧ typed h lc (VRef l0 :: rest) ∧
    item_count h cds = length (VRef l0 :: rest).
Proof.
  intros Hok Ht. unfold containers_ok in Hok. rewrite Ht in Hok. cbn in Hok.
  destruct cds as [|?|?|?|lc]; try done.
  unfold item_count. cbn in Ht.
  destruct (h !! lc) as [[[|d rest]|]|] eqn:Hlc; try done.
  rewrite forallb_forall in Hok.
  assert (container_ok h lc d = true) as Hd by (apply Hok; by left).
  apply container_ok_valid in Hd as (l0 & entries & -> & Hl0).
  exists lc, l0, rest. repeat split; [done|].
  apply Forall_forall. intros d Hd. by apply Hok, list_elem_of_In.
Qed.

Lemma points_to_displays (hf h : heap) displays :
  (∀ i entries, displays !! i = Some entries →
                hf !! (length h + i) = Some (ODict entries)) →
  Forall2 (points_to_dict hf) (VRef <$> seq (length h) (length displays)) displays.
Proof.
  intros Hat. apply Forall2_same_length_lookup. split.
  - by rewrite length_fmap, length_seq.
  - intros i v entries Hv He. rewrite list_lookup_fmap in Hv.
    destruct (seq _ _ !! i) as [l|] eqn:Hl; [|done].
    apply lookup_seq in Hl as [-> _]. injection Hv as <-.
    exists (length h + i). split; [done|]. by apply Hat.
Qed.

Lemma lookup_displays (h t : heap) displays i entries :
  displays !! i = Some entries →
  (h ++ (ODict <$> displays) ++ t) !! (length h + i) = Some (ODict entries).
Proof.
  intros He. rewrite lookup_app_r by lia.
  replace (length h + i - length h) with i by lia.
  rewrite lookup_app_l by (rewrite length_fmap; by eapply lookup_lt_Some).
  by rewrite list_lookup_fmap, He.
Qed.

Lemma set_task_definition_kwargs_id me key x :
  task_definition_kwargs me !! key = Some x →
  set_task_definition_kwargs (<[key := x]> (task_definition_kwargs me)) me = me.
Proof. intros H. rewrite insert_id by done. by destruct me. Qed.

Lemma standard_variables_nonempty h : standard_variables h ≠ [].
Proof. done. Qed.

(** The first two blocks leave a list of container entries in a store
    [h1] that extends [h]: the given list, or a new one with one new,
    empty entry.  The rest of the synthesis runs on it. *)
Lemma run_synthesize_prepare fuel flow me h c :
  let cds := default VNone (task_definition_kwargs me !! "containerDefinitions") in
  containers_ok h cds = true →
  item_count h cds + 1 < fuel →
  ∃ lc l0 rest h1,
    let ds := VRef l0 :: rest in
    synthesize_containers fuel flow (St me h c) =
      (Returned (),
       St (set_task_definition_kwargs
             (<["containerDefinitions" := VRef lc]> (task_definition_kwargs me)) me)
          (first_container_effect flow l0
             (foldl (add_environment_effect (standard_variables h)) h1 ds)) c) ∧
    typed h1 lc ds ∧
    (∀ l o, h !! l = Some o → h1 !! l = Some o) ∧
    (∀ d, d ∈ ds → environment_of h1 d = environment_of h d ∧
                   environment_list h1 d = environment_list h d) ∧
    Forall (λ v, v ∉ ds) (standard_variables h) ∧
    Forall2 (points_to_dict h1) (standard_variables h) env_values_displays ∧
    (truthy h cds = true → cds = VRef lc ∧ h !! lc = Some (OList ds)) ∧
    (truthy h cds = false → rest = []) ∧
    (containers_separate h cds = true →
       NoDup ds ∧ NoDup (omap (environment_list h1) ds)).
Proof.
  intros cds Hok Hfuel.
  set (h0 := h ++ (ODict <$> env_values_displays)).
  assert (truthy h0 cds = truthy h cds) as Htr
    by (apply truthy_alloc; by apply containers_ok_valid).
  assert (length h0 = length h + length env_values_displays) as Hlen
    by (unfold h0; by rewrite length_app, length_fmap).
  unfold synthesize_containers.
  rewrite run_bind, run_alloc_dicts. fold (standard_variables h). fold h0.
  rewrite run_bind, run_create_container_definitions. fold cds. rewrite Htr.
  destruct (truthy h cds) eqn:Ht.
  - destruct (containers_ok_truthy _ _ Hok Ht)
      as (lc & l0 & rest & Hcds & [Hlc Hds] & Hcount).
    assert (task_definition_kwargs me !! "containerDefinitions" = Some (VRef lc))
      as Hkw.
    { unfold cds in Hcds.
      destruct (task_definition_kwargs me !! "containerDefinitions") as [v|];
        cbn in Hcds; [by subst|done]. }
    assert (typed h0 lc (VRef l0 :: rest)) as Ht0.
    { split; [by apply lookup_alloc_old|].
      eapply Forall_impl; [exact Hds|]. intros d. apply container_ok_alloc. }
    rewrite Forall_forall in Hds.
    assert (∀ d, d ∈ VRef l0 :: rest →
              environment_of h0 d = environment_of h d ∧
              environment_list h0 d = environment_list h d) as Henv.
    { intros d Hd. by eapply environment_of_alloc, Hds. }
    exists lc, l0, rest, h0. cbn zeta.
    rewrite (set_task_definition_kwargs_id _ _ _ Hkw).
    split; [|split; [done|split; [|split; [done|split; [|split; [|split;
      [done|split; [done|]]]]]]]].
    + apply (run_container_blocks _ _ _ _ _ _ lc); [done..|]. rewrite <- Hcount. lia.
    + intros l o. apply lookup_alloc_old.
    + apply Forall_forall. intros v [l [-> Hl]]%list_elem_of_fmap Hin.
      apply elem_of_seq in Hl.
      apply Hds, container_ok_valid in Hin as (l' & ? & [= <-] & Hl').
      apply lookup_lt_Some in Hl'. lia.
    + apply points_to_displays. intros i entries Hi.
      unfold h0. rewrite <- (app_nil_r (ODict <$> _)). by apply lookup_displays.
    + intros Hsep. rewrite Hcds in Hsep. cbn in Hsep. rewrite Hlc in Hsep.
      apply andb_true_iff in Hsep as [Hnd Hnd'].
      apply bool_decide_eq_true in Hnd, Hnd'. split; [done|].
      rewrite (omap_environment_list_ext h); [done|]. intros d Hd. by apply Henv.
  - set (me1 := set_task_definition_kwargs _ me).
    set (lc := length h0).
    set (h1 := h0 ++ [OList [VRef (S lc)]; ODict ∅]).
    assert (task_definition_kwargs me1 !! "containerDefinitions" = Some (VRef lc))
      as Hkw by apply lookup_insert_eq.
    assert (h1 !! S lc = Some (ODict ∅)) as Hl0.
    { unfold h1, lc. rewrite lookup_app_r by lia.
      by replace (S (length h0) - length h0) with 1 by lia. }
    assert (typed h1 lc [VRef (S lc)]) as Ht1.
    { split; [apply lookup_alloc_new|].
      apply Forall_singleton. unfold container_ok. by rewrite Hl0. }
    exists lc, (S lc), [], h1. cbn zeta.
    split; [|split; [done|split; [|split; [|split; [|split; [|split;
      [done|split; [done|]]]]]]]].
    + apply (run_container_blocks _ _ _ _ _ _ lc); [done..|]. cbn. lia.
    + intros l o Hl. by apply lookup_alloc_old, lookup_alloc_old.
    + intros d ->%list_elem_of_singleton.
      unfold environment_of, environment_list.
      rewrite Hl0, (lookup_ge_None_2 h); [done|]. unfold lc. lia.
    + apply Forall_forall. intros v [l [-> Hl]]%list_elem_of_fmap Hin.
      apply elem_of_seq in Hl. apply list_elem_of_singleton in Hin.
      injection Hin as ->. unfold lc in Hl. lia.
    + apply points_to_displays. intros i entries Hi.
      unfold h1, h0. rewrite <- app_assoc. by apply lookup_displays.
    + intros _. split; [apply NoDup_singleton|].
      assert (environment_list h1 (VRef (S lc)) = None) as Hnone
        by (unfold environment_list; by rewrite Hl0).
      cbn [omap list_omap]. rewrite Hnone. apply NoDup_nil_2.
Qed.

Lemma Forall2_impl_Forall {A B} (Q : A → Prop) (P P' : A → B → Prop) xs ys :
  Forall Q xs → Forall2 P xs ys → (∀ x y, Q x → P x y → P' x y) →
  Forall2 P' xs ys.
Proof.
  intros HQ HP Himpl. induction HP as [|x y xs ys Hxy HP IH]; [constructor|].
  apply Forall_cons in HQ as [Hx HQ]. constructor; [by apply Himpl|by apply IH].
Qed.

Lemma run_synthesize_containers fuel flow me h c :
  let cds := default VNone (task_definition_kwargs me !! "containerDefinitions") in
  containers_ok h cds = true →
  item_count h cds + 1 < fuel →
  ∃ lc l0 rest hf,
    synthesize_containers fuel flow (St me h c) =
      (Returned (),
       St (set_task_definition_kwargs
             (<["containerDefinitions" := VRef lc]> (task_definition_kwargs me)) me)
          hf c) ∧
    hf !! lc = Some (OList (VRef l0 :: rest)) ∧
    (truthy h cds = true → cds = VRef lc ∧ h !! lc = Some (OList (VRef l0 :: rest))) ∧
    (truthy h cds = false → rest = []) ∧
    is_flow_container hf flow (VRef l0) ∧
    Forall (environment_extended h hf (standard_variables h)) (VRef l0 :: rest) ∧
    Forall2 (points_to_dict hf) (standard_variables h) env_values_displays.
Proof.
  intros cds Hok Hfuel.
  destruct (run_synthesize_prepare fuel flow me h c Hok Hfuel)
    as (lc & l0 & rest & h1 & Hrun & Ht1 & _ & Henv & Hnot & Hstd
        & Htruthy & Hfalsy & _).
  cbn zeta in Hrun, Henv, Hnot. fold cds in Htruthy, Hfalsy.
  destruct (container_blocks_extended flow (standard_variables h) _ _ _ _ Ht1
              (standard_variables_nonempty h))
    as (Hlist & Hflow & Hext & Hframe).
  eexists lc, l0, rest, _. split; [exact Hrun|].
  split; [done|]. split; [done|]. split; [done|]. split; [done|]. split.
  - apply Forall_forall. intros d Hd. rewrite Forall_forall in Hext.
    destruct (Henv d Hd) as [Hof Hl].
    eapply environment_extended_from; [by symmetry..|]. by apply Hext.
  - eapply Forall2_impl_Forall; [exact Hnot|exact Hstd|].
    intros v entries Hv (l & -> & Hl). exists l. split; [done|].
    by apply Hframe.
Qed.


(** *** One call on containers that share nothing *)

Lemma first_container_effect_environment flow l0 h lc entries0 d :
  h !! l0 = Some (ODict entries0) → container_ok h lc d = true →
  environment_of (first_container_effect flow l0 h) d = environment_of h d ∧
  environment_list (first_container_effect flow l0 h) d = environment_list h d.
Proof.
  intros Hl0 Hok.
  destruct (container_ok_valid _ _ _ Hok) as (l & entries & -> & Hl).
  destruct (first_container_effect_first flow _ _ _ Hl0) as (entries' & Hl0' & Henv & _).
  assert (∀ e items, h !! e = Some (OList items) →
            first_container_effect flow l0 h !! e = Some (OList items)) as Hlists.
  { intros e items He. apply first_container_effect_other; [done|congruence]. }
  destruct (decide (l = l0)) as [->|Hne].
  - rewrite Hl0 in Hl. injection Hl as <-.
    eapply environment_same; [done..|]. intros e items _. apply Hlists.
  - eapply environment_same; [done..| |done|].
    + by apply first_container_effect_other.
    + intros e items _. apply Hlists.
Qed.

Lemma first_container_effect_container_ok flow l0 h lc entries0 d :
  h !! l0 = Some (ODict entries0) → container_ok h lc d = true →
  container_ok (first_container_effect flow l0 h) lc d = true.
Proof.
  intros Hl0 Hok.
  destruct (container_ok_valid _ _ _ Hok) as (l & entries & -> & Hl).
  destruct (first_container_effect_first flow _ _ _ Hl0) as (entries' & Hl0' & Henv & _).
  assert (∃ entries1, first_container_effect flow l0 h !! l = Some (ODict entries1) ∧
                      entries1 !! "environment" = entries !! "environment")
    as (entries1 & Hl1 & Henv1).
  { destruct (decide (l = l0)) as [->|Hne].
    - rewrite Hl0 in Hl. injection Hl as <-. eauto.
    - exists entries. split; [|done]. by apply first_container_effect_other. }
  cbn in Hok |- *. rewrite Hl in Hok. rewrite Hl1, Henv1.
  destruct (entries !! "environment") as [[|?|?|?|e]|]; try done.
  cbn in Hok |- *. destruct (h !! e) as [[items|]|] eqn:He; try done.
  rewrite (first_container_effect_other flow l0 h e _ He); [done|congruence].
Qed.

Lemma containers_ok_intro h lc ds :
  h !! lc = Some (OList ds) → Forall (λ d, container_ok h lc d = true) ds →
  containers_ok h (VRef lc) = true.
Proof.
  intros Hlc Hds. unfold containers_ok. rewrite Hlc.
  apply orb_true_iff. right. apply forallb_forall. intros d Hd.
  rewrite Forall_forall in Hds. by apply Hds, list_elem_of_In.
Qed.

Lemma containers_separate_intro h lc ds :
  h !! lc = Some (OList ds) → NoDup ds → NoDup (omap (environment_list h) ds) →
  containers_separate h (VRef lc) = true.
Proof.
  intros Hlc Hnd Hnd'. unfold containers_separate. rewrite Hlc.
  apply andb_true_iff. by split; apply bool_decide_eq_true.
Qed.

Lemma synthesize_separate fuel flow me h c :
  let cds := default VNone (task_definition_kwargs me !! "containerDefinitions") in
  containers_ok h cds = true →
  containers_separate h cds = true →
  item_count h cds + 1 < fuel →
  ∃ lc ds hf,
    synthesize_containers fuel flow (St me h c) =
      (Returned (),
       St (set_task_definition_kwargs
             (<["containerDefinitions" := VRef lc]> (task_definition_kwargs me)) me)
          hf c) ∧
    hf !! lc = Some (OList ds) ∧ ds ≠ [] ∧
    (truthy h cds = true → cds = VRef lc ∧ h !! lc = Some (OList ds)) ∧
    (truthy h cds = false → length ds = 1) ∧
    containers_ok hf (VRef lc) = true ∧
    containers_separate hf (VRef lc) = true ∧
    (∀ l entries, h !! l = Some (ODict entries) → VRef l ∉ ds →
                  hf !! l = Some (ODict entries)) ∧
    Forall (λ d, environment_of hf d = environment_of h d ++ standard_variables h ∧
                 ∀ e, environment_list h d = Some e → environment_list hf d = Some e)
      ds ∧
    Forall2 (points_to_dict hf) (standard_variables h) env_values_displays ∧
    Forall (λ v, v ∉ ds) (standard_variables h).
Proof.
  intros cds Hok Hsep Hfuel.
  destruct (run_synthesize_prepare fuel flow me h c Hok Hfuel)
    as (lc & l0 & rest & h1 & Hrun & Ht1 & Hext & Henv & Hnot & Hstd
        & Htruthy & Hfalsy & Hnodup).
  cbn zeta in Hrun, Henv, Hnot, Hnodup. fold cds in Htruthy, Hfalsy, Hnodup.
  destruct (Hnodup Hsep) as [Hnd Hnd1].
  set (ds := VRef l0 :: rest) in *.
  set (R := standard_variables h) in *.
  set (h2 := foldl (add_environment_effect R) h1 ds) in *.
  destruct (foldl_effect_exact R lc ds (standard_variables_nonempty h) ds h1 Ht1
              (reflexivity _) Hnd Hnd1)
    as (Hcont & Hdict & _ & Hnd2).
  fold h2 in Hcont, Hdict, Hnd2.
  assert (typed h2 lc ds) as Ht2 by by apply foldl_effect_typed.
  destruct (typed_first _ _ _ _ Ht2) as [entries0 Hl0].
  destruct Ht2 as [Hlc2 Hds2]. rewrite Forall_forall in Hds2.
  set (hf := first_container_effect flow l0 h2) in *.
  assert (hf !! lc = Some (OList ds)) as Hlcf
    by (apply first_container_effect_other; [done|congruence]).
  assert (∀ d, d ∈ ds → environment_of hf d = environment_of h2 d ∧
                        environment_list hf d = environment_list h2 d) as Henvf.
  { intros d Hd. eapply first_container_effect_environment; [done|by apply Hds2]. }
  assert (∀ l entries, h1 !! l = Some (ODict entries) → VRef l ∉ ds →
                       hf !! l = Some (ODict entries)) as Hframe.
  { intros l entries Hl Hnotin. apply first_container_effect_other.
    - by apply Hdict.
    - intros ->. apply Hnotin. by left. }
  exists lc, ds, hf. split; [exact Hrun|]. split; [done|]. split; [done|].
  split; [done|]. split; [by intros ->%Hfalsy|].
  split; [|split; [|split; [|split; [|split; [|done]]]]].
  - eapply containers_ok_intro; [done|]. apply Forall_forall. intros d Hd.
    eapply first_container_effect_container_ok; [done|by apply Hds2].
  - eapply containers_separate_intro; [done..|].
    rewrite (omap_environment_list_ext h2); [done|]. intros d Hd. by apply Henvf.
  - intros l entries Hl Hnotin. apply Hframe; [|done]. by apply Hext.
  - apply Forall_forall. intros d Hd.
    destruct (Henvf d Hd) as [-> ->]. destruct (Henv d Hd) as [<- <-].
    destruct (Hcont d Hd) as (-> & e & -> & Hsame & _).
    split; [done|]. intros e0 He0. by rewrite (Hsame e0 He0).
  - eapply Forall2_impl_Forall; [exact Hnot|exact Hstd|].
    intros v entries Hv (l & -> & Hl). exists l. split; [done|].
    by apply Hframe.
Qed.

(** *** Calls in sequence *)

Lemma setup_absent_separate fuel boto3_client flow s e :
  let cds := default VNone (task_definition_kwargs (self s) !! "containerDefinitions") in
  describe_task_definition (client_of boto3_client (self s)) (family_of (self s))
    (store s) = Some e →
  is_ClientError e = true →
  containers_ok (store s) cds = true →
  containers_separate (store s) cds = true →
  item_count (store s) cds + 1 < fuel →
  ∃ lc ds,
    let s' := (setup fuel boto3_client flow s).2 in
    task_definition_kwargs (self s') !! "containerDefinitions" = Some (VRef lc) ∧
    store s' !! lc = Some (OList ds) ∧ ds ≠ [] ∧
    (truthy (store s) cds = true → cds = VRef lc ∧ store s !! lc = Some (OList ds)) ∧
    (truthy (store s) cds = false → length ds = 1) ∧
    containers_ok (store s') (VRef lc) = true ∧
    containers_separate (store s') (VRef lc) = true ∧
    (∀ l entries, store s !! l = Some (ODict entries) → VRef l ∉ ds →
                  store s' !! l = Some (ODict entries)) ∧
    Forall (λ d, environment_of (store s') d
                   = environment_of (store s) d ++ standard_variables (store s) ∧
                 ∀ e, environment_list (store s) d = Some e →
                      environment_list (store s') d = Some e) ds ∧
    Forall2 (points_to_dict (store s')) (standard_variables (store s))
      env_values_displays ∧
    Forall (λ v, v ∉ ds) (standard_variables (store s)).
Proof.
  intros cds Hdescribe Hclass Hok Hsep Hfuel.
  rewrite run_setup. cbn zeta. rewrite Hdescribe, Hclass.
  destruct s as [me h c]. cbn [self store calls] in *.
  destruct (synthesize_separate fuel flow me h
              (c ++ [DescribeTaskDefinition (family_of me)]) Hok Hsep Hfuel)
    as (lc & ds & hf & Hrun & Hrest).
  exists lc, ds.
  unfold register_definition, record_call. cbn [self store calls].
  rewrite run_bind, Hrun. unfold invoke, self_attr, record_call, mbind, M_bind.
  cbn [self store calls fst snd].
  destruct (register_task_definition _ _ _); cbn [snd store self];
    (split; [apply lookup_insert_eq|exact Hrest]).
Qed.

Lemma truthy_list h lc ds :
  h !! lc = Some (OList ds) → ds ≠ [] → truthy h (VRef lc) = true.
Proof.
  intros Hlc Hne. cbn. rewrite Hlc. by rewrite bool_decide_eq_false_2.
Qed.

Lemma setups_separate fuel lc ds invocations :
  ∀ s,
    task_definition_kwargs (self s) !! "containerDefinitions" = Some (VRef lc) →
    store s !! lc = Some (OList ds) → ds ≠ [] →
    containers_ok (store s) (VRef lc) = true →
    containers_separate (store s) (VRef lc) = true →
    length ds + 1 < fuel →
    all_absent fuel invocations s = true →
    let s' := setups fuel invocations s in
    task_definition_kwargs (self s') !! "containerDefinitions" = Some (VRef lc) ∧
    store s' !! lc = Some (OList ds) ∧
    (∀ l entries, store s !! l = Some (ODict entries) → VRef l ∉ ds →
                  store s' !! l = Some (ODict entries)) ∧
    Forall (environment_grown (store s) (store s') (length invocations)) ds.
Proof.
  induction invocations as [|[boto3_client flow] invocations IH];
    intros s Hkw Hlc Hne Hok Hsep Hfuel Habsent.
  { cbn. repeat split; try done. apply Forall_forall. intros d _.
    exists []. rewrite app_nil_r. by repeat split. }
  cbn [all_absent] in Habsent.
  destruct (describe_task_definition _ _ _) as [e|] eqn:Hdescribe; [|done].
  apply andb_true_iff in Habsent as [Hclass Habsent].
  assert (default VNone (task_definition_kwargs (self s) !! "containerDefinitions")
          = VRef lc) as Hcds by by rewrite Hkw.
  pose proof (truthy_list _ _ _ Hlc Hne) as Htruthy.
  destruct (setup_absent_separate fuel boto3_client flow s e Hdescribe Hclass)
    as (lc' & ds' & Hkw1 & Hlc1 & _ & Hsame & _ & Hok1 & Hsep1 & Hframe1 & Henv1
        & Hstd1 & Hnot1).
  { by rewrite Hcds. }
  { by rewrite Hcds. }
  { rewrite Hcds. cbn. rewrite Hlc. lia. }
  cbn zeta in *. rewrite Hcds in Hsame.
  destruct (Hsame Htruthy) as [[= <-] Hlc']. rewrite Hlc in Hlc'.
  injection Hlc' as <-.
  set (s1 := (setup fuel boto3_client flow s).2) in *.
  destruct (IH s1 Hkw1 Hlc1 Hne Hok1 Hsep1 Hfuel Habsent)
    as (Hkw' & Hlc'' & Hframe & Hgrown).
  cbn [setups]. fold s1. cbn zeta.
  split; [done|]. split; [done|]. split.
  { intros l entries Hl Hnotin. apply Hframe; [|done]. by apply Hframe1. }
  rewrite Forall_forall in Hgrown, Henv1. apply Forall_forall. intros d Hd.
  destruct (Hgrown d Hd) as (new & Hof & Hnew & Hplace).
  destruct (Henv1 d Hd) as [Hof1 Hplace1].
  exists (standard_variables (store s) ++ new). split; [|split].
  - by rewrite Hof, Hof1, <- app_assoc.
  - cbn [length replicate concat]. apply Forall2_app; [|done].
    eapply Forall2_impl_Forall; [exact Hnot1|exact Hstd1|].
    intros v entries Hv (l & -> & Hl). exists l. split; [done|].
    by apply Hframe.
  - intros e0 He0. by apply Hplace, Hplace1.
Qed.


(** ** What [setup] keeps, whatever it is given *)

Lemma instance_kept_refl me : instance_kept me me.
Proof. exists (task_definition_kwargs me). split; [by destruct me|done]. Qed.

Lemma instance_kept_trans me1 me2 me3 :
  instance_kept me1 me2 → instance_kept me2 me3 → instance_kept me1 me3.
Proof.
  intros (m & -> & Hm) (m' & -> & Hm'). exists m'. split; [done|].
  intros key Hkey. rewrite (Hm' key Hkey). cbn. by apply Hm.
Qed.

Lemma store_kept_refl h : store_kept h h.
Proof.
  split; [done|]. split.
  - intros l items Hl. exists []. by rewrite app_nil_r.
  - intros l entries Hl. by exists entries.
Qed.

Lemma store_kept_trans h1 h2 h3 :
  store_kept h1 h2 → store_kept h2 h3 → store_kept h1 h3.
Proof.
  intros (Hlen & Hlists & Hdicts) (Hlen' & Hlists' & Hdicts').
  split; [lia|]. split.
  - intros l items Hl. destruct (Hlists _ _ Hl) as [more Hl2].
    destruct (Hlists' _ _ Hl2) as [more' Hl3].
    exists (more ++ more'). by rewrite app_assoc.
  - intros l entries Hl. destruct (Hdicts _ _ Hl) as (entries2 & Hl2 & Hkeys).
    destruct (Hdicts' _ _ Hl2) as (entries3 & Hl3 & Hkeys').
    exists entries3. split; [done|]. intros key Hkey.
    by rewrite Hkeys', Hkeys.
Qed.

Lemma store_kept_alloc h o : store_kept h (h ++ [o]).
Proof.
  split; [rewrite length_app; lia|]. split.
  - intros l items Hl. exists []. rewrite app_nil_r. by apply lookup_alloc_old.
  - intros l entries Hl. exists entries. split; [|done]. by apply lookup_alloc_old.
Qed.

Lemma store_kept_extend h l items more :
  h !! l = Some (OList items) → store_kept h (<[l := OList (items ++ more)]> h).
Proof.
  intros Hl. split; [by rewrite length_insert|]. split.
  - intros l' items' Hl'. destruct (decide (l = l')) as [<-|Hne].
    + rewrite Hl in Hl'. injection Hl' as <-. exists more.
      by eapply lookup_write_same.
    + exists []. rewrite app_nil_r. by rewrite lookup_write_other.
  - intros l' entries Hl'. exists entries. split; [|done].
    rewrite lookup_write_other; [done|congruence].
Qed.

Lemma store_kept_setitem h l entries key x :
  h !! l = Some (ODict entries) → key ∈ written_keys →
  store_kept h (<[l := ODict (<[key := x]> entries)]> h).
Proof.
  intros Hl Hkey. split; [by rewrite length_insert|]. split.
  - intros l' items Hl'. exists []. rewrite app_nil_r.
    rewrite lookup_write_other; [done|congruence].
  - intros l' entries' Hl'. destruct (decide (l = l')) as [<-|Hne].
    + rewrite Hl in Hl'. injection Hl' as <-. eexists.
      split; [by eapply lookup_write_same|].
      intros key' Hkey'. rewrite lookup_insert_ne; [done|]. by intros ->.
    + exists entries'. split; [|done]. by rewrite lookup_write_other.
Qed.

Lemma step_same_state {A} (m : M A) :
  (∀ s, (m s).2 = s) → synthesis_step m.
Proof.
  intros Hm s. rewrite Hm.
  split; [apply instance_kept_refl|]. split; [apply store_kept_refl|done].
Qed.

Lemma step_ret {A} (a : A) : synthesis_step (mret a).
Proof. by apply step_same_state. Qed.

Lemma step_raise {A} e : synthesis_step (raise (A := A) e).
Proof. by apply step_same_state. Qed.

Lemma step_bind {A B} (m : M A) (f : A → M B) :
  synthesis_step m → (∀ a, synthesis_step (f a)) → synthesis_step (m ≫= f).
Proof.
  intros Hm Hf s. specialize (Hm s). rewrite run_bind.
  destruct (m s) as [[a|e|] s1]; cbn [snd] in *; [|done..].
  destruct Hm as (Hme & Hst & Hc). destruct (Hf a s1) as (Hme' & Hst' & Hc').
  split; [by eapply instance_kept_trans|].
  split; [by eapply store_kept_trans|congruence].
Qed.

Lemma step_alloc o : synthesis_step (alloc o).
Proof.
  intros s. cbn. split; [apply instance_kept_refl|].
  split; [apply store_kept_alloc|done].
Qed.

Lemma step_deref v : synthesis_step (deref v).
Proof. by apply step_same_state. Qed.

Lemma step_py_truthy v : synthesis_step (py_truthy v).
Proof. by apply step_same_state. Qed.

Lemma step_self_attr {A} (attribute : FargateTaskEnvironment → A) :
  synthesis_step (self_attr attribute).
Proof. by apply step_same_state. Qed.

Lemma step_meth_get v key : synthesis_step (meth_get v key).
Proof.
  apply step_bind; [apply step_deref|]. intros [[|entries]|];
    first [apply step_ret|apply step_raise].
Qed.

Lemma step_getitem v key : synthesis_step (getitem v key).
Proof.
  apply step_bind; [apply step_deref|]. intros [[|entries]|].
  - apply step_raise.
  - destruct (entries !! key); [apply step_ret|apply step_raise].
  - destruct v; apply step_raise.
Qed.

Lemma step_getitem0 v : synthesis_step (getitem0 v).
Proof.
  apply step_bind; [apply step_deref|]. intros [[items|]|].
  - destruct (items !! 0); [apply step_ret|apply step_raise].
  - apply step_raise.
  - destruct v as [|?|?|[|]|?]; first [apply step_ret|apply step_raise].
Qed.

Lemma step_setitem v key x :
  key ∈ written_keys → synthesis_step (setitem v key x).
Proof.
  intros Hkey s. unfold setitem. rewrite run_bind. cbn [deref].
  destruct v as [|?|?|?|l]; try (by apply step_same_state).
  destruct (store s !! l) as [[items|entries]|] eqn:Hl;
    try (by apply step_same_state).
  cbn. split; [apply instance_kept_refl|].
  split; [by apply store_kept_setitem|done].
Qed.

Lemma step_meth_append v x : synthesis_step (meth_append v x).
Proof.
  intros s. unfold meth_append. rewrite run_bind. cbn [deref].
  destruct v as [|?|?|?|l]; try (by apply step_same_state).
  destruct (store s !! l) as [[items|entries]|] eqn:Hl;
    try (by apply step_same_state).
  cbn. split; [apply instance_kept_refl|].
  split; [by apply store_kept_extend|done].
Qed.

Lemma step_meth_extend v xs : synthesis_step (meth_extend v xs).
Proof.
  intros s. unfold meth_extend. rewrite run_bind. cbn [deref].
  destruct v as [|?|?|?|l]; try (by apply step_same_state).
  destruct (store s !! l) as [[items|entries]|] eqn:Hl;
    try (by apply step_same_state).
  cbn. split; [apply instance_kept_refl|].
  split; [by apply store_kept_extend|done].
Qed.

Lemma step_definition_kwargs_get key : synthesis_step (definition_kwargs_get key).
Proof. by apply step_same_state. Qed.

Lemma step_definition_kwargs_getitem key :
  synthesis_step (definition_kwargs_getitem key).
Proof.
  apply step_bind; [apply step_self_attr|]. intros kwargs.
  destruct (kwargs !! key); [apply step_ret|apply step_raise].
Qed.

Lemma step_definition_kwargs_setitem x :
  synthesis_step (definition_kwargs_setitem "containerDefinitions" x).
Proof.
  intros s. cbn. split; [|split; [apply store_kept_refl|done]].
  eexists. split; [done|]. intros key Hkey. by rewrite lookup_insert_ne.
Qed.

Lemma step_for_in_list fuel l body :
  (∀ x, synthesis_step (body x)) →
  ∀ i, synthesis_step (for_in_list fuel l i body).
Proof.
  intros Hbody. induction fuel as [|fuel IH]; intros i.
  - by apply step_same_state.
  - cbn [for_in_list]. apply step_bind; [apply step_deref|].
    intros [[items|]|]; try apply step_ret.
    destruct (items !! i); [|apply step_ret].
    apply step_bind; [apply Hbody|]. intros _. apply IH.
Qed.

Lemma step_for_each items body :
  (∀ x, synthesis_step (body x)) → synthesis_step (for_each items body).
Proof.
  intros Hbody. induction items as [|x items IH]; [apply step_ret|].
  cbn [for_each]. apply step_bind; [apply Hbody|]. by intros _.
Qed.

Lemma step_for_in fuel v body :
  (∀ x, synthesis_step (body x)) → synthesis_step (for_in fuel v body).
Proof.
  intros Hbody. apply step_bind; [apply step_deref|].
  intros [[items|entries]|]; destruct v;
    first [by apply step_for_in_list|by apply step_for_each|apply step_raise].
Qed.

Lemma step_alloc_dicts displays : synthesis_step (alloc_dicts displays).
Proof.
  induction displays as [|d displays IH]; [apply step_ret|].
  cbn [alloc_dicts]. apply step_bind; [apply step_alloc|]. intros x.
  apply step_bind; [apply IH|]. intros xs. apply step_ret.
Qed.

Lemma step_first_container : synthesis_step first_container.
Proof.
  apply step_bind; [apply step_definition_kwargs_getitem|].
  intros cds. apply step_getitem0.
Qed.

Lemma step_first_container_via_get : synthesis_step first_container_via_get.
Proof.
  apply step_bind; [apply step_definition_kwargs_get|].
  intros cds. apply step_getitem0.
Qed.

Lemma written_environment : "environment" ∈ written_keys.
Proof. by apply (bool_decide_unpack ("environment" ∈ written_keys)). Qed.
Lemma written_name : "name" ∈ written_keys.
Proof. by apply (bool_decide_unpack ("name" ∈ written_keys)). Qed.
Lemma written_image : "image" ∈ written_keys.
Proof. by apply (bool_decide_unpack ("image" ∈ written_keys)). Qed.
Lemma written_command : "command" ∈ written_keys.
Proof. by apply (bool_decide_unpack ("command" ∈ written_keys)). Qed.

Ltac step :=
  repeat first
    [ apply step_ret | apply step_raise | apply step_alloc | apply step_deref
    | apply step_py_truthy | apply step_self_attr | apply step_meth_get
    | apply step_getitem | apply step_getitem0 | apply step_meth_append
    | apply step_meth_extend | apply step_definition_kwargs_get
    | apply step_definition_kwargs_getitem | apply step_definition_kwargs_setitem
    | apply step_alloc_dicts | apply step_first_container
    | apply step_first_container_via_get
    | apply step_setitem;
        first [apply written_environment | apply written_name
              | apply written_image | apply written_command]
    | match goal with
      | |- synthesis_step (if ?b then _ else _) => destruct b
      | |- synthesis_step (_ ≫= _) => apply step_bind; [|intros ?]
      end ].

Lemma step_add_environment env_values definition :
  synthesis_step (add_environment env_values definition).
Proof. unfold add_environment. step. Qed.

Lemma step_create_container_definitions :
  synthesis_step create_container_definitions.
Proof. unfold create_container_definitions. step. Qed.

Lemma step_set_environment_variables fuel env_values :
  synthesis_step (set_environment_variables fuel env_values).
Proof.
  unfold set_environment_variables. step.
  apply step_for_in. intros x. apply step_add_environment.
Qed.

Lemma step_set_name : synthesis_step set_name.
Proof. unfold set_name. step. Qed.

Lemma step_set_image flow : synthesis_step (set_image flow).
Proof. unfold set_image. step. Qed.

Lemma step_set_command : synthesis_step set_command.
Proof. unfold set_command. step. Qed.

Lemma step_synthesize_containers fuel flow :
  synthesis_step (synthesize_containers fuel flow).
Proof.
  unfold synthesize_containers.
  apply step_bind; [apply step_alloc_dicts|]. intros env_values.
  apply step_bind; [apply step_create_container_definitions|]. intros _.
  apply step_bind; [apply step_set_environment_variables|]. intros _.
  apply step_bind; [apply step_set_name|]. intros _.
  apply step_bind; [apply step_set_image|]. intros _.
  apply step_set_command.
Qed.

Lemma run_register_definition fuel boto3_c flow s :
  register_definition fuel boto3_c flow s =
    match synthesize_containers fuel flow s with
    | (Returned _, s1) =>
        let kwargs := task_definition_kwargs (self s1) in
        (match register_task_definition boto3_c kwargs (store s1) with
         | None => Returned ()
         | Some e => Raised e
         end, record_call (RegisterTaskDefinition kwargs (store s1)) s1)
    | (Raised e, s1) => (Raised e, s1)
    | (OutOfFuel, s1) => (OutOfFuel, s1)
    end.
Proof.
  unfold register_definition. rewrite run_bind.
  destruct (synthesize_containers fuel flow s) as [[[]|e|] s1]; [|done..].
  unfold invoke, self_attr, mbind, M_bind. cbn.
  by destruct (register_task_definition _ _ _).
Qed.

(** What [setup] leaves behind of the instance and of the store, in every
    case. *)
Lemma setup_keeps fuel boto3_client flow s :
  instance_kept (self s) (self (setup fuel boto3_client flow s).2) ∧
  store_kept (store s) (store (setup fuel boto3_client flow s).2).
Proof.
  rewrite run_setup. cbn zeta.
  destruct (describe_task_definition _ _ _) as [e|];
    [|split; [apply instance_kept_refl|apply store_kept_refl]].
  destruct (is_ClientError e);
    [|split; [apply instance_kept_refl|apply store_kept_refl]].
  rewrite run_register_definition.
  pose proof (step_synthesize_containers fuel flow
    (record_call (DescribeTaskDefinition (family_of (self s))) s)) as (Hme & Hst & _).
  by destruct (synthesize_containers _ _ _) as [[[]|e'|] s1].
Qed.

(** X4.  Whatever the configuration and however the call ends (it returns, it
    raises, in the synthesis or from a request), [setup] leaves the
    instance as it was but for the definition mapping, and this one as it
    was but for the key [containerDefinitions]: the run options, the
    credentials, the launch type, the executor, and [family] and every
    other definition option are never written. *)
Theorem setup_keeps_instance fuel boto3_client flow s :
  ∃ kwargs,
    self (setup fuel boto3_client flow s).2 =
      set_task_definition_kwargs kwargs (self s) ∧
    ∀ key, key ≠ "containerDefinitions" →
           kwargs !! key = task_definition_kwargs (self s) !! key.
Proof. apply setup_keeps. Qed.

(** X5.  Whatever the configuration and however the call ends, [setup] drops
    nothing from the store: no object disappears or changes its kind, a
    list keeps the items it had, in front of what was added, and a dict
    keeps what it had under every key other than [environment], [name],
    [image] and [command]. *)
Theorem setup_keeps_store fuel boto3_client flow s :
  store_kept (store s) (store (setup fuel boto3_client flow s).2).
Proof. apply setup_keeps. Qed.

(** X8.  Whatever the configuration, [setup] sends the describe request for
    the family first and at most one registration after it.  Without a
    registration it returns only if the describe request returned; a
    registration is sent only after a [ClientError] of the describe
    request and a synthesis that came to its end, it carries the
    definition mapping and the store as [setup] leaves them, and its
    outcome is the outcome of [setup]. *)
Theorem setup_requests fuel boto3_client flow s :
  let boto3_c := client_of boto3_client (self s) in
  let described := describe_task_definition boto3_c (family_of (self s)) (store s) in
  let outcome := setup fuel boto3_client flow s in
  let kwargs := task_definition_kwargs (self outcome.2) in
  (calls outcome.2 = calls s ++ [DescribeTaskDefinition (family_of (self s))] ∧
   (outcome.1 = Returned () → described = None)) ∨
  (calls outcome.2 =
     calls s ++ [DescribeTaskDefinition (family_of (self s));
                 RegisterTaskDefinition kwargs (store outcome.2)] ∧
   (∃ e, described = Some e ∧ is_ClientError e = true) ∧
   outcome.1 = match register_task_definition boto3_c kwargs (store outcome.2) with
               | None => Returned ()
               | Some e => Raised e
               end).
Proof.
  cbn zeta. rewrite run_setup. cbn zeta.
  destruct (describe_task_definition _ _ _) as [e|] eqn:Hdescribe; [|by left].
  destruct (is_ClientError e) eqn:He; [|by left].
  rewrite run_register_definition.
  pose proof (step_synthesize_containers fuel flow
    (record_call (DescribeTaskDefinition (family_of (self s))) s)) as (_ & _ & Hcalls).
  destruct (synthesize_containers _ _ _) as [[[]|e'|] s1]; cbn in *.
  - right. rewrite Hcalls, <- app_assoc. split; [done|]. split; [by exists e|].
    done.
  - by left.
  - by left.
Qed.


(** ** More on the construction *)

(** X1.  Parsing is a projection: the two derived mappings, merged, are parsed
    into themselves.  What [_parse_kwargs] drops is dropped once, and an
    option of both lists is given back with the one value it had. *)
Theorem parse_kwargs_merged (user_kwargs : gmap string pyval) :
  let (task_definition_kwargs, task_run_kwargs) := _parse_kwargs user_kwargs in
  _parse_kwargs (task_definition_kwargs ∪ task_run_kwargs) =
    (task_definition_kwargs, task_run_kwargs).
Proof.
  cbn. unfold _parse_kwargs. f_equal; apply map_eq; intros key;
    rewrite !collect_kwargs_lookup, lookup_union, !collect_kwargs_lookup;
    destruct (bool_decide (key ∈ definition_kwarg_list)),
      (bool_decide (key ∈ run_kwarg_list)), (user_kwargs !! key); done.
Qed.

(** X2.  A credential or region given as a truthy argument is stored as
    given: the process environment is consulted for a falsy one only. *)
Theorem init_explicit_credentials environ h a me :
  (__init__ environ h a).2 = Returned me →
  (truthy h (arg_aws_access_key_id a) = true →
     aws_access_key_id me = arg_aws_access_key_id a) ∧
  (truthy h (arg_aws_secret_access_key a) = true →
     aws_secret_access_key me = arg_aws_secret_access_key a) ∧
  (truthy h (arg_aws_session_token a) = true →
     aws_session_token me = arg_aws_session_token a) ∧
  (truthy h (arg_region_name a) = true →
     region_name me = arg_region_name a).
Proof.
  intros Hinit. unfold __init__ in Hinit. cbn in Hinit.
  repeat case_match; simplify_eq/=;
    repeat split; intros Htruthy; unfold py_or; by rewrite Htruthy.
Qed.

(** X3.  With [executor] absent, [executor_kwargs] is tested for truthiness
    before it is unpacked ([executor_kwargs or dict()]).  A falsy value
    of any type (an empty dict, an empty string, zero) is taken for no
    arguments; a truthy value that is not a dict makes the unpacking
    raise [TypeError], and no instance is built. *)
Theorem init_executor_kwargs_truthiness environ h a :
  arg_executor a = ArgValue VNone →
  (truthy h (arg_executor_kwargs a) = false →
     match get_default_executor_class ∅ with
     | inl e => (__init__ environ h a).2 = Raised e
     | inr e => ∃ me, (__init__ environ h a).2 = Returned me ∧ executor me = e
     end) ∧
  (truthy h (arg_executor_kwargs a) = true →
     (∀ l entries, arg_executor_kwargs a = VRef l → h !! l ≠ Some (ODict entries)) →
     ∃ msg, (__init__ environ h a).2 = Raised (TypeError msg)).
Proof.
  intros Hex. split.
  - intros Hfalsy.
    assert ((if truthy h (arg_executor_kwargs a)
             then unpack_mapping h (arg_executor_kwargs a) else inr ∅) = inr ∅)
      as Hargs by (by rewrite Hfalsy).
    rewrite (init_default_executor environ h a Hex ∅ Hargs).
    destruct (get_default_executor_class ∅); eauto.
  - intros Htruthy Hkw. unfold __init__. rewrite Hex, Htruthy. cbn.
    unfold unpack_mapping.
    destruct (arg_executor_kwargs a) as [| | | |l] eqn:Ha; cbn; eauto.
    destruct (h !! l) as [[items|entries]|] eqn:Hl; cbn; eauto.
    by destruct (Hkw l entries).
Qed.


(** ** Configurations on which [setup] raises *)

Lemma truthy_not_a_list_truthy h v :
  truthy_not_a_list h v = true → truthy h v = true.
Proof.
  destruct v as [|?|?|?|e]; cbn; try done.
  by destruct (h !! e) as [[|]|].
Qed.

Lemma run_add_environment_error env_values me h c d e :
  entry_error h d = Some e →
  add_environment env_values d (St me h c) = (Raised e, St me h c).
Proof.
  intros Herr. unfold add_environment, meth_get. rewrite !run_bind. cbn [deref store].
  destruct d as [| | | |l]; cbn in Herr; try (by injection Herr as <-).
  destruct (h !! l) as [[items|entries]|] eqn:Hl; [by injection Herr as <-| |done].
  destruct (truthy_not_a_list h _) eqn:Henv; [injection Herr as <-|done].
  cbn. rewrite run_bind. unfold py_truthy at 1. cbn [store].
  rewrite (truthy_not_a_list_truthy _ _ Henv). cbn [negb].
  destruct (entries !! "environment") as [env|] eqn:Hentry; [|done].
  rewrite !run_bind. unfold mret at 1, M_ret at 1.
  rewrite run_bind, (run_getitem _ _ _ _ _ _ _ Hl Hentry).
  unfold meth_extend. rewrite run_bind. cbn in Henv |- *.
  destruct env as [| | | |l']; try done.
  unfold truthy_not_a_list in Henv. cbn in Henv.
  by destruct (h !! l') as [[|]|].
Qed.

Lemma entry_error_alloc (h t : heap) d e :
  entry_error h d = Some e → entry_error (h ++ t) d = Some e.
Proof.
  destruct d as [| | | |l]; cbn; try done.
  destruct (h !! l) as [[items|entries]|] eqn:Hl; [| |done].
  - by rewrite (lookup_alloc_old _ _ _ _ Hl).
  - rewrite (lookup_alloc_old _ _ _ _ Hl).
    destruct (default VNone (entries !! "environment")) as [| | | |l']; cbn; try done.
    destruct (h !! l') as [[|entries']|] eqn:Hl'; try done.
    by rewrite (lookup_alloc_old _ _ _ _ Hl').
Qed.

Lemma entry_error_not_ok h lc d e :
  entry_error h d = Some e → container_ok h lc d = false.
Proof.
  destruct d as [| | | |l]; cbn; try done.
  destruct (h !! l) as [[items|entries]|] eqn:Hl; try done.
  destruct (entries !! "environment") as [[| | | |l']|]; cbn; try done.
  - by destruct b.
  - by destruct (z =? 0)%Z.
  - by destruct (String.eqb s "").
  - by destruct (h !! l') as [[|]|].
Qed.

Lemma entry_error_effect env_values h lc d0 d e :
  container_ok h lc d0 = true →
  entry_error h d = Some e →
  entry_error (add_environment_effect env_values h d0) d = Some e.
Proof.
  intros Hok Herr.
  assert (d ≠ d0) as Hne.
  { intros ->. apply (entry_error_not_ok _ lc) in Herr. congruence. }
  assert (∀ l items, h !! l = Some (OList items) →
            ∃ items', add_environment_effect env_values h d0 !! l
                      = Some (OList items')) as Hlists.
  { intros l items Hl.
    destruct (effect_cases env_values h lc d0 Hok)
      as [(l0 & entries0 & e0 & x & xs & -> & Hl0 & Henv & He0 & _ & ->)
         |(l0 & entries0 & -> & Hl0 & _ & _ & ->)].
    - destruct (decide (e0 = l)) as [->|Hother].
      + eexists. by eapply lookup_write_same.
      + exists items. by rewrite lookup_write_other.
    - exists items. eapply lookup_fresh_other; [done|congruence]. }
  assert (∀ l entries, h !! l = Some (ODict entries) → entries ≠ ∅ →
            ∃ entries', add_environment_effect env_values h d0 !! l
                        = Some (ODict entries') ∧ entries' ≠ ∅) as Hdicts.
  { intros l entries Hl Hentries.
    destruct (effect_cases env_values h lc d0 Hok)
      as [(l0 & entries0 & e0 & x & xs & -> & Hl0 & Henv & He0 & _ & ->)
         |(l0 & entries0 & -> & Hl0 & _ & _ & ->)].
    - exists entries. split; [|done]. rewrite lookup_write_other; [done|congruence].
    - destruct (decide (l0 = l)) as [->|Hother].
      + eexists. split; [by eapply lookup_fresh_same|]. apply insert_non_empty.
      + exists entries. split; [|done]. by eapply lookup_fresh_other. }
  destruct d as [| | | |l]; cbn in Herr |- *; try done.
  destruct (h !! l) as [[items|entries]|] eqn:Hl; [| |done].
  - destruct (Hlists _ _ Hl) as [items' ->]. done.
  - rewrite (effect_frame_dict env_values h lc d0 l entries Hok Hl) by congruence.
    destruct (default VNone (entries !! "environment")) as [| | | |l'];
      cbn in Herr |- *; try done.
    destruct (h !! l') as [[|entries']|] eqn:Hl'; try done.
    destruct (decide (entries' = ∅)) as [->|Hentries];
      [by rewrite bool_decide_eq_true_2 in Herr|].
    destruct (Hdicts _ _ Hl' Hentries) as (entries'' & -> & Hnonempty).
    rewrite bool_decide_eq_false_2 in Herr by done.
    by rewrite bool_decide_eq_false_2.
Qed.

(** The loop up to the first malformed entry. *)
Lemma foldl_effect_entry_error env_values lc ds d e good :
  ∀ h,
    h !! lc = Some (OList ds) →
    Forall (λ d, container_ok h lc d = true) good →
    entry_error h d = Some e →
    let h' := foldl (add_environment_effect env_values) h good in
    h' !! lc = Some (OList ds) ∧ entry_error h' d = Some e.
Proof.
  induction good as [|d0 good IH]; intros h Hlc Hgood Herr; [done|].
  apply Forall_cons in Hgood as [Hd0 Hgood]. cbn [foldl]. apply IH.
  - by apply effect_lookup_list.
  - eapply Forall_impl; [exact Hgood|]. intros d'. cbn.
    apply effect_container_ok; [by eapply lookup_lt_Some|done].
  - by eapply entry_error_effect.
Qed.

Lemma run_for_in_list_until env_values lc good :
  ∀ pre rest fuel me h c,
    h !! lc = Some (OList (pre ++ good ++ rest)) →
    Forall (λ d, container_ok h lc d = true) good →
    (length good ≤ fuel)%nat →
    for_in_list fuel lc (length pre) (add_environment env_values) (St me h c) =
      for_in_list (fuel - length good) lc (length pre + length good)
        (add_environment env_values)
        (St me (foldl (add_environment_effect env_values) h good) c).
Proof.
  induction good as [|d good IH]; intros pre rest fuel me h c Hlc Hgood Hfuel.
  - cbn. by rewrite Nat.sub_0_r, Nat.add_0_r.
  - destruct fuel as [|fuel]; [cbn in Hfuel; lia|].
    apply Forall_cons in Hgood as [Hd Hgood].
    cbn [for_in_list]. rewrite run_bind. cbn [deref store]. rewrite Hlc.
    cbn [app]. rewrite list_lookup_middle by done.
    rewrite run_bind, (run_add_environment _ _ _ _ lc _ Hd).
    replace (S (length pre)) with (length (pre ++ [d]))
      by (rewrite length_app; cbn; lia).
    rewrite (IH (pre ++ [d]) rest).
    + cbn [foldl length]. rewrite length_app. cbn [length].
      replace (S fuel - S (length good)) with (fuel - length good) by lia.
      by replace (length pre + 1 + length good) with (length pre + S (length good))
        by lia.
    + rewrite <- app_assoc. by apply effect_lookup_list.
    + eapply Forall_impl; [exact Hgood|]. intros d'. cbn.
      apply effect_container_ok; [by eapply lookup_lt_Some|done].
    + cbn in Hfuel. lia.
Qed.

(** The synthesis on a list of container entries of which one is
    malformed, all entries before it being well-formed. *)
Lemma run_synthesize_malformed_entry fuel flow me h c lc good d rest e :
  task_definition_kwargs me !! "containerDefinitions" = Some (VRef lc) →
  h !! lc = Some (OList (good ++ d :: rest)) →
  Forall (λ d, container_ok h lc d = true) good →
  entry_error h d = Some e →
  length good < fuel →
  synthesize_containers fuel flow (St me h c) =
    (Raised e,
     St me (foldl (add_environment_effect (standard_variables h))
              (h ++ (ODict <$> env_values_displays)) good) c).
Proof.
  intros Hkw Hlc Hgood Herr Hfuel.
  set (h0 := h ++ (ODict <$> env_values_displays)).
  assert (h0 !! lc = Some (OList (good ++ d :: rest))) as Hlc0
    by (by apply lookup_alloc_old).
  assert (truthy h0 (VRef lc) = true) as Htr.
  { cbn. rewrite Hlc0. by destruct good. }
  assert (Forall (λ d, container_ok h0 lc d = true) good) as Hgood0.
  { eapply Forall_impl; [exact Hgood|]. intros d'. apply container_ok_alloc. }
  assert (entry_error h0 d = Some e) as Herr0 by (by apply entry_error_alloc).
  unfold synthesize_containers.
  rewrite run_bind, run_alloc_dicts. fold (standard_variables h). fold h0.
  rewrite run_bind, run_create_container_definitions, Hkw. cbn [default from_option id].
  rewrite Htr, run_bind.
  unfold set_environment_variables.
  rewrite run_bind, (run_definition_kwargs_getitem _ _ _ _ _ Hkw).
  unfold for_in. rewrite run_bind. cbn [deref store]. rewrite Hlc0.
  rewrite (run_for_in_list_until _ lc good [] (d :: rest)); [|done..|lia].
  destruct (foldl_effect_entry_error (standard_variables h) lc _ d e good h0
              Hlc0 Hgood0 Herr0) as [Hlc' Herr'].
  destruct (fuel - length good) as [|fuel'] eqn:Hleft; [lia|].
  cbn [for_in_list]. rewrite run_bind. cbn [deref store length]. rewrite Hlc'.
  rewrite Nat.add_0_l, list_lookup_middle by done.
  by rewrite run_bind, (run_add_environment_error _ _ _ _ _ _ Herr').
Qed.

(** X10.  A malformed entry in the list of container definitions (one that is
    no dict, or one whose environment is truthy and no list) makes
    [setup] raise [AttributeError] when it finds the definition absent.
    Nothing is registered, but the call is not without effect: the dicts
    of the standard variables are created, and the entries before the
    malformed one have had their environments extended. *)
Theorem setup_malformed_entry fuel boto3_client flow s code lc good d rest e :
  describe_task_definition (client_of boto3_client (self s)) (family_of (self s))
    (store s) = Some (ClientError code) →
  task_definition_kwargs (self s) !! "containerDefinitions" = Some (VRef lc) →
  store s !! lc = Some (OList (good ++ d :: rest)) →
  Forall (λ d, container_ok (store s) lc d = true) good →
  entry_error (store s) d = Some e →
  length good < fuel →
  setup fuel boto3_client flow s =
    (Raised e,
     {| self := self s;
        store := foldl (add_environment_effect (standard_variables (store s)))
                   (store s ++ (ODict <$> env_values_displays)) good;
        calls := calls s ++ [DescribeTaskDefinition (family_of (self s))] |}).
Proof.
  intros Hdescribe Hkw Hlc Hgood Herr Hfuel.
  rewrite run_setup. cbn zeta. rewrite Hdescribe. cbn [is_ClientError].
  rewrite run_register_definition. unfold record_call.
  by rewrite (run_synthesize_malformed_entry _ _ _ _ _ lc good d rest e).
Qed.

(** X11.  A truthy value of [containerDefinitions] that is no list (a number,
    a string, a dict) makes [setup] raise when it finds the definition
    absent: [TypeError] for what cannot be iterated, [AttributeError] for
    what yields strings.  Nothing is registered and nothing that existed
    is changed; the dicts of the standard variables are created. *)
Theorem setup_container_definitions_not_a_list fuel boto3_client flow s code e :
  describe_task_definition (client_of boto3_client (self s)) (family_of (self s))
    (store s) = Some (ClientError code) →
  container_definitions_error (store s)
    (default VNone (task_definition_kwargs (self s) !! "containerDefinitions"))
    = Some e →
  setup fuel boto3_client flow s =
    (Raised e,
     {| self := self s;
        store := store s ++ (ODict <$> env_values_displays);
        calls := calls s ++ [DescribeTaskDefinition (family_of (self s))] |}).
Proof.
  intros Hdescribe Herr.
  rewrite run_setup. cbn zeta. rewrite Hdescribe. cbn [is_ClientError].
  rewrite run_register_definition. unfold record_call.
  destruct s as [me h c]. cbn [self store calls] in *.
  set (h0 := h ++ (ODict <$> env_values_displays)).
  destruct (task_definition_kwargs me !! "containerDefinitions") as [cds|] eqn:Hkw;
    [cbn [default] in Herr|done].
  assert (truthy h0 cds = true ∧
          for_in fuel cds (add_environment (standard_variables h))
            (St me h0 (c ++ [DescribeTaskDefinition (family_of me)]))
          = (Raised e, St me h0 (c ++ [DescribeTaskDefinition (family_of me)])))
    as [Htr Hloop].
  { unfold for_in. rewrite run_bind. cbn [deref store].
    destruct cds as [|[]|z|[|a str']|lc]; cbn in Herr |- *; try done.
    - by injection Herr as <-.
    - destruct (z =? 0)%Z; [done|]. by injection Herr as <-.
    - injection Herr as <-. split; [done|].
      by rewrite run_bind, (run_add_environment_error _ _ _ _ _ (AttributeError "get")).
    - destruct (h !! lc) as [[items|entries]|] eqn:Hlc; try done.
      unfold h0. rewrite (lookup_alloc_old _ _ _ _ Hlc).
      case_bool_decide as Hentries; [done|]. injection Herr as <-. split; [done|].
      destruct (map_to_list entries) as [|[key x] keys] eqn:Hkeys;
        [by apply map_to_list_empty_iff in Hkeys|].
      cbn [fmap list_fmap fst for_each].
      by rewrite run_bind, (run_add_environment_error _ _ _ _ _ (AttributeError "get")). }
  unfold synthesize_containers.
  rewrite run_bind, run_alloc_dicts. fold (standard_variables h). fold h0.
  rewrite run_bind, run_create_container_definitions, Hkw. cbn [default from_option id].
  rewrite Htr, run_bind.
  unfold set_environment_variables.
  rewrite run_bind, (run_definition_kwargs_getitem _ _ _ _ _ Hkw).
  by rewrite Hloop.
Qed.


(** ** The container [setup] builds when none is given *)

Lemma lookup_offset (h t : heap) k : (h ++ t) !! (length h + k) = t !! k.
Proof. rewrite lookup_app_r by lia. f_equal. lia. Qed.

Lemma insert_offset (h t : heap) k o :
  <[length h + k := o]> (h ++ t) = h ++ <[k := o]> t.
Proof. rewrite insert_app_r_alt by lia. do 2 f_equal. lia. Qed.

Lemma run_synthesize_default fuel flow me h c :
  truthy h (default VNone (task_definition_kwargs me !! "containerDefinitions"))
    = false →
  1 < fuel →
  synthesize_containers fuel flow (St me h c) =
    (Returned (),
     St (set_task_definition_kwargs
           (<["containerDefinitions" := VRef (length h + 6)]>
              (task_definition_kwargs me)) me)
        (h ++ default_container_objects flow h) c).
Proof.
  intros Hfalsy Hfuel.
  set (cds := default VNone (task_definition_kwargs me !! "containerDefinitions")) in *.
  set (h0 := h ++ (ODict <$> env_values_displays)).
  assert (truthy h0 cds = false) as Htr.
  { rewrite <- Hfalsy. apply truthy_alloc. intros l ->. cbn in Hfalsy.
    destruct (h !! l) eqn:Hl; [by eapply lookup_lt_Some|done]. }
  assert (length h0 = length h + 6) as Hlen
    by (unfold h0; by rewrite length_app, length_fmap).
  unfold synthesize_containers.
  rewrite run_bind, run_alloc_dicts. fold (standard_variables h). fold h0.
  rewrite run_bind, run_create_container_definitions. fold cds. rewrite Htr, Hlen.
  set (me1 := set_task_definition_kwargs _ me).
  set (h1 := h0 ++ [OList [VRef (S (length h + 6))]; ODict ∅]).
  assert (h1 = h ++ ((ODict <$> env_values_displays)
                     ++ [OList [VRef (S (length h + 6))]; ODict ∅])) as Hh1
    by (unfold h1, h0; by rewrite app_assoc).
  assert (length h1 = length h + 8) as Hlen1.
  { unfold h1. rewrite length_app, Hlen. cbn. lia. }
  assert (typed h1 (length h + 6) [VRef (S (length h + 6))]) as Ht1.
  { split.
    - rewrite Hh1, lookup_offset. reflexivity.
    - apply Forall_singleton. unfold container_ok.
      replace (S (length h + 6)) with (length h + 7) by lia.
      rewrite Hh1, lookup_offset. reflexivity. }
  rewrite (run_container_blocks _ _ _ _ _ _ (length h + 6) (S (length h + 6)) []);
    [|apply lookup_insert_eq|done|cbn; lia].
  do 2 f_equal.
  cbn [foldl]. unfold add_environment_effect.
  replace (S (length h + 6)) with (length h + 7) in * by lia.
  rewrite Hlen1. rewrite Hh1 at 1. rewrite lookup_offset.
  cbn [fmap list_fmap env_values_displays app lookup list_lookup].
  rewrite lookup_empty.
  rewrite Hh1, insert_offset.
  unfold first_container_effect.
  rewrite <- app_assoc, lookup_offset.
  unfold env_values_displays at 1 2 3 4 5.
  cbn [fmap list_fmap app insert list_insert lookup list_lookup].
  unfold command_address, command_lists.
  rewrite !lookup_insert_ne by done. rewrite lookup_empty.
  cbn [default from_option truthy].
  rewrite insert_offset.
  cbn [insert list_insert].
  rewrite length_insert, length_app. cbn [length].
  rewrite <- app_assoc. unfold default_container_objects.
  by replace (S (length h + 9)) with (length h + 10) by lia.
Qed.

(** X9.  When the definition is absent and no container definitions are
    given ([containerDefinitions] is missing, or is [None], an empty
    list, or anything falsy), [setup] changes nothing that existed: it
    creates eleven objects after the store, among them the container
    list with its single entry (the flow container, whose environment is
    a new list of the standard variables), binds [containerDefinitions]
    to the new list, and sends the registration.  A list that was given
    empty is not filled: it is replaced. *)
Theorem setup_default_container fuel boto3_client flow s code :
  describe_task_definition (client_of boto3_client (self s)) (family_of (self s))
    (store s) = Some (ClientError code) →
  truthy (store s)
    (default VNone (task_definition_kwargs (self s) !! "containerDefinitions"))
    = false →
  1 < fuel →
  let h' := store s ++ default_container_objects flow (store s) in
  let kwargs :=
    <["containerDefinitions" := VRef (length (store s) + 6)]>
      (task_definition_kwargs (self s)) in
  setup fuel boto3_client flow s =
    (match register_task_definition (client_of boto3_client (self s)) kwargs h' with
     | None => Returned ()
     | Some e => Raised e
     end,
     {| self := set_task_definition_kwargs kwargs (self s);
        store := h';
        calls := calls s ++ [DescribeTaskDefinition (family_of (self s));
                            RegisterTaskDefinition kwargs h'] |}).
Proof.
  intros Hdescribe Hfalsy Hfuel. cbn zeta.
  rewrite run_setup. cbn zeta. rewrite Hdescribe. cbn [is_ClientError].
  rewrite run_register_definition. destruct s as [me h c].
  unfold record_call. cbn [self store calls] in *.
  rewrite run_synthesize_default by done.
  cbn. by rewrite <- app_assoc.
Qed.


(** ** More on [execute] *)

(** [execute] on any instance: the keywords of the call of [run_task]
    are the two explicit ones and the stored run options. *)
Lemma run_execute boto3_client context flow s :
  let h' := store s ++ override_objects (store s) context flow in
  let kwargs :=
    list_to_map [("overrides", VRef (length (store s) + 6));
                 ("launchType", launch_type (self s))]
    ∪ task_run_kwargs (self s) in
  execute boto3_client context flow s =
    if bool_decide (task_run_kwargs (self s) !! "overrides" = None ∧
                    task_run_kwargs (self s) !! "launchType" = None)
    then (match run_task (client_of boto3_client (self s)) kwargs h' with
          | None => Returned ()
          | Some e => Raised e
          end,
          {| self := self s; store := h'; calls := calls s ++ [RunTask kwargs h'] |})
    else (Raised (TypeError "got multiple values for keyword argument"),
          {| self := self s; store := h'; calls := calls s |}).
Proof.
  cbn zeta.
  unfold execute, make_client, keyword_arguments, invoke, alloc, py_or_, self_attr,
    record_call, override_objects, mbind, M_bind, mret, M_ret.
  cbn. rewrite !length_app. cbn. rewrite <- !app_assoc. cbn.
  replace (length (store s) + 1 + 1 + 1) with (length (store s) + 3) by lia.
  replace (length (store s) + 1 + 1) with (length (store s) + 2) by lia.
  replace (length (store s) + 3 + 1 + 1 + 1) with (length (store s) + 6) by lia.
  replace (length (store s) + 3 + 1 + 1) with (length (store s) + 5) by lia.
  replace (length (store s) + 3 + 1) with (length (store s) + 4) by lia.
  case_bool_decide as Hexplicit; case_bool_decide as Hkeys.
  - by destruct (run_task _ _ _).
  - destruct Hkeys. apply Forall_cons in Hexplicit as [Ho Hexplicit].
    by apply Forall_cons in Hexplicit as [Hl _].
  - destruct Hexplicit. destruct Hkeys as [Ho Hl]. by repeat constructor.
  - done.
Qed.

(** What [__init__] stores of its arguments without a test. *)
Lemma init_returned environ h a me :
  (__init__ environ h a).2 = Returned me →
  launch_type me = arg_launch_type a ∧
  task_definition_kwargs me = (_parse_kwargs (arg_kwargs a)).1 ∧
  task_run_kwargs me = (_parse_kwargs (arg_kwargs a)).2.
Proof.
  intros Hinit. unfold __init__ in Hinit. cbn in Hinit.
  repeat (case_match; simplify_eq/=); done.
Qed.

(** X12.  [execute] does not look at the stored run options before it unpacks
    them: on an instance whose run options hold [overrides] or
    [launchType] (which [__init__] never stores) the call of [run_task]
    is a [TypeError] for a keyword given twice.  No request is sent; the
    override objects are in the store by then. *)
Theorem execute_duplicate_keyword boto3_client context flow s :
  is_Some (task_run_kwargs (self s) !! "overrides") ∨
  is_Some (task_run_kwargs (self s) !! "launchType") →
  ∃ msg,
    execute boto3_client context flow s =
      (Raised (TypeError msg),
       {| self := self s;
          store := store s ++ override_objects (store s) context flow;
          calls := calls s |}).
Proof.
  intros Hkeys. rewrite run_execute. cbn zeta.
  rewrite bool_decide_eq_false_2; [by eexists|].
  intros [Ho Hl]. rewrite Ho, Hl in Hkeys.
  by destruct Hkeys as [[? ?]|[? ?]].
Qed.

(** X13.  From construction to the run request.  On an instance that
    [__init__] returned, [execute] sends its one request, whatever
    options the constructor was given: the launch type of the request is
    the [launch_type] argument, [overrides] is the new override object,
    and the other keywords are the constructor options named in
    [run_kwarg_list], each with the value given.  An option [launchType]
    or [overrides] given to the constructor is dropped at construction
    and cannot collide. *)
Theorem init_execute_request environ h a me boto3_client context flow s :
  (__init__ environ h a).2 = Returned me →
  self s = me →
  ∃ kwargs,
    let h' := store s ++ override_objects (store s) context flow in
    execute boto3_client context flow s =
      (match run_task (client_of boto3_client me) kwargs h' with
       | None => Returned ()
       | Some e => Raised e
       end,
       {| self := me; store := h'; calls := calls s ++ [RunTask kwargs h'] |}) ∧
    kwargs !! "overrides" = Some (VRef (length (store s) + 6)) ∧
    kwargs !! "launchType" = Some (arg_launch_type a) ∧
    (∀ key, key ≠ "overrides" → key ≠ "launchType" →
       kwargs !! key =
         if bool_decide (key ∈ run_kwarg_list) then arg_kwargs a !! key else None).
Proof.
  intros Hinit Hme.
  destruct (init_returned _ _ _ _ Hinit) as (Hlaunch & _ & Hrun).
  cbn in Hrun.
  assert (∀ key, task_run_kwargs (self s) !! key =
            if bool_decide (key ∈ run_kwarg_list) then arg_kwargs a !! key else None)
    as Hkeys.
  { intros key. rewrite Hme, Hrun. apply collect_kwargs_lookup. }
  exists (list_to_map [("overrides", VRef (length (store s) + 6));
                       ("launchType", launch_type (self s))]
          ∪ task_run_kwargs (self s)).
  cbn zeta. rewrite run_execute. cbn zeta.
  rewrite bool_decide_eq_true_2.
  2:{ rewrite !Hkeys. split; by rewrite bool_decide_eq_false_2
        by (by apply (bool_decide_unpack (_ ∉ run_kwarg_list))). }
  split; [by rewrite Hme|]. cbn. split; [|split].
  - apply lookup_union_Some_l. by rewrite lookup_insert_eq.
  - apply lookup_union_Some_l. rewrite lookup_insert_ne by done.
    by rewrite lookup_insert_eq, Hme, Hlaunch.
  - intros key H1 H2. rewrite lookup_union_r; [apply Hkeys|].
    rewrite !lookup_insert_ne by done. apply lookup_empty.
Qed.


(** ** From construction to the requests of [setup] *)

Lemma setup_calls fuel boto3_client flow s :
  let s' := (setup fuel boto3_client flow s).2 in
  calls s' = calls s ++ [DescribeTaskDefinition (family_of (self s))] ∨
  calls s' = calls s ++ [DescribeTaskDefinition (family_of (self s));
                         RegisterTaskDefinition (task_definition_kwargs (self s'))
                           (store s')].
Proof.
  cbn zeta. rewrite run_setup. cbn zeta.
  destruct (describe_task_definition _ _ _) as [e|]; [|by left].
  destruct (is_ClientError e); [|by left].
  rewrite run_register_definition.
  pose proof (step_synthesize_containers fuel flow
    (record_call (DescribeTaskDefinition (family_of (self s))) s)) as (_ & _ & Hcalls).
  destruct (synthesize_containers _ _ _) as [[[]|e'|] s1]; cbn in *;
    [right|by left..].
  by rewrite Hcalls, <- app_assoc.
Qed.

(** X14.  On an instance that [__init__] returned, [setup] first describes the
    [family] given to the constructor ([None] when none was given).  If
    it goes on to register, the definition it registers holds, under
    every key but [containerDefinitions], the constructor options named
    in [definition_kwarg_list], each with the value given, and nothing
    else. *)
Theorem init_setup_requests environ h a me fuel boto3_client flow s :
  (__init__ environ h a).2 = Returned me →
  self s = me →
  ∃ more,
    calls (setup fuel boto3_client flow s).2 =
      calls s ++ DescribeTaskDefinition (default VNone (arg_kwargs a !! "family"))
                 :: more ∧
    (more = [] ∨
     ∃ kwargs h',
       more = [RegisterTaskDefinition kwargs h'] ∧
       ∀ key, key ≠ "containerDefinitions" →
         kwargs !! key =
           if bool_decide (key ∈ definition_kwarg_list)
           then arg_kwargs a !! key else None).
Proof.
  intros Hinit Hme.
  destruct (init_returned _ _ _ _ Hinit) as (_ & Hdefinition & _).
  cbn in Hdefinition.
  assert (family_of (self s) = default VNone (arg_kwargs a !! "family")) as Hfamily.
  { unfold family_of. by rewrite Hme, Hdefinition, collect_kwargs_lookup. }
  destruct (setup_keeps fuel boto3_client flow s) as [(kwargs & Hself & Hkeys) _].
  destruct (setup_calls fuel boto3_client flow s) as [Hcalls|Hcalls];
    cbn zeta in Hcalls; rewrite Hcalls, Hfamily.
  - exists []. by split; [|left].
  - eexists. split; [done|]. right. do 2 eexists. split; [done|].
    intros key Hkey. rewrite Hself. cbn. rewrite (Hkeys key Hkey).
    rewrite Hme, Hdefinition. apply collect_kwargs_lookup.
Qed.


(** ** The lists [setup] never changes *)

Lemma environment_somewhere_alloc (h : heap) o l :
  environment_somewhere h l → environment_somewhere (h ++ [o]) l.
Proof.
  intros (d & entries & x & items & Hd & Henv & Hl).
  exists d, entries, x, items.
  split; [by apply lookup_alloc_old|]. split; [done|by apply lookup_alloc_old].
Qed.

Lemma other_lists_kept_alloc h0 (h : heap) o :
  other_lists_kept h0 h → other_lists_kept h0 (h ++ [o]).
Proof.
  intros [Hlen Hlists]. split; [rewrite length_app; lia|].
  intros l items Hl. destruct (Hlists l items Hl) as [Hsame|Henv].
  - left. by apply lookup_alloc_old.
  - right. by apply environment_somewhere_alloc.
Qed.

(** Writing a dict over a dict, the value under ["environment"] being
    kept unless it was falsy. *)
Lemma other_lists_kept_write_dict h0 (h : heap) d entries entries' :
  h !! d = Some (ODict entries) →
  (entries' !! "environment" = entries !! "environment" ∨
   truthy h (default VNone (entries !! "environment")) = false) →
  other_lists_kept h0 h → other_lists_kept h0 (<[d := ODict entries']> h).
Proof.
  intros Hd Hentry [Hlen Hlists]. split; [by rewrite length_insert|].
  intros l items Hl. destruct (Hlists l items Hl) as [Hsame|Henv].
  - left. rewrite lookup_write_other; [done|congruence].
  - right. destruct Henv as (d' & entries1 & x & xs & Hd' & Henv & Hlist).
    assert (d ≠ l) as Hdl by congruence.
    destruct (decide (d' = d)) as [->|Hother].
    + rewrite Hd in Hd'. injection Hd' as <-.
      destruct Hentry as [Hentry|Hfalsy].
      * exists d, entries', x, xs.
        split; [by eapply lookup_write_same|]. split; [congruence|].
        by rewrite lookup_write_other.
      * rewrite Henv in Hfalsy. cbn in Hfalsy. by rewrite Hlist in Hfalsy.
    + exists d', entries1, x, xs. by rewrite !lookup_write_other.
Qed.

(** Extending the list bound to ["environment"] in a dict. *)
Lemma other_lists_kept_extend h0 (h : heap) d entries e x items more :
  h !! d = Some (ODict entries) →
  entries !! "environment" = Some (VRef e) →
  h !! e = Some (OList (x :: items)) →
  other_lists_kept h0 h →
  other_lists_kept h0 (<[e := OList ((x :: items) ++ more)]> h).
Proof.
  intros Hd Hentry He [Hlen Hlists]. split; [by rewrite length_insert|].
  assert (environment_somewhere (<[e := OList ((x :: items) ++ more)]> h) e) as Hnew.
  { exists d, entries, x, (items ++ more).
    split; [rewrite lookup_write_other; [done|congruence]|].
    split; [done|]. by eapply lookup_write_same. }
  intros l xs Hl. destruct (decide (l = e)) as [->|Hne]; [by right|].
  destruct (Hlists l xs Hl) as [Hsame|Henv].
  - left. by rewrite lookup_write_other.
  - right. destruct Henv as (d' & entries1 & y & ys & Hd' & Henv & Hlist).
    exists d', entries1, y, ys.
    split; [rewrite lookup_write_other; [done|congruence]|].
    split; [done|]. by rewrite lookup_write_other.
Qed.

Lemma keeps_same_store {A} h0 (m : M A) :
  (∀ s, store (m s).2 = store s) → keeps_other_lists h0 m.
Proof. intros Hm s Hs. by rewrite Hm. Qed.

Lemma keeps_bind {A B} h0 (m : M A) (f : A → M B) :
  keeps_other_lists h0 m → (∀ a, keeps_other_lists h0 (f a)) →
  keeps_other_lists h0 (m ≫= f).
Proof.
  intros Hm Hf s Hs. specialize (Hm s Hs). rewrite run_bind.
  destruct (m s) as [[a|e|] s1]; cbn [snd] in *; [|done..].
  by apply Hf.
Qed.

Lemma keeps_alloc h0 o : keeps_other_lists h0 (alloc o).
Proof. intros s Hs. by apply other_lists_kept_alloc. Qed.

Lemma keeps_meth_get h0 v key : keeps_other_lists h0 (meth_get v key).
Proof.
  apply keeps_same_store. intros s. unfold meth_get. rewrite run_bind. cbn.
  by destruct v as [| | | |l]; [..|destruct (store s !! l) as [[|]|]].
Qed.

Lemma keeps_getitem0 h0 v : keeps_other_lists h0 (getitem0 v).
Proof.
  apply keeps_same_store. intros s. unfold getitem0. rewrite run_bind. cbn.
  destruct v as [| | |[|]|l]; try done.
  destruct (store s !! l) as [[items|]|]; try done. by destruct (items !! 0).
Qed.

Lemma keeps_first_container h0 : keeps_other_lists h0 first_container.
Proof.
  apply keeps_bind; [|intros cds; apply keeps_getitem0].
  apply keeps_same_store. intros s. unfold definition_kwargs_getitem.
  rewrite run_bind. cbn. by destruct (_ !! _).
Qed.

Lemma keeps_first_container_via_get h0 :
  keeps_other_lists h0 first_container_via_get.
Proof.
  apply keeps_bind; [|intros cds; apply keeps_getitem0].
  by apply keeps_same_store.
Qed.

Lemma keeps_setitem h0 v key x :
  key ≠ "environment" → keeps_other_lists h0 (setitem v key x).
Proof.
  intros Hkey s Hs. unfold setitem. rewrite run_bind. cbn [deref].
  destruct v as [| | | |l]; try done.
  destruct (store s !! l) as [[items|entries]|] eqn:Hl; try done.
  cbn. eapply other_lists_kept_write_dict; [done| |done].
  left. by rewrite lookup_insert_ne.
Qed.

Lemma keeps_add_environment h0 env_values d :
  keeps_other_lists h0 (add_environment env_values d).
Proof.
  intros [me h c] Hs. cbn [store] in Hs.
  unfold add_environment, meth_get. rewrite !run_bind. cbn [deref store].
  destruct d as [| | | |ld]; try done.
  destruct (h !! ld) as [[items|entries]|] eqn:Hld; try done.
  cbn. rewrite run_bind. unfold py_truthy at 1. cbn [store].
  destruct (truthy h (default VNone (entries !! "environment"))) eqn:Htruthy;
    cbn [negb].
  - rewrite run_bind. unfold mret at 1, M_ret at 1.
    destruct (entries !! "environment") as [env|] eqn:Hentry; [|done].
    rewrite run_bind, (run_getitem _ _ _ _ _ _ _ Hld Hentry).
    unfold meth_extend. rewrite run_bind. cbn [deref store].
    destruct env as [| | | |e]; try done.
    destruct (h !! e) as [[xs|]|] eqn:He; try done.
    destruct xs as [|x xs]; [cbn in Htruthy; by rewrite He in Htruthy|].
    cbn. by eapply other_lists_kept_extend.
  - rewrite !run_bind. unfold alloc at 1. cbn [store].
    unfold setitem. rewrite run_bind. cbn [deref store].
    rewrite (lookup_alloc_old _ _ _ _ Hld). unfold write at 1. cbn [store].
    rewrite run_bind.
    erewrite run_getitem;
      [|eapply lookup_write_same, lookup_alloc_old, Hld|apply lookup_insert_eq].
    unfold meth_extend. rewrite run_bind. cbn [deref store].
    assert (ld < length h) as Hlt by (by eapply lookup_lt_Some).
    rewrite lookup_write_other by lia. rewrite lookup_alloc_new. cbn.
    set (h1 := <[ld := _]> (h ++ [OList []])).
    assert (other_lists_kept h0 h1) as H1.
    { eapply other_lists_kept_write_dict.
      - by apply lookup_alloc_old.
      - right. rewrite truthy_alloc; [done|].
        intros l Hv. rewrite Hv in Htruthy. cbn in Htruthy.
        destruct (h !! l) eqn:Hl; [by eapply lookup_lt_Some|done].
      - by apply other_lists_kept_alloc. }
    destruct Hs as [Hlen _], H1 as [Hlen1 Hlists1].
    split; [by rewrite length_insert|].
    intros l xs Hl.
    assert (l ≠ length h) as Hne by (apply lookup_lt_Some in Hl; lia).
    destruct (Hlists1 l xs Hl) as [Hsame|Henv].
    + left. by rewrite lookup_write_other.
    + right. destruct Henv as (d' & entries1 & y & ys & Hd' & Henv & Hlist).
      assert (d' ≠ length h) as Hd'ne.
      { intros ->. unfold h1 in Hd'. rewrite lookup_write_other in Hd' by lia.
        by rewrite lookup_alloc_new in Hd'. }
      exists d', entries1, y, ys. by rewrite !lookup_write_other.
Qed.

Lemma keeps_for_in_list h0 fuel l body :
  (∀ x, keeps_other_lists h0 (body x)) →
  ∀ i, keeps_other_lists h0 (for_in_list fuel l i body).
Proof.
  intros Hbody. induction fuel as [|fuel IH]; intros i; [by apply keeps_same_store|].
  cbn [for_in_list]. apply keeps_bind; [by apply keeps_same_store|].
  intros [[items|]|]; try (by apply keeps_same_store).
  destruct (items !! i); [|by apply keeps_same_store].
  apply keeps_bind; [apply Hbody|]. intros _. apply IH.
Qed.

Lemma keeps_for_each h0 items body :
  (∀ x, keeps_other_lists h0 (body x)) → keeps_other_lists h0 (for_each items body).
Proof.
  intros Hbody. induction items as [|x items IH]; [by apply keeps_same_store|].
  cbn [for_each]. apply keeps_bind; [apply Hbody|]. by intros _.
Qed.

Lemma keeps_for_in h0 fuel v body :
  (∀ x, keeps_other_lists h0 (body x)) → keeps_other_lists h0 (for_in fuel v body).
Proof.
  intros Hbody. apply keeps_bind; [by apply keeps_same_store|].
  intros [[items|entries]|]; destruct v;
    first [by apply keeps_for_in_list|by apply keeps_for_each
          |by apply keeps_same_store].
Qed.

Lemma keeps_alloc_dicts h0 displays : keeps_other_lists h0 (alloc_dicts displays).
Proof.
  induction displays as [|d displays IH]; [by apply keeps_same_store|].
  cbn [alloc_dicts]. apply keeps_bind; [apply keeps_alloc|]. intros x.
  apply keeps_bind; [apply IH|]. intros xs. by apply keeps_same_store.
Qed.

Lemma keeps_create_container_definitions h0 :
  keeps_other_lists h0 create_container_definitions.
Proof.
  intros [me h c] Hs. rewrite run_create_container_definitions.
  destruct (truthy h _); [done|]. cbn [snd store] in *.
  change [OList [VRef (S (length h))]; ODict ∅]
    with ([OList [VRef (S (length h))]] ++ [ODict ∅]).
  rewrite app_assoc. by do 2 apply other_lists_kept_alloc.
Qed.

Ltac keeps :=
  repeat first
    [ apply keeps_alloc | apply keeps_meth_get | apply keeps_first_container
    | apply keeps_first_container_via_get
    | apply keeps_setitem; discriminate
    | by apply keeps_same_store
    | match goal with
      | |- keeps_other_lists _ (if ?b then _ else _) => destruct b
      | |- keeps_other_lists _ (_ ≫= _) => apply keeps_bind; [|intros ?]
      end ].

Lemma keeps_synthesize_containers h0 fuel flow :
  keeps_other_lists h0 (synthesize_containers fuel flow).
Proof.
  unfold synthesize_containers.
  apply keeps_bind; [apply keeps_alloc_dicts|]. intros env_values.
  apply keeps_bind; [apply keeps_create_container_definitions|]. intros _.
  apply keeps_bind.
  { unfold set_environment_variables. apply keeps_bind.
    - apply keeps_same_store. intros s. unfold definition_kwargs_getitem.
      rewrite run_bind. cbn. by destruct (_ !! _).
    - intros cds. apply keeps_for_in, keeps_add_environment. }
  intros _. apply keeps_bind; [unfold set_name; keeps|]. intros _.
  apply keeps_bind; [unfold set_image; keeps|]. intros _.
  unfold set_command; keeps.
Qed.

(** X6.  Whatever the configuration and however the call ends, the only lists
    of the store that [setup] changes are environments: a list that
    existed is as it was, unless some dict has it under [environment].
    The list of container definitions that was given, a list of volumes
    or tags, the command a container had: none of them gets or loses an
    item. *)
Theorem setup_keeps_other_lists fuel boto3_client flow s :
  other_lists_kept (store s) (store (setup fuel boto3_client flow s).2).
Proof.
  assert (other_lists_kept (store s) (store s)) as Hstart by (split; [done|by left]).
  rewrite run_setup. cbn zeta.
  destruct (describe_task_definition _ _ _) as [e|]; [|done].
  destruct (is_ClientError e); [|done].
  rewrite run_register_definition.
  pose proof (keeps_synthesize_containers (store s) fuel flow
    (record_call (DescribeTaskDefinition (family_of (self s))) s) Hstart) as Hkept.
  by destruct (synthesize_containers _ _ _) as [[[]|e'|] s1].
Qed.


(** ** The dicts [setup] never changes *)

Lemma other_dicts_kept_alloc h0 me (h : heap) c o :
  other_dicts_kept h0 (St me h c) → other_dicts_kept h0 (St me (h ++ [o]) c).
Proof.
  intros [Hlen Hdicts]. cbn [store] in *. split; [cbn; rewrite length_app; lia|].
  intros l entries Hl. destruct (Hdicts l entries Hl) as [Hsame|Hentry].
  - left. by apply lookup_alloc_old.
  - right. destruct Hentry as (lc & items & Hkw & Hlc & Hin).
    exists lc, items. split; [done|]. split; [by apply lookup_alloc_old|done].
Qed.

Lemma other_dicts_kept_extend h0 me (h : heap) c e items more :
  h !! e = Some (OList items) →
  other_dicts_kept h0 (St me h c) →
  other_dicts_kept h0 (St me (<[e := OList (items ++ more)]> h) c).
Proof.
  intros He [Hlen Hdicts]. cbn [store] in *.
  split; [cbn; by rewrite length_insert|].
  intros l entries Hl. destruct (Hdicts l entries Hl) as [Hsame|Hentry].
  - left. cbn. rewrite lookup_write_other; [done|congruence].
  - right. destruct Hentry as (lc & items' & Hkw & Hlc & Hin). cbn in Hkw, Hlc.
    destruct (decide (lc = e)) as [->|Hne].
    + exists e, (items ++ more). cbn. split; [done|].
      split; [by eapply lookup_write_same|].
      rewrite He in Hlc. injection Hlc as <-. set_solver.
    + exists lc, items'. cbn. by rewrite lookup_write_other.
Qed.

Lemma other_dicts_kept_write_entry h0 me (h : heap) c l entries entries' :
  h !! l = Some (ODict entries) →
  container_entry (St me h c) l →
  other_dicts_kept h0 (St me h c) →
  other_dicts_kept h0 (St me (<[l := ODict entries']> h) c).
Proof.
  intros Hl Hentry [Hlen Hdicts]. cbn [store] in *.
  split; [cbn; by rewrite length_insert|].
  assert (∀ l', container_entry (St me h c) l' →
                container_entry (St me (<[l := ODict entries']> h) c) l') as Hkeep.
  { intros l' (lc & items & Hkw & Hlc & Hin). cbn in Hkw, Hlc.
    exists lc, items. cbn. rewrite lookup_write_other; [done|congruence]. }
  intros l' entries1 Hl'. destruct (decide (l' = l)) as [->|Hne].
  - right. by apply Hkeep.
  - destruct (Hdicts l' entries1 Hl') as [Hsame|Hentry'].
    + left. cbn. by rewrite lookup_write_other.
    + right. by apply Hkeep.
Qed.

Lemma container_entry_alloc me (h : heap) c o l :
  container_entry (St me h c) l → container_entry (St me (h ++ [o]) c) l.
Proof.
  intros (lc & items & Hkw & Hlc & Hin). exists lc, items.
  split; [done|]. split; [by apply lookup_alloc_old|done].
Qed.

(** The body of the loop on an item of the container list. *)
Lemma add_environment_other_dicts h0 env_values x me h c :
  other_dicts_kept h0 (St me h c) →
  (∀ l, x = VRef l → container_entry (St me h c) l) →
  ∃ h', (add_environment env_values x (St me h c)).2 = St me h' c ∧
        other_dicts_kept h0 (St me h' c).
Proof.
  intros Hs Hx.
  unfold add_environment, meth_get. rewrite !run_bind. cbn [deref store].
  destruct x as [| | | |ld]; try (by exists h).
  specialize (Hx ld eq_refl).
  destruct (h !! ld) as [[items|entries]|] eqn:Hld; try (by exists h).
  cbn. rewrite run_bind. unfold py_truthy at 1. cbn [store].
  destruct (truthy h (default VNone (entries !! "environment"))) eqn:Htruthy;
    cbn [negb].
  - rewrite run_bind. unfold mret at 1, M_ret at 1.
    destruct (entries !! "environment") as [env|] eqn:Hentry; [|done].
    rewrite run_bind, (run_getitem _ _ _ _ _ _ _ Hld Hentry).
    unfold meth_extend. rewrite run_bind. cbn [deref store].
    destruct env as [| | | |e]; try (by exists h).
    destruct (h !! e) as [[xs|]|] eqn:He; try (by exists h).
    cbn. eexists. split; [done|]. by apply other_dicts_kept_extend.
  - rewrite !run_bind. unfold alloc at 1. cbn [store].
    unfold setitem. rewrite run_bind. cbn [deref store].
    rewrite (lookup_alloc_old _ _ _ _ Hld). unfold write at 1. cbn [store].
    rewrite run_bind.
    erewrite run_getitem;
      [|eapply lookup_write_same, lookup_alloc_old, Hld|apply lookup_insert_eq].
    unfold meth_extend. rewrite run_bind. cbn [deref store].
    assert (ld < length h) as Hlt by (by eapply lookup_lt_Some).
    rewrite lookup_write_other by lia. rewrite lookup_alloc_new. cbn.
    eexists. split; [done|].
    apply (other_dicts_kept_extend _ _ _ _ _ []).
    { rewrite lookup_write_other by lia. apply lookup_alloc_new. }
    eapply other_dicts_kept_write_entry.
    + by apply lookup_alloc_old.
    + by apply container_entry_alloc.
    + by apply other_dicts_kept_alloc.
Qed.

Lemma for_in_list_other_dicts h0 env_values lc fuel :
  ∀ i me h c,
    task_definition_kwargs me !! "containerDefinitions" = Some (VRef lc) →
    other_dicts_kept h0 (St me h c) →
    ∃ h', (for_in_list fuel lc i (add_environment env_values) (St me h c)).2
          = St me h' c ∧
          other_dicts_kept h0 (St me h' c).
Proof.
  induction fuel as [|fuel IH]; intros i me h c Hkw Hs; [by exists h|].
  cbn [for_in_list]. rewrite run_bind. cbn [deref store].
  destruct (h !! lc) as [[items|]|] eqn:Hlc; try (by exists h).
  destruct (items !! i) as [x|] eqn:Hx; [|by exists h].
  destruct (add_environment_other_dicts h0 env_values x me h c Hs) as (h1 & Hrun & H1).
  { intros l ->. exists lc, items. split; [done|]. split; [done|].
    by eapply list_elem_of_lookup_2. }
  rewrite run_bind.
  destruct (add_environment env_values x (St me h c)) as [[[]|e|] s1];
    cbn [snd] in Hrun; subst s1; [|by exists h1..].
  by apply IH.
Qed.

Lemma for_each_other_dicts h0 env_values items :
  ∀ me h c,
    Forall (λ x, ∀ l, x ≠ VRef l) items →
    other_dicts_kept h0 (St me h c) →
    ∃ h', (for_each items (add_environment env_values) (St me h c)).2 = St me h' c ∧
          other_dicts_kept h0 (St me h' c).
Proof.
  induction items as [|x items IH]; intros me h c Hitems Hs; [by exists h|].
  apply Forall_cons in Hitems as [Hx Hitems].
  cbn [for_each]. rewrite run_bind.
  destruct (add_environment_other_dicts h0 env_values x me h c Hs) as (h1 & Hrun & H1).
  { intros l ->. by destruct (Hx l). }
  destruct (add_environment env_values x (St me h c)) as [[[]|e|] s1];
    cbn [snd] in Hrun; subst s1; [|by exists h1..].
  by apply IH.
Qed.

Lemma keeps_dicts_same_state {A} h0 (m : M A) :
  (∀ s, (m s).2 = s) → keeps_other_dicts h0 m.
Proof. intros Hm s Hs. by rewrite Hm. Qed.

Lemma keeps_dicts_bind {A B} h0 (m : M A) (f : A → M B) :
  keeps_other_dicts h0 m → (∀ a, keeps_other_dicts h0 (f a)) →
  keeps_other_dicts h0 (m ≫= f).
Proof.
  intros Hm Hf s Hs. specialize (Hm s Hs). rewrite run_bind.
  destruct (m s) as [[a|e|] s1]; cbn [snd] in *; [|done..].
  by apply Hf.
Qed.

Lemma keeps_dicts_alloc h0 o : keeps_other_dicts h0 (alloc o).
Proof. intros [me h c] Hs. by apply other_dicts_kept_alloc. Qed.

Lemma keeps_dicts_alloc_dicts h0 displays :
  keeps_other_dicts h0 (alloc_dicts displays).
Proof.
  induction displays as [|d displays IH]; [by apply keeps_dicts_same_state|].
  cbn [alloc_dicts]. apply keeps_dicts_bind; [apply keeps_dicts_alloc|]. intros x.
  apply keeps_dicts_bind; [apply IH|]. intros xs. by apply keeps_dicts_same_state.
Qed.

Lemma keeps_dicts_meth_get h0 v key : keeps_other_dicts h0 (meth_get v key).
Proof.
  apply keeps_dicts_same_state. intros s. unfold meth_get. rewrite run_bind. cbn.
  by destruct v as [| | | |l]; [..|destruct (store s !! l) as [[|]|]].
Qed.

Lemma same_state_getitem0 v s : (getitem0 v s).2 = s.
Proof.
  unfold getitem0. rewrite run_bind. cbn.
  destruct v as [| | |[|]|l]; try done.
  destruct (store s !! l) as [[items|]|]; try done. by destruct (items !! 0).
Qed.

Lemma keeps_dicts_first_container h0 : keeps_other_dicts h0 first_container.
Proof.
  apply keeps_dicts_same_state. intros s. unfold first_container.
  rewrite run_bind. unfold definition_kwargs_getitem. rewrite run_bind. cbn.
  destruct (_ !! _); [|done]. apply same_state_getitem0.
Qed.

(** An assignment to a key of the first container entry. *)
Lemma setitem_first_other_dicts h0 cds key x me h c :
  default VNone (task_definition_kwargs me !! "containerDefinitions") = cds →
  other_dicts_kept h0 (St me h c) →
  other_dicts_kept h0
    ((getitem0 cds ≫= λ first, setitem first key x) (St me h c)).2.
Proof.
  intros Hcds Hs. rewrite run_bind. unfold getitem0 at 1. rewrite run_bind.
  cbn [deref store].
  destruct cds as [| | |[|a str']|lc]; try done.
  destruct (h !! lc) as [[items|]|] eqn:Hlc; try done.
  destruct (items !! 0) as [first|] eqn:Hfirst; [|done].
  unfold mret at 1, M_ret at 1. unfold setitem. rewrite run_bind. cbn [deref store].
  destruct first as [| | | |l]; try done.
  destruct (h !! l) as [[|entries]|] eqn:Hl; try done.
  cbn. eapply other_dicts_kept_write_entry; [done| |done].
  exists lc, items. cbn. split; [|split; [done|by eapply list_elem_of_lookup_2]].
  destruct (task_definition_kwargs me !! "containerDefinitions"); by simplify_eq/=.
Qed.

Lemma keeps_dicts_set_first h0 key x :
  keeps_other_dicts h0 (first ← first_container; setitem first key x).
Proof.
  intros [me h c] Hs. unfold first_container, definition_kwargs_getitem.
  rewrite !run_bind. cbn [self_attr self fst snd].
  destruct (task_definition_kwargs me !! "containerDefinitions") as [cds|] eqn:Hkw;
    [|done].
  unfold mret at 1, M_ret at 1.
  pose proof (setitem_first_other_dicts h0 cds key x me h c) as Hset.
  rewrite run_bind in Hset. apply Hset; [by rewrite Hkw|done].
Qed.

Lemma keeps_dicts_set_first_via_get h0 key x :
  keeps_other_dicts h0 (first ← first_container_via_get; setitem first key x).
Proof.
  intros [me h c] Hs. unfold first_container_via_get, definition_kwargs_get.
  rewrite !run_bind. cbn [self_attr self fst snd].
  unfold mret at 1, M_ret at 1.
  pose proof (setitem_first_other_dicts h0 _ key x me h c eq_refl) as Hset.
  rewrite run_bind in Hset. by apply Hset.
Qed.

Lemma keeps_dicts_create_container_definitions h0 :
  keeps_other_dicts h0 create_container_definitions.
Proof.
  intros [me h c] Hs. rewrite run_create_container_definitions.
  destruct (truthy h _) eqn:Htruthy; [done|]. cbn [snd].
  destruct Hs as [Hlen Hdicts]. cbn [store] in *.
  split; [cbn; rewrite length_app; lia|].
  intros l entries Hl. left. cbn.
  destruct (Hdicts l entries Hl) as [Hsame|(lc & items & Hkw & Hlc & Hin)];
    [by apply lookup_alloc_old|].
  cbn in Hkw, Hlc. rewrite Hkw in Htruthy. cbn in Htruthy. rewrite Hlc in Htruthy.
  destruct items; [set_solver|done].
Qed.

Lemma keeps_dicts_set_environment_variables h0 fuel env_values :
  keeps_other_dicts h0 (set_environment_variables fuel env_values).
Proof.
  intros [me h c] Hs. unfold set_environment_variables, definition_kwargs_getitem.
  rewrite !run_bind. cbn [self_attr self fst snd].
  destruct (task_definition_kwargs me !! "containerDefinitions") as [cds|] eqn:Hkw;
    [|done].
  unfold mret at 1, M_ret at 1. unfold for_in. rewrite run_bind. cbn [deref store].
  assert (∀ items, Forall (λ x, ∀ l, x ≠ VRef l) (VStr <$> items)) as Hstrings.
  { intros items. apply Forall_fmap, Forall_true. by intros. }
  assert (∀ str', Forall (λ x, ∀ l, x ≠ VRef l) (chars str')) as Hchars.
  { induction str'; constructor; done. }
  destruct cds as [| | |str'|lc]; try done.
  - destruct (for_each_other_dicts h0 env_values (chars str') me h c (Hchars _) Hs)
      as (h' & -> & H'). done.
  - destruct (h !! lc) as [[items|entries]|] eqn:Hlc; [| |done].
    + destruct (for_in_list_other_dicts h0 env_values lc fuel 0 me h c Hkw Hs)
        as (h' & -> & H'). done.
    + destruct (for_each_other_dicts h0 env_values _ me h c
                  (Hstrings (map_to_list entries).*1) Hs) as (h' & -> & H'). done.
Qed.

Ltac keeps_dicts :=
  repeat first
    [ apply keeps_dicts_alloc | apply keeps_dicts_meth_get
    | apply keeps_dicts_first_container
    | apply keeps_dicts_set_first | apply keeps_dicts_set_first_via_get
    | by apply keeps_dicts_same_state
    | match goal with
      | |- keeps_other_dicts _ (if ?b then _ else _) => destruct b
      | |- keeps_other_dicts _ (_ ≫= _) => apply keeps_dicts_bind; [|intros ?]
      end ].

Lemma keeps_dicts_synthesize_containers h0 fuel flow :
  keeps_other_dicts h0 (synthesize_containers fuel flow).
Proof.
  unfold synthesize_containers.
  apply keeps_dicts_bind; [apply keeps_dicts_alloc_dicts|]. intros env_values.
  apply keeps_dicts_bind; [apply keeps_dicts_create_container_definitions|].
  intros _.
  apply keeps_dicts_bind; [apply keeps_dicts_set_environment_variables|]. intros _.
  apply keeps_dicts_bind; [unfold set_name; keeps_dicts|]. intros _.
  apply keeps_dicts_bind; [unfold set_image; keeps_dicts|]. intros _.
  unfold set_command; keeps_dicts.
Qed.

(** X7.  Whatever the configuration and however the call ends, the only dicts
    of the store that [setup] changes are entries of the list that
    [containerDefinitions] is bound to in the end: a dict that existed
    is as it was, unless it is one of them.  The variables an
    environment list held, a log or proxy configuration, the value of
    any other option: none of them is written. *)
Theorem setup_keeps_other_dicts fuel boto3_client flow s :
  other_dicts_kept (store s) (setup fuel boto3_client flow s).2.
Proof.
  assert (∀ c, other_dicts_kept (store s) (St (self s) (store s) c)) as Hstart
    by (intros c; split; [done|by left]).
  rewrite run_setup. cbn zeta.
  destruct (describe_task_definition _ _ _) as [e|]; [|apply Hstart].
  destruct (is_ClientError e); [|apply Hstart].
  rewrite run_register_definition.
  pose proof (keeps_dicts_synthesize_containers (store s) fuel flow
    (record_call (DescribeTaskDefinition (family_of (self s))) s) (Hstart _))
    as Hkept.
  by destruct (synthesize_containers _ _ _) as [[[]|e'|] s1].
Qed.

End FargateTask.

Arguments FargateTaskEnvironment : clear implicits.
Arguments init_args : clear implicits.
Arguments state : clear implicits.
Arguments executor {Executor Callable} _.
Arguments task_definition_kwargs {Executor Callable} _.
Arguments task_run_kwargs {Executor Callable} _.
Arguments aws_access_key_id {Executor Callable} _.
Arguments aws_secret_access_key {Executor Callable} _.
Arguments aws_session_token {Executor Callable} _.
Arguments region_name {Executor Callable} _.
Arguments launch_type {Executor Callable} _.
Arguments arg_executor {Executor Callable} _.
Arguments arg_executor_kwargs {Executor Callable} _.
Arguments self {Executor Callable} _.
Arguments store {Executor Callable} _.
Arguments calls {Executor Callable} _.
Arguments record_call {Executor Callable} c s.
Arguments __init__ {Executor Callable} get_default_executor_class environ h a.
Arguments setup {Flow Executor Callable} get_flow_image str config fuel boto3_client flow _.
Arguments execute {Flow Executor Callable} get_flow_image config boto3_client context flow _.
Arguments definition_registered {Flow Executor Callable} get_flow_image str config
  boto3_client flow s outcome.
Arguments setups {Flow Executor Callable} get_flow_image str config fuel invocations s.
Arguments all_absent {Flow Executor Callable} get_flow_image str config fuel
  invocations s.
Arguments environments_extended {Executor Callable} str config s s' n.

(** ** A concrete world, for running the definitions *)

Module Example.

(** An executor is identified by the keyword arguments it was built
    from; the default executor class accepts any of them. *)
Definition default_executor (kwargs : gmap string pyval)
    : exn + gmap string pyval := inr kwargs.

Definition environ : gmap string string :=
  {[ "AWS_ACCESS_KEY_ID" := "AKIAEXAMPLE"; "REGION_NAME" := "us-east-1" ]}.

(** [FargateTaskEnvironment(executor=5, executor_kwargs={})], the empty
    dict being the object at address 0 *)
Definition args_bad_executor : init_args (gmap string pyval) unit :=
  {| arg_launch_type := VStr "FARGATE";
     arg_aws_access_key_id := VNone;
     arg_aws_secret_access_key := VNone;
     arg_aws_session_token := VNone;
     arg_region_name := VNone;
     arg_executor := ArgValue (VInt 5);
     arg_executor_kwargs := VRef 0;
     arg_labels := None;
     arg_on_start := None;
     arg_on_exit := None;
     arg_metadata := None;
     arg_kwargs := ∅ |}.

(** [FargateTaskEnvironment(aws_access_key_id="", region_name="",
    executor_kwargs={"address": "tcp://scheduler"}, family="flow",
    tags=[...])], the dict of executor arguments at address 0 and the
    list of tags at address 1 *)
Definition args_deprecated : init_args (gmap string pyval) unit :=
  {| arg_launch_type := VStr "FARGATE";
     arg_aws_access_key_id := VStr "";
     arg_aws_secret_access_key := VNone;
     arg_aws_session_token := VNone;
     arg_region_name := VStr "";
     arg_executor := ArgValue VNone;
     arg_executor_kwargs := VRef 0;
     arg_labels := None;
     arg_on_start := None;
     arg_on_exit := None;
     arg_metadata := None;
     arg_kwargs := {[ "family" := VStr "flow"; "tags" := VRef 1 ]} |}.

(** [FargateTaskEnvironment(executor_kwargs=v)] *)
Definition args_executor_kwargs (v : pyval) : init_args (gmap string pyval) unit :=
  {| arg_launch_type := VStr "FARGATE";
     arg_aws_access_key_id := VNone;
     arg_aws_secret_access_key := VNone;
     arg_aws_session_token := VNone;
     arg_region_name := VNone;
     arg_executor := ArgValue VNone;
     arg_executor_kwargs := v;
     arg_labels := None;
     arg_on_start := None;
     arg_on_exit := None;
     arg_metadata := None;
     arg_kwargs := ∅ |}.

Definition store_deprecated : heap :=
  [ ODict {[ "address" := VStr "tcp://scheduler" ]}; OList [] ].

Definition config : Config :=
  {| cloud_graphql := VStr "https://api.prefect.io/graphql";
     cloud_agent_auth_token := VStr "";
     cloud_auth_token := VStr "token";
     logging_extra_loggers := [] |}.

(** A flow is named by its image; [str([])] is ["[]"]. *)
Definition flow_image (flow : string) : string := flow.
Definition str_loggers (loggers : list string) : string := "[]".

(** The service has no task definition of the family. *)
Definition absent_client : client_factory := λ _ _ _ _ _,
  {| describe_task_definition := λ _ _, Some (ClientError "ClientException");
     register_task_definition := λ _ _, None;
     run_task := λ _ _, None |}.

(** The service has one. *)
Definition present_client : client_factory := λ _ _ _ _ _,
  {| describe_task_definition := λ _ _, None;
     register_task_definition := λ _ _, None;
     run_task := λ _ _, None |}.

(** The service has one, and refuses to describe it to these
    credentials; it accepts a registration. *)
Definition denied_client : client_factory := λ _ _ _ _ _,
  {| describe_task_definition := λ _ _, Some (ClientError "AccessDeniedException");
     register_task_definition := λ _ _, None;
     run_task := λ _ _, None |}.

(** The service cannot be reached. *)
Definition unreachable_client : client_factory := λ _ _ _ _ _,
  {| describe_task_definition := λ _ _, Some (OtherError "EndpointConnectionError");
     register_task_definition := λ _ _, Some (OtherError "EndpointConnectionError");
     run_task := λ _ _, Some (OtherError "EndpointConnectionError") |}.

Definition instance (definition_kwargs run_kwargs : gmap string pyval)
    : FargateTaskEnvironment (gmap string pyval) unit :=
  {| launch_type := VStr "FARGATE";
     aws_access_key_id := VStr "AKIAEXAMPLE";
     aws_secret_access_key := VNone;
     aws_session_token := VNone;
     region_name := VStr "us-east-1";
     task_definition_kwargs := definition_kwargs;
     task_run_kwargs := run_kwargs;
     executor := ∅;
     labels := None;
     on_start := None;
     on_exit := None;
     metadata := None |}.

(** [FargateTaskEnvironment(family="flow", taskDefinition="flow")] *)
Definition plain : state (gmap string pyval) unit :=
  {| self := instance {[ "family" := VStr "flow" ]} {[ "taskDefinition" := VStr "flow" ]};
     store := [];
     calls := [] |}.

(** [FargateTaskEnvironment(family="flow", containerDefinitions=[{}, {}])],
    the two entries at addresses 0 and 1 and their list at address 2 *)
Definition two_containers : state (gmap string pyval) unit :=
  {| self := instance {[ "family" := VStr "flow"; "containerDefinitions" := VRef 2 ]} ∅;
     store := [ODict ∅; ODict ∅; OList [VRef 0; VRef 1]];
     calls := [] |}.

(** Two container entries (addresses 2 and 3, their list at 4) given one
    and the same environment list (address 0, its one variable at 1):
<<
    env = [{"name": "FOO", "value": "1"}]
    FargateTaskEnvironment(family="flow", containerDefinitions=[
        {"environment": env}, {"environment": env}])
>>
*)
Definition shared_environment : state (gmap string pyval) unit :=
  {| self := instance {[ "family" := VStr "flow"; "containerDefinitions" := VRef 4 ]} ∅;
     store := [ OList [VRef 1];
                ODict {[ "name" := VStr "FOO"; "value" := VStr "1" ]};
                ODict {[ "environment" := VRef 0 ]};
                ODict {[ "environment" := VRef 0 ]};
                OList [VRef 2; VRef 3] ];
     calls := [] |}.

(** The names of the standard variables. *)
Definition standard_names : list string :=
  [ "PREFECT__CLOUD__GRAPHQL";
    "PREFECT__CLOUD__USE_LOCAL_SECRETS";
    "PREFECT__ENGINE__FLOW_RUNNER__DEFAULT_CLASS";
    "PREFECT__ENGINE__TASK_RUNNER__DEFAULT_CLASS";
    "PREFECT__LOGGING__LOG_TO_CLOUD";
    "PREFECT__LOGGING__EXTRA_LOGGERS" ].


(** [FargateTaskEnvironment(launch_type="EC2", aws_access_key_id="AKIAGIVEN",
    region_name="eu-west-1", executor=<an executor>, family="flow",
    cluster="c1", launchType="FARGATE")] *)
Definition args_explicit : init_args (gmap string pyval) unit :=
  {| arg_launch_type := VStr "EC2";
     arg_aws_access_key_id := VStr "AKIAGIVEN";
     arg_aws_secret_access_key := VNone;
     arg_aws_session_token := VNone;
     arg_region_name := VStr "eu-west-1";
     arg_executor := ArgExecutor ∅;
     arg_executor_kwargs := VNone;
     arg_labels := None;
     arg_on_start := None;
     arg_on_exit := None;
     arg_metadata := None;
     arg_kwargs := {[ "family" := VStr "flow"; "cluster" := VStr "c1";
                      "launchType" := VStr "FARGATE" ]} |}.

(** The instance that call returns. *)
Definition explicit : FargateTaskEnvironment (gmap string pyval) unit :=
  {| launch_type := VStr "EC2";
     aws_access_key_id := VStr "AKIAGIVEN";
     aws_secret_access_key := VNone;
     aws_session_token := VNone;
     region_name := VStr "eu-west-1";
     task_definition_kwargs := {[ "family" := VStr "flow" ]};
     task_run_kwargs := {[ "cluster" := VStr "c1" ]};
     executor := ∅;
     labels := None;
     on_start := None;
     on_exit := None;
     metadata := None |}.

(** [FargateTaskEnvironment(family="flow", containerDefinitions=[{}, "nginx"])],
    the dict at address 0 and the list at address 1 *)
Definition string_entry : state (gmap string pyval) unit :=
  {| self := instance {[ "family" := VStr "flow"; "containerDefinitions" := VRef 1 ]} ∅;
     store := [ODict ∅; OList [VRef 0; VStr "nginx"]];
     calls := [] |}.

(** [FargateTaskEnvironment(family="flow", containerDefinitions={"name": "web"})],
    the dict at address 0 *)
Definition dict_definitions : state (gmap string pyval) unit :=
  {| self := instance {[ "family" := VStr "flow"; "containerDefinitions" := VRef 0 ]} ∅;
     store := [ODict {[ "name" := VStr "web" ]}];
     calls := [] |}.

(** An instance whose run options were assigned after construction and
    hold [launchType]. *)
Definition launch_type_twice : state (gmap string pyval) unit :=
  {| self := instance {[ "family" := VStr "flow" ]} {[ "launchType" := VStr "EC2" ]};
     store := [];
     calls := [] |}.

End Example.

(** ** The construction theorems at concrete calls *)


Lemma init_forwards_executor_kwargs_witness :
  ∃ me, (__init__ Example.default_executor Example.environ Example.store_deprecated
           Example.args_deprecated).2 = Returned me ∧
        executor me = {[ "address" := VStr "tcp://scheduler" ]}.
Proof.
  exact (proj1 (init_forwards_executor_kwargs _ _ Example.default_executor
                  Example.environ Example.store_deprecated Example.args_deprecated
                  eq_refl)
           0 {[ "address" := VStr "tcp://scheduler" ]} eq_refl eq_refl).
Defined.

Lemma init_credentials_fallback_witness :
  ∃ me, (__init__ Example.default_executor Example.environ Example.store_deprecated
           Example.args_deprecated).2 = Returned me ∧
        aws_access_key_id me = VStr "AKIAEXAMPLE" ∧
        aws_secret_access_key me = VNone ∧
        aws_session_token me = VNone ∧
        region_name me = VStr "us-east-1".
Proof.
  eexists. split; [reflexivity|].
  pose proof (init_credentials_fallback _ _ Example.default_executor
                Example.environ Example.store_deprecated Example.args_deprecated
                _ eq_refl) as (H1 & H2 & H3 & H4).
  split; [apply H1; reflexivity|].
  split; [apply H2; reflexivity|].
  split; [apply H3; reflexivity | apply H4; reflexivity].
Defined.


(** Nor does it complete when [executor] is absent and the value given as
    [executor_kwargs] cannot be unpacked:
    [FargateTaskEnvironment(executor_kwargs=5)] warns and raises. *)
Lemma init_executor_kwargs_not_a_mapping :
  ∃ msg, __init__ Example.default_executor Example.environ []
           (Example.args_executor_kwargs (VInt 5))
         = ([deprecation_warning], Raised (TypeError msg)).
Proof. eexists. reflexivity. Qed.


(** ** The theorems on [setup] and [execute] at concrete calls *)

(** C2 as stated fails: the handler does not look at the error code.  An
    error response that is not of the not-found kind (access denied) is
    not raised by [setup]: the definition is taken to be absent, a
    registration is sent, and [setup] returns. *)
Lemma setup_existence_check_raises_counterexample :
  let outcome :=
    setup Example.flow_image Example.str_loggers Example.config 3
      Example.denied_client "image:1" Example.plain in
  describe_task_definition (Example.denied_client "ecs" VNone VNone VNone VNone)
    (VStr "flow") [] = Some (ClientError "AccessDeniedException") ∧
  outcome.1 = Returned () ∧
  outcome.1 ≠ Raised (ClientError "AccessDeniedException") ∧
  ∃ kwargs h',
    calls outcome.2 = [DescribeTaskDefinition (VStr "flow");
                       RegisterTaskDefinition kwargs h'].
Proof.
  cbn zeta. split; [reflexivity|].
  assert ((setup Example.flow_image Example.str_loggers Example.config 3
             Example.denied_client "image:1" Example.plain).1 = Returned ()) as Hret
    by (vm_compute; reflexivity).
  split; [exact Hret|]. split; [by rewrite Hret|].
  do 2 eexists. vm_compute. reflexivity.
Qed.

Lemma setup_existence_check_raises_witness :
  setup Example.flow_image Example.str_loggers Example.config 3
    Example.unreachable_client "image:1" Example.plain
  = (Raised (OtherError "EndpointConnectionError"),
     record_call (DescribeTaskDefinition (VStr "flow")) Example.plain).
Proof.
  exact (setup_existence_check_raises _ _ _ Example.flow_image Example.str_loggers
           Example.config 3 Example.unreachable_client "image:1" Example.plain
           (OtherError "EndpointConnectionError") eq_refl).
Defined.

Lemma setup_definition_exists_witness :
  setup Example.flow_image Example.str_loggers Example.config 3
    Example.present_client "image:1" Example.two_containers
  = (Returned (),
     record_call (DescribeTaskDefinition (VStr "flow")) Example.two_containers).
Proof.
  exact (setup_definition_exists _ _ _ Example.flow_image Example.str_loggers
           Example.config 3 Example.present_client "image:1" Example.two_containers
           eq_refl).
Defined.






(** ** The further properties at concrete calls *)

Lemma init_explicit_credentials_witness :
  (__init__ Example.default_executor Example.environ [] Example.args_explicit).2
    = Returned Example.explicit ∧
  aws_access_key_id Example.explicit = VStr "AKIAGIVEN" ∧
  region_name Example.explicit = VStr "eu-west-1".
Proof.
  assert ((__init__ Example.default_executor Example.environ []
             Example.args_explicit).2 = Returned Example.explicit) as Hinit
    by (vm_compute; reflexivity).
  pose proof (init_explicit_credentials _ _ Example.default_executor
                Example.environ [] Example.args_explicit _ Hinit)
    as (H1 & _ & _ & H4).
  split; [exact Hinit|].
  split; [apply H1; reflexivity | apply H4; reflexivity].
Defined.

Lemma init_executor_kwargs_truthiness_witness :
  (∃ me, (__init__ Example.default_executor Example.environ []
            (Example.args_executor_kwargs (VStr ""))).2 = Returned me ∧
         executor me = ∅) ∧
  (∃ msg, (__init__ Example.default_executor Example.environ [OList [VInt 1]]
             (Example.args_executor_kwargs (VRef 0))).2 = Raised (TypeError msg)).
Proof.
  split.
  - exact (proj1 (init_executor_kwargs_truthiness _ _ Example.default_executor
                    Example.environ [] (Example.args_executor_kwargs (VStr ""))
                    eq_refl) eq_refl).
  - apply (proj2 (init_executor_kwargs_truthiness _ _ Example.default_executor
                    Example.environ [OList [VInt 1]]
                    (Example.args_executor_kwargs (VRef 0)) eq_refl));
      [reflexivity|].
    intros l entries [= <-]. discriminate.
Defined.

Lemma setup_malformed_entry_witness :
  (setup Example.flow_image Example.str_loggers Example.config 2
     Example.absent_client "image:1" Example.string_entry).1
    = Raised (AttributeError "get") ∧
  calls (setup Example.flow_image Example.str_loggers Example.config 2
           Example.absent_client "image:1" Example.string_entry).2
    = [DescribeTaskDefinition (VStr "flow")].
Proof.
  rewrite (setup_malformed_entry _ _ _ Example.flow_image Example.str_loggers
             Example.config 2 Example.absent_client "image:1" Example.string_entry
             "ClientException" 1 [VRef 0] (VStr "nginx") [] (AttributeError "get"));
    [split; reflexivity | reflexivity | reflexivity | reflexivity
    | repeat constructor | reflexivity | cbn; lia].
Defined.

Lemma setup_container_definitions_not_a_list_witness :
  setup Example.flow_image Example.str_loggers Example.config 2
    Example.absent_client "image:1" Example.dict_definitions
  = (Raised (AttributeError "get"),
     {| self := self Example.dict_definitions;
        store := store Example.dict_definitions
                 ++ (ODict <$> env_values_displays Example.str_loggers Example.config);
        calls := [DescribeTaskDefinition (VStr "flow")] |}).
Proof.
  rewrite (setup_container_definitions_not_a_list _ _ _ Example.flow_image
             Example.str_loggers Example.config 2 Example.absent_client "image:1"
             Example.dict_definitions "ClientException" (AttributeError "get"));
    [reflexivity | reflexivity | vm_compute; reflexivity].
Defined.

Lemma setup_default_container_witness :
  (setup Example.flow_image Example.str_loggers Example.config 2
     Example.absent_client "image:1" Example.plain).1 = Returned () ∧
  store (setup Example.flow_image Example.str_loggers Example.config 2
           Example.absent_client "image:1" Example.plain).2
    = default_container_objects _ Example.flow_image Example.str_loggers
        Example.config "image:1" [].
Proof.
  rewrite (setup_default_container _ _ _ Example.flow_image Example.str_loggers
             Example.config 2 Example.absent_client "image:1" Example.plain
             "ClientException");
    [split; reflexivity | reflexivity | vm_compute; reflexivity | lia].
Defined.

Lemma execute_duplicate_keyword_witness :
  ∃ msg,
    execute Example.flow_image Example.config Example.present_client ∅ "image:1"
      Example.launch_type_twice
    = (Raised (TypeError msg),
       {| self := self Example.launch_type_twice;
          store := override_objects _ Example.flow_image Example.config [] ∅ "image:1";
          calls := [] |}).
Proof.
  apply (execute_duplicate_keyword _ _ _ Example.flow_image Example.config
           Example.present_client ∅ "image:1" Example.launch_type_twice).
  right. exists (VStr "EC2"). vm_compute. reflexivity.
Defined.

Lemma init_execute_request_witness :
  ∃ kwargs,
    calls (execute Example.flow_image Example.config Example.present_client ∅
             "image:1" {| self := Example.explicit; store := []; calls := [] |}).2
      = [RunTask kwargs (override_objects _ Example.flow_image Example.config
                           [] ∅ "image:1")] ∧
    kwargs !! "launchType" = Some (VStr "EC2") ∧
    kwargs !! "cluster" = Some (VStr "c1") ∧
    kwargs !! "family" = None.
Proof.
  assert ((__init__ Example.default_executor Example.environ []
             Example.args_explicit).2 = Returned Example.explicit) as Hinit
    by (vm_compute; reflexivity).
  destruct (init_execute_request _ _ _ Example.flow_image Example.default_executor
              Example.config Example.environ [] Example.args_explicit
              Example.explicit Example.present_client ∅ "image:1"
              {| self := Example.explicit; store := []; calls := [] |}
              Hinit eq_refl)
    as (kwargs & Hrun & _ & Hlaunch & Hrest).
  exists kwargs. cbn zeta in Hrun. rewrite Hrun.
  split; [reflexivity|]. split; [exact Hlaunch|].
  split; [rewrite Hrest by discriminate; reflexivity|].
  rewrite Hrest by discriminate. reflexivity.
Defined.

Lemma init_setup_requests_witness :
  ∃ more,
    calls (setup Example.flow_image Example.str_loggers Example.config 2
             Example.absent_client "image:1"
             {| self := Example.explicit; store := []; calls := [] |}).2
      = DescribeTaskDefinition (VStr "flow") :: more ∧
    (more = [] ∨
     ∃ kwargs h',
       more = [RegisterTaskDefinition kwargs h'] ∧
       kwargs !! "family" = Some (VStr "flow") ∧
       kwargs !! "cluster" = None).
Proof.
  assert ((__init__ Example.default_executor Example.environ []
             Example.args_explicit).2 = Returned Example.explicit) as Hinit
    by (vm_compute; reflexivity).
  destruct (init_setup_requests _ _ _ Example.flow_image Example.default_executor
              Example.str_loggers Example.config Example.environ []
              Example.args_explicit Example.explicit 2 Example.absent_client
              "image:1" {| self := Example.explicit; store := []; calls := [] |}
              Hinit eq_refl)
    as (more & Hcalls & Hmore).
  exists more. split; [exact Hcalls|].
  destruct Hmore as [->|(kwargs & h' & -> & Hkeys)]; [by left|right].
  exists kwargs, h'. split; [reflexivity|].
  split; rewrite Hkeys by discriminate; reflexivity.
Defined.
